(** * VAEditor: the Turbo-Gherkin language provider

    A shallow embedding of [src/languages/turbo-gherkin/provider.ts]
    (class [VanessaGherkinProvider]) and the properties of its
    vocabulary store, line classifier, folding engine, syntax validator,
    quick-fix engine, completion engine, hover engine and link resolver,
    with [getLanguage] of [src/common.ts].

    Conventions of the embedding:
    - a JavaScript string is the list of its UTF-16 code units;
    - a regular-expression literal of the source is written as a value of
      [re] and run by a backtracking matcher with the priorities of the
      ECMAScript one (ordered alternation, greedy repetition, leftmost
      match);
    - a plain JavaScript object used as a dictionary is the association
      list of its own properties in enumeration order, and its prototype
      is [Object.prototype]: a read of a name that is no entry finds the
      member inherited under that name, if there is one ([oread]);
    - an exception is a value of [result]; a method that mutates the
      provider returns the provider as it stands when the method returns
      or throws;
    - where the source leaves these conventions, the call ends with
      [Throw Exotic]: where it replaces the prototype of a dictionary
      (an assignment to the key [__proto__]), goes on with an object of
      the host that it took for an entry, or writes into a table that it
      shares with [_imports].  Nothing is said of such a call, nor of
      the provider it leaves. *)

From Stdlib Require Import String Ascii.
From Stdlib Require Import NArith ZArith QArith Bool Arith Lia List Sorted Permutation.
Import ListNotations.
Open Scope nat_scope.

Set Implicit Arguments.
Set Warnings "-register-all".

(* ================================================================== *)
(** ** JavaScript strings *)

Module JsString.

Abbreviation jsstring := (list N) (only parsing).

(** The code units of a literal written in ASCII. *)
Definition str (s : string) : jsstring :=
  List.map N_of_ascii (list_ascii_of_string s).

Definition eqb (a b : jsstring) : bool :=
  if list_eq_dec N.eq_dec a b then true else false.

Definition inN (lo hi c : N) : bool := (N.leb lo c && N.leb c hi)%bool.

(** [\s] of ECMAScript: white space and line terminators. *)
Definition is_space (c : N) : bool :=
  (inN 9 13 c || N.eqb c 32 || N.eqb c 160 || N.eqb c 5760
   || inN 8192 8202 c || N.eqb c 8232 || N.eqb c 8233 || N.eqb c 8239
   || N.eqb c 8287 || N.eqb c 12288 || N.eqb c 65279)%bool.

(** [.] of ECMAScript: anything but a line terminator. *)
Definition is_dot (c : N) : bool :=
  negb (N.eqb c 10 || N.eqb c 13 || N.eqb c 8232 || N.eqb c 8233)%bool.

(** The class [[A-zА-яЁё]]: code units 65..122 (which takes in the six
    characters between [Z] and [a]), 1040..1103, 1025 and 1105. *)
Definition is_letter (c : N) : bool :=
  (inN 65 122 c || inN 1040 1103 c || N.eqb c 1025 || N.eqb c 1105)%bool.

Definition is_digit (c : N) : bool := inN 48 57 c.

(** [String.prototype.toLowerCase] for the code units up to [U+00FF]
    and those of the block [U+0400] to [U+045F]; there the host maps
    code unit by code unit, as written here.  The other code units are
    kept: the case tables of the host for them, and its rule for a
    final sigma, are outside the model. *)
Definition lower_unit (c : N) : N :=
  if inN 65 90 c then (c + 32)%N
  else if (inN 192 222 c && negb (N.eqb c 215))%bool then (c + 32)%N
  else if inN 1040 1071 c then (c + 32)%N
  else if inN 1024 1039 c then (c + 80)%N
  else c.

(** [String.prototype.toUpperCase] of one code unit, for the same code
    units: the sharp s becomes two letters, the micro sign and the y
    with diaeresis leave Latin-1. *)
Definition upper_unit (c : N) : list N :=
  if inN 97 122 c then [(c - 32)%N]
  else if N.eqb c 181 then [924%N]
  else if N.eqb c 223 then [83%N; 83%N]
  else if N.eqb c 255 then [376%N]
  else if (inN 224 254 c && negb (N.eqb c 247))%bool then [(c - 32)%N]
  else if inN 1072 1103 c then [(c - 32)%N]
  else if inN 1104 1119 c then [(c - 80)%N]
  else [c].

Definition toLowerCase (s : jsstring) : jsstring := List.map lower_unit s.

(** [s.substring(a, b)] for [a <= b]. *)
Definition substring (a b : nat) (s : jsstring) : jsstring :=
  firstn (b - a) (skipn a s).

(** [a.join(sep)] *)
Fixpoint join (sep : jsstring) (l : list jsstring) : jsstring :=
  match l with
  | [] => []
  | [x] => x
  | x :: r => x ++ sep ++ join sep r
  end.

(** [s.split(sep)] for a separator of one code unit. *)
Fixpoint split_acc (sep : N) (cur : jsstring) (s : jsstring) : list jsstring :=
  match s with
  | [] => [rev cur]
  | c :: r => if N.eqb c sep then rev cur :: split_acc sep [] r
              else split_acc sep (c :: cur) r
  end.

Definition split (sep : N) (s : jsstring) : list jsstring := split_acc sep [] s.

(** [s.trim()] *)
Fixpoint trimStart (s : jsstring) : jsstring :=
  match s with
  | c :: r => if is_space c then trimStart r else s
  | [] => []
  end.

Definition trim (s : jsstring) : jsstring := rev (trimStart (rev (trimStart s))).

Fixpoint starts_with (p s : jsstring) : bool :=
  match p, s with
  | [], _ => true
  | a :: p', b :: s' => (N.eqb a b && starts_with p' s')%bool
  | _ :: _, [] => false
  end.

(** Decimal digits of a natural number, for [String(n)]. *)
Fixpoint digits_fuel (fuel : nat) (n : N) (acc : jsstring) : jsstring :=
  match fuel with
  | O => acc
  | S f =>
      let acc' := (48 + N.modulo n 10)%N :: acc in
      if N.ltb n 10 then acc' else digits_fuel f (N.div n 10) acc'
  end.

Definition of_N (n : N) : jsstring := digits_fuel (S (N.to_nat (N.log2 n))) n [].

Definition of_Z (z : Z) : jsstring :=
  match z with
  | Z0 => [48%N]
  | Zpos p => of_N (Npos p)
  | Zneg p => 45%N :: of_N (Npos p)
  end.

Definition of_nat (n : nat) : jsstring := of_N (N.of_nat n).

(** *** Numbers

    A number of the host is a double.  [nearest x] is the double
    nearest to the natural number [x], a tie going to the even
    mantissa; from [2 ^ 1024] on it stands for [Infinity]. *)
Definition nearest (x : N) : N :=
  if N.ltb x (2 ^ 53) then x
  else
    let e := (N.log2 x - 52)%N in
    let q := N.shiftr x e in
    let r := (x - N.shiftl q e)%N in
    let half := N.shiftl 1 (e - 1) in
    N.shiftl (if (N.ltb half r || (N.eqb r half && N.odd q))%bool then q + 1 else q)%N e.

(** The number with the fewest significant digits that is read back as
    the double [x]: of the multiples of [scale] next to [x], the nearer
    one that is read back as [x], and the one with the even last digit
    when they are equally near; with none, the search goes on with a
    tenth of the scale. *)
Fixpoint shortest (fuel : nat) (x scale : N) : N :=
  match fuel with
  | O => x
  | S f =>
      let lo := (x / scale * scale)%N in
      let hi := (lo + scale)%N in
      let ok_lo := N.eqb (nearest lo) x in
      let ok_hi := N.eqb (nearest hi) x in
      if (ok_lo && ok_hi)%bool then
        (if N.ltb (x - lo) (hi - x) then lo
         else if N.ltb (hi - x) (x - lo) then hi
         else if N.even (x / scale) then lo else hi)
      else if ok_lo then lo
      else if ok_hi then hi
      else shortest f x (scale / 10)
  end.

Fixpoint strip_zeros (rev_digits : jsstring) : jsstring :=
  match rev_digits with
  | 48%N :: r => strip_zeros r
  | _ => rev_digits
  end.

(** [Number::toString] of a double [x] that is a natural number: the
    digits of the shortest number read back as [x], written out when
    they are 21 at most, and with an exponent otherwise. *)
Definition double_text (x : N) : jsstring :=
  if N.leb (2 ^ 1024) x then str "Infinity"
  else
    let n := List.length (of_N x) in
    let v := if N.ltb x (2 ^ 53) then x
             else shortest n x (10 ^ N.of_nat (n - 1)) in
    let ds := of_N v in
    if Nat.leb (List.length ds) 21 then ds
    else
      let s := rev (strip_zeros (rev ds)) in
      firstn 1 s ++ (match skipn 1 s with [] => [] | r => 46%N :: r end)
      ++ str "e+" ++ of_nat (List.length ds - 1).

(** [String(z)] for the number that the integer numeral [z] denotes. *)
Definition number_text (z : Z) : jsstring :=
  match z with
  | Z0 => [48%N]
  | Zpos p => double_text (nearest (Npos p))
  | Zneg p => 45%N :: double_text (nearest (Npos p))
  end.

End JsString.
Import JsString.

(* ================================================================== *)
(** ** Regular expressions

    The regular-expression literals of the source are values of [re];
    [run] is a backtracking matcher in continuation-passing style.  A
    continuation receives the index reached, the rest of the input and
    the captures so far, and answers with the end of the whole match. *)

Module Regex.

Inductive re : Type :=
| Chr (p : N -> bool)        (* a literal or a character class *)
| Eps
| Seq (a b : re)
| Alt (a b : re)             (* ordered: [a] is tried first *)
| Star (a : re)              (* greedy *)
| Grp (g : nat) (a : re)     (* capturing group number [g] *)
| Bol                        (* [^] without the m flag *)
| Eol.                       (* [$] without the m flag *)

Definition caps := list (nat * (nat * nat)).
Definition answer := option (nat * caps).
Definition kont := nat -> jsstring -> caps -> answer.

(** The rounds of a greedy star: [step] matches the starred expression
    once; a round has to consume input; when no further round leads
    to a match, the continuation is tried where the rounds stand. *)
Fixpoint star_loop (step : nat -> jsstring -> caps -> kont -> answer) (k : kont)
  (fuel : nat) (i : nat) (s : jsstring) (c : caps) {struct fuel} : answer :=
  match fuel with
  | O => k i s c
  | S f =>
      match step i s c (fun i' s' c' => if i <? i' then star_loop step k f i' s' c' else None) with
      | Some x => Some x
      | None => k i s c
      end
  end.

Fixpoint run (r : re) (i : nat) (s : jsstring) (c : caps) (k : kont) {struct r} : answer :=
  match r with
  | Chr p =>
      match s with
      | x :: s' => if p x then k (S i) s' c else None
      | [] => None
      end
  | Eps => k i s c
  | Seq a b => run a i s c (fun i' s' c' => run b i' s' c' k)
  | Alt a b =>
      match run a i s c k with
      | Some x => Some x
      | None => run b i s c k
      end
  | Star a => star_loop (run a) k (S (List.length s)) i s c
  | Grp g a => run a i s c (fun i' s' c' => k i' s' ((g, (i, i')) :: c'))
  | Bol => if i =? 0 then k i s c else None
  | Eol => match s with [] => k i s c | _ :: _ => None end
  end.

Definition Plus (a : re) : re := Seq a (Star a).
Definition Lit (c : N) : re := Chr (N.eqb c).
Definition Not (p : N -> bool) : re := Chr (fun c => negb (p c)).

Fixpoint Seqs (l : list re) : re :=
  match l with
  | [] => Eps
  | [a] => a
  | a :: r => Seq a (Seqs r)
  end.

Fixpoint Alts (l : list re) : re :=
  match l with
  | [] => Eps
  | [a] => a
  | a :: r => Alt a (Alts r)
  end.

(** A match: start index, end index, captures. *)
Definition found := (nat * nat * caps)%type.

(** Leftmost match at or after index [i], where [s] is the input from
    [i] on. *)
Fixpoint search (r : re) (i : nat) (s : jsstring) : option found :=
  match run r i s [] (fun e _ c => Some (e, c)) with
  | Some (e, c) => Some (i, e, c)
  | None =>
      match s with
      | [] => None
      | _ :: s' => search r (S i) s'
      end
  end.

(** [re.exec(w)] / [w.match(re)] without the g flag. *)
Definition exec (r : re) (w : jsstring) : option found := search r 0 w.

(** [re.test(w)] *)
Definition test (r : re) (w : jsstring) : bool :=
  match exec r w with Some _ => true | None => false end.

(** The text of capture [g] of a match on [w]; [None] is [undefined]. *)
Fixpoint cap_span (g : nat) (c : caps) : option (nat * nat) :=
  match c with
  | [] => None
  | (g', se) :: r => if g =? g' then Some se else cap_span g r
  end.

Definition group (w : jsstring) (m : found) (g : nat) : option jsstring :=
  match g with
  | O => let '(st, e, _) := m in Some (substring st e w)
  | _ => let '(_, _, c) := m in
         match cap_span g c with
         | Some (a, b) => Some (substring a b w)
         | None => None
         end
  end.

(** All matches with the g flag, as spans: after a match the search
    resumes at its end, one further on when the match was empty, and
    it is over when that is past the end of the input. *)
Fixpoint spans_from (fuel : nat) (r : re) (i : nat) (s : jsstring) : list (nat * nat) :=
  match fuel with
  | O => []
  | S f =>
      match search r i s with
      | None => []
      | Some (st, e, _) =>
          if e =? st
          then match skipn (e - i) s with
               | [] => [(st, e)]
               | _ :: rest => (st, e) :: spans_from f r (S e) rest
               end
          else (st, e) :: spans_from f r e (skipn (e - i) s)
      end
  end.

Definition spans (r : re) (w : jsstring) : list (nat * nat) :=
  spans_from (S (length w)) r 0 w.

(** [w.match(re)] with the g flag ([[]] stands for the [null] that the
    source always replaces by an empty array, where it does). *)
Definition match_all (r : re) (w : jsstring) : list jsstring :=
  List.map (fun se => substring (fst se) (snd se) w) (spans r w).

(** [w.replace(re, f)] without the g flag: the leftmost match is replaced
    by [f] of the match. *)
Definition replace1 (r : re) (f : found -> jsstring) (w : jsstring) : jsstring :=
  match exec r w with
  | None => w
  | Some m => let '(st, e, _) := m in firstn st w ++ f m ++ skipn e w
  end.

End Regex.
Import Regex.

(* ================================================================== *)
(** ** JavaScript values, objects and exceptions *)

Module Js.

(** The exceptions of the source, and [Exotic], which is none of them:
    a call ends with [Throw Exotic] where the source goes on outside
    the conventions of the model (see the head of the file). *)
Inductive exn := SyntaxError | TypeError | Exotic.

Inductive result (A : Type) : Type :=
| Ok (a : A)
| Throw (e : exn).
Arguments Ok {A} a.
Arguments Throw {A} e.

Definition bind {A B} (r : result A) (f : A -> result B) : result B :=
  match r with
  | Ok a => f a
  | Throw e => Throw e
  end.

(** [l.map(f)], for an [f] that may throw. *)
Fixpoint mapM {A B} (f : A -> result B) (l : list A) : result (list B) :=
  match l with
  | [] => Ok []
  | a :: r => bind (f a) (fun b => bind (mapM f r) (fun bs => Ok (b :: bs)))
  end.

(** A value as [JSON.parse] yields it.  The numbers of the model are
    those of the integer numerals: [JNum z] is the double nearest to
    [z]. *)
Inductive JSON : Type :=
| JNull
| JBool (b : bool)
| JNum (z : Z)
| JStr (s : jsstring)
| JArr (l : list JSON)
| JObj (l : list (jsstring * JSON)).

(** A property that may be absent: [None] is [undefined]. *)
Abbreviation any := (option JSON) (only parsing).

(** ToBoolean *)
Definition truthy (v : JSON) : bool :=
  match v with
  | JNull => false
  | JBool b => b
  | JNum z => negb (Z.eqb z 0)
  | JStr s => match s with [] => false | _ => true end
  | JArr _ | JObj _ => true
  end.

Definition truthy_any (v : any) : bool :=
  match v with Some j => truthy j | None => false end.

Definition is_some {A} (o : option A) : bool :=
  match o with Some _ => true | None => false end.

(** The text of a value that ToString converts: an array is the join
    by [,] of its elements with [null] as the empty string, and any
    other object is [[object Object]]. *)
Fixpoint text_of (v : JSON) : jsstring :=
  match v with
  | JNull => str "null"
  | JBool true => str "true"
  | JBool false => str "false"
  | JNum z => number_text z
  | JStr s => s
  | JArr l =>
      join (str ",")
        (List.map (fun e => match e with JNull => [] | _ => text_of e end) l)
  | JObj _ => str "[object Object]"
  end.

(** The values that ToString does not convert: an object with a member
    [toString] of its own, which is no function in a parsed value (the
    inherited [valueOf] then answers with the object itself), and an
    array that holds such a value. *)
Fixpoint unprintable (v : JSON) : bool :=
  match v with
  | JObj l =>
      (fix member (l : list (jsstring * JSON)) : bool :=
         match l with
         | [] => false
         | (k, _) :: r => (eqb k (str "toString") || member r)%bool
         end) l
  | JArr l => existsb unprintable l
  | _ => false
  end.

(** [String(v)], and likewise [`${v}`] and [v + '\n']. *)
Definition String_ (v : JSON) : result jsstring :=
  if unprintable v then Throw TypeError else Ok (text_of v).

(** *** Objects used as dictionaries

    Own properties in enumeration order: array-index keys first, in
    ascending order, then the other keys in the order of their
    creation.  Assigning to an existing key keeps its place. *)

Abbreviation obj V := (list (list N * V)) (only parsing).

Fixpoint oget {V} (o : obj V) (k : jsstring) : option V :=
  match o with
  | [] => None
  | (k', v) :: r => if eqb k k' then Some v else oget r k
  end.

Fixpoint digits_value (s : jsstring) (acc : N) : option N :=
  match s with
  | [] => Some acc
  | c :: r => if is_digit c then digits_value r (acc * 10 + (c - 48))%N else None
  end.

(** The array index a key denotes, if it is a canonical one. *)
Definition index_of (k : jsstring) : option N :=
  match k with
  | [] => None
  | [48%N] => Some 0%N
  | 48%N :: _ => None
  | _ =>
      if Nat.leb (List.length k) 10 then
        match digits_value k 0 with
        | Some n => if N.ltb n 4294967295 then Some n else None
        | None => None
        end
      else None
  end.

Fixpoint oappend {V} (o : obj V) (k : jsstring) (v : V) : obj V :=
  match o with
  | [] => [(k, v)]
  | e :: r => e :: oappend r k v
  end.

Fixpoint oinsert_index {V} (o : obj V) (n : N) (k : jsstring) (v : V) : obj V :=
  match o with
  | [] => [(k, v)]
  | (k', v') :: r =>
      match index_of k' with
      | Some n' => if N.ltb n' n then (k', v') :: oinsert_index r n k v
                   else (k, v) :: (k', v') :: r
      | None => (k, v) :: (k', v') :: r
      end
  end.

Fixpoint oreplace {V} (o : obj V) (k : jsstring) (v : V) : obj V :=
  match o with
  | [] => []
  | (k', v') :: r => if eqb k k' then (k', v) :: r else (k', v') :: oreplace r k v
  end.

(** [o[k] = v] *)
Definition oset {V} (o : obj V) (k : jsstring) (v : V) : obj V :=
  match oget o k with
  | Some _ => oreplace o k v
  | None =>
      match index_of k with
      | Some n => oinsert_index o n k v
      | None => oappend o k v
      end
  end.

Definition okeys {V} (o : obj V) : list jsstring := List.map fst o.

(** *** Members inherited from [Object.prototype]

    A dictionary is made by [{}]: under the names below it has, when
    it has no entry of that name, the member that [Object.prototype]
    brings, which is a function of the host, and [Object.prototype]
    itself under [__proto__].  All of them are truthy. *)
Definition proto_key : jsstring := str "__proto__".

Definition inherited_names : list jsstring :=
  [str "constructor"; proto_key; str "hasOwnProperty"; str "isPrototypeOf";
   str "propertyIsEnumerable"; str "toLocaleString"; str "toString"; str "valueOf";
   str "__defineGetter__"; str "__defineSetter__"; str "__lookupGetter__";
   str "__lookupSetter__"].

Definition inherited (k : jsstring) : bool := existsb (eqb k) inherited_names.

(** What [o[k]] finds: an entry, an inherited member, or nothing
    ([undefined]). *)
Inductive lookup (V : Type) : Type :=
| Found (v : V)
| Builtin
| Absent.
Arguments Found {V} v.
Arguments Builtin {V}.
Arguments Absent {V}.

Definition oread {V} (o : obj V) (k : jsstring) : lookup V :=
  match oget o k with
  | Some v => Found v
  | None => if inherited k then Builtin else Absent
  end.

(** Whether [o[k]] is truthy, for a dictionary whose entries are
    objects. *)
Definition has {V} (o : obj V) (k : jsstring) : bool :=
  match oread o k with
  | Absent => false
  | _ => true
  end.

(** The property [name] of the member inherited under [k]: the name
    of the function, which is [Object] for the constructor;
    [Object.prototype] has none. *)
Definition member_name (k : jsstring) : jsstring :=
  if eqb k proto_key then str "undefined"
  else if eqb k (str "constructor") then str "Object"
  else k.


(** The enumerable own properties of a parsed value, as [for ... in] and
    [Object.keys] list them: the members of an object, the indices of an
    array or of a string, nothing for the other values. *)
Fixpoint indexed {A} (i : nat) (l : list A) : list (jsstring * A) :=
  match l with
  | [] => []
  | a :: r => (of_nat i, a) :: indexed (S i) r
  end.

Definition own_entries (v : JSON) : list (jsstring * JSON) :=
  match v with
  | JObj l => l
  | JArr l => indexed 0 l
  | JStr s => indexed 0 (List.map (fun c => JStr [c]) s)
  | _ => []
  end.

(** [v[name]] of a parsed value that is not [null]. *)
Definition prop (v : JSON) (name : jsstring) : any := oget (own_entries v) name.

(** [v.map(w => w.toLowerCase())]: [v] has to be an array, and each
    element a string. *)
Fixpoint lower_each (l : list JSON) : result (list jsstring) :=
  match l with
  | [] => Ok []
  | JStr s :: r => bind (lower_each r) (fun r' => Ok (toLowerCase s :: r'))
  | _ :: _ => Throw TypeError
  end.

Definition map_toLowerCase (v : JSON) : result (list jsstring) :=
  match v with
  | JArr l => lower_each l
  | _ => Throw TypeError
  end.

(** [Array.prototype.sort] with a comparator, as a stable insertion
    sort; [le x y] says that the comparator does not put [y] before [x]
    ([cmp(x, y) <= 0]). *)
Section Sort.
Variable A : Type.
Variable le : A -> A -> bool.

Fixpoint insert (x : A) (l : list A) : list A :=
  match l with
  | [] => [x]
  | y :: r => if le x y then x :: y :: r else y :: insert x r
  end.

Fixpoint sort (l : list A) : list A :=
  match l with
  | [] => []
  | x :: r => insert x (sort r)
  end.
End Sort.

End Js.
Import Js.

(* ================================================================== *)
(** ** The vocabulary store *)

(** [enum VAToken] *)
Inductive VAToken :=
| Empty | Section_ | Operator | Comment | Multiline | Instruction | Parameter_.

(** [interface VAIndent]; the indentation is a number that may be
    [NaN], which is [None]. *)
Record VAIndent := { token : VAToken; indent : option nat }.

(** An entry of [steps], as [setStepList] builds it and
    [updateStepLabels] completes it. *)
Record Step := {
  head : list jsstring;
  body : list jsstring;
  documentation : any;
  insertText : jsstring;
  sortText : any;
  section : any;
  kind : any;
  label : option jsstring;
  keyword : option jsstring;
}.

(** An entry of [variables]. *)
Record Variable_ := { name : jsstring; value : jsstring }.

(** The patterns of [KeywordMatcher] ([./matcher], which is not part of
    the sources at hand), by what the provider asks of them:
    [reg.section[name].test(text)] for the declared names in their
    order, [reg.step] and [reg.import] as matchers of a line, the latter
    yielding the text its added group [(.+)] captures ([matches[3]]). *)
Record KeywordMatcher := {
  reg_section : obj (jsstring -> bool);
  reg_step : jsstring -> bool;
  reg_import : jsstring -> option jsstring;
}.

(** A record of the link table ([getLinks], [setImports]). *)
Record Link := {
  lk_key : jsstring;
  lk_name : option jsstring;
  lk_file : option jsstring;
  lk_data : option (obj jsstring);
  lk_column : option jsstring;
  lk_table : option jsstring;
  lk_param : option jsstring;
}.

(** The fields of [VanessaGherkinProvider].  [tokenizer] counts the
    tokenization supports that [initTokenizer] has built. *)
Record Provider := {
  _soundHint : jsstring;
  _syntaxMsg : jsstring;
  _keywords : list (list jsstring);
  _metatags : list JSON;
  _keypairs : obj (list jsstring);
  _steps : obj Step;
  _elements : obj JSON;
  _variables : obj Variable_;
  _errorLinks : list JSON;
  _imports : obj (obj (obj Link));
  _matcher : option KeywordMatcher;
  tokenizer : nat;
}.

(** The provider as its field initialisers leave it. *)
Definition new_provider : Provider := {|
  _soundHint := str "Sound";
  _syntaxMsg := str "Syntax error";
  _keywords := [];
  _metatags := [JStr (str "try"); JStr (str "except");
                JStr [1087; 1086; 1087; 1099; 1090; 1082; 1072]%N;
                JStr [1080; 1089; 1082; 1083; 1102; 1095; 1077; 1085; 1080; 1077]%N];
  _keypairs := [];
  _steps := [];
  _elements := [];
  _variables := [];
  _errorLinks := [];
  _imports := [];
  _matcher := None;
  tokenizer := 0;
|}.

Definition with_keywords (p : Provider) (k : list (list jsstring)) : Provider :=
  {| _soundHint := _soundHint p; _syntaxMsg := _syntaxMsg p; _keywords := k;
     _metatags := _metatags p; _keypairs := _keypairs p; _steps := _steps p;
     _elements := _elements p; _variables := _variables p;
     _errorLinks := _errorLinks p; _imports := _imports p;
     _matcher := _matcher p; tokenizer := tokenizer p |}.

Definition with_metatags (p : Provider) (m : list JSON) : Provider :=
  {| _soundHint := _soundHint p; _syntaxMsg := _syntaxMsg p; _keywords := _keywords p;
     _metatags := m; _keypairs := _keypairs p; _steps := _steps p;
     _elements := _elements p; _variables := _variables p;
     _errorLinks := _errorLinks p; _imports := _imports p;
     _matcher := _matcher p; tokenizer := tokenizer p |}.

Definition with_keypairs (p : Provider) (k : obj (list jsstring)) : Provider :=
  {| _soundHint := _soundHint p; _syntaxMsg := _syntaxMsg p; _keywords := _keywords p;
     _metatags := _metatags p; _keypairs := k; _steps := _steps p;
     _elements := _elements p; _variables := _variables p;
     _errorLinks := _errorLinks p; _imports := _imports p;
     _matcher := _matcher p; tokenizer := tokenizer p |}.

Definition with_steps (p : Provider) (s : obj Step) : Provider :=
  {| _soundHint := _soundHint p; _syntaxMsg := _syntaxMsg p; _keywords := _keywords p;
     _metatags := _metatags p; _keypairs := _keypairs p; _steps := s;
     _elements := _elements p; _variables := _variables p;
     _errorLinks := _errorLinks p; _imports := _imports p;
     _matcher := _matcher p; tokenizer := tokenizer p |}.

Definition with_elements (p : Provider) (e : obj JSON) : Provider :=
  {| _soundHint := _soundHint p; _syntaxMsg := _syntaxMsg p; _keywords := _keywords p;
     _metatags := _metatags p; _keypairs := _keypairs p; _steps := _steps p;
     _elements := e; _variables := _variables p;
     _errorLinks := _errorLinks p; _imports := _imports p;
     _matcher := _matcher p; tokenizer := tokenizer p |}.

Definition with_variables (p : Provider) (v : obj Variable_) : Provider :=
  {| _soundHint := _soundHint p; _syntaxMsg := _syntaxMsg p; _keywords := _keywords p;
     _metatags := _metatags p; _keypairs := _keypairs p; _steps := _steps p;
     _elements := _elements p; _variables := v;
     _errorLinks := _errorLinks p; _imports := _imports p;
     _matcher := _matcher p; tokenizer := tokenizer p |}.

Definition with_matcher (p : Provider) (m : option KeywordMatcher) : Provider :=
  {| _soundHint := _soundHint p; _syntaxMsg := _syntaxMsg p; _keywords := _keywords p;
     _metatags := _metatags p; _keypairs := _keypairs p; _steps := _steps p;
     _elements := _elements p; _variables := _variables p;
     _errorLinks := _errorLinks p; _imports := _imports p;
     _matcher := m; tokenizer := tokenizer p |}.

Definition with_syntaxMsg (p : Provider) (m : jsstring) : Provider :=
  {| _soundHint := _soundHint p; _syntaxMsg := m; _keywords := _keywords p;
     _metatags := _metatags p; _keypairs := _keypairs p; _steps := _steps p;
     _elements := _elements p; _variables := _variables p;
     _errorLinks := _errorLinks p; _imports := _imports p;
     _matcher := _matcher p; tokenizer := tokenizer p |}.

Definition with_errorLinks (p : Provider) (l : list JSON) : Provider :=
  {| _soundHint := _soundHint p; _syntaxMsg := _syntaxMsg p; _keywords := _keywords p;
     _metatags := _metatags p; _keypairs := _keypairs p; _steps := _steps p;
     _elements := _elements p; _variables := _variables p;
     _errorLinks := l; _imports := _imports p;
     _matcher := _matcher p; tokenizer := tokenizer p |}.

Definition with_soundHint (p : Provider) (h : jsstring) : Provider :=
  {| _soundHint := h; _syntaxMsg := _syntaxMsg p; _keywords := _keywords p;
     _metatags := _metatags p; _keypairs := _keypairs p; _steps := _steps p;
     _elements := _elements p; _variables := _variables p;
     _errorLinks := _errorLinks p; _imports := _imports p;
     _matcher := _matcher p; tokenizer := tokenizer p |}.

(** [initTokenizer]: the language is compiled again and a new
    tokenization support replaces the old one; the vocabulary is only
    read. *)
Definition initTokenizer (p : Provider) : Provider :=
  {| _soundHint := _soundHint p; _syntaxMsg := _syntaxMsg p; _keywords := _keywords p;
     _metatags := _metatags p; _keypairs := _keypairs p; _steps := _steps p;
     _elements := _elements p; _variables := _variables p;
     _errorLinks := _errorLinks p; _imports := _imports p;
     _matcher := _matcher p; tokenizer := S (tokenizer p) |}.

(* ------------------------------------------------------------------ *)
(** *** Regular expressions of the provider

    In the comments [\x22] stands for the double quote, and a pattern
    is broken by a blank between a star and a closing parenthesis. *)

Definition c_quote : N := 34.      (* [\x22] *)
Definition c_apos : N := 39.       (* ['] *)
Definition c_backslash : N := 92.
Definition c_lt : N := 60.
Definition c_gt : N := 62.
Definition c_hash : N := 35.
Definition c_pipe : N := 124.
Definition c_slash : N := 47.
Definition c_at : N := 64.
Definition c_star : N := 42.
Definition c_dollar : N := 36.
Definition c_eq : N := 61.

Definition one_of (l : list N) (c : N) : bool := existsb (N.eqb c) l.

(** [\x22[^\x22\\]*(?:\\.[^\x22\\]* )*\x22] for the quote [q] *)
Definition quoted_re (q : N) : re :=
  Seqs [Lit q; Star (Not (one_of [q; c_backslash]));
        Star (Seqs [Lit c_backslash; Chr is_dot; Star (Not (one_of [q; c_backslash]))]);
        Lit q].

(** [/\x22[^\x22\\]*(?:\\.[^\x22\\]* )*\x22|'[^'\\]*(?:\\.[^'\\]* )*'|<[^>]*>|[A-zА-яЁё]+|[^A-zА-яЁё\s]+/g] *)
Definition splitWords_re : re :=
  Alts [ quoted_re c_quote;
         quoted_re c_apos;
         Seqs [Lit c_lt; Star (Not (one_of [c_gt])); Lit c_gt];
         Plus (Chr is_letter);
         Plus (Not (fun c => is_letter c || is_space c)%bool) ].

(** [/^[\s]*[#|//]/]: the class holds the three characters [#], [|]
    and [/]. *)
Definition comment_class_re : re :=
  Seqs [Bol; Star (Chr is_space); Chr (one_of [c_hash; c_pipe; c_slash; c_slash])].

(** [/^[A-zА-яЁё]+$/] *)
Definition word_re : re := Seqs [Bol; Plus (Chr is_letter); Eol].

(** [/^\x22[^\x22]*\x22$|^'[^']*'$|^<[^<]*>$/] *)
Definition param_re : re :=
  Alts [ Seqs [Bol; Lit c_quote; Star (Not (one_of [c_quote])); Lit c_quote; Eol];
         Seqs [Bol; Lit c_apos; Star (Not (one_of [c_apos])); Lit c_apos; Eol];
         Seqs [Bol; Lit c_lt; Star (Not (one_of [c_lt])); Lit c_gt; Eol] ].

(** [/^[\x22'](.* )[\x22']$/] *)
Definition trimQuotes_re : re :=
  Seqs [Bol; Chr (one_of [c_quote; c_apos]); Grp 1 (Star (Chr is_dot));
        Chr (one_of [c_quote; c_apos]); Eol].

(** [function trimQuotes(w)]: [w.replace(/^[\x22'](.* )[\x22']$/, '$1')] *)
Definition trimQuotes (w : jsstring) : jsstring :=
  replace1 trimQuotes_re
    (fun m => match group w m 1 with Some g => g | None => [] end) w.

(* ------------------------------------------------------------------ *)
(** *** Keywords, words and keys *)

(** [splitWords(line)] *)
Definition splitWords (line : jsstring) : list jsstring :=
  match_all splitWords_re line.

(** [item.every((w, i) => f(w, i))] *)
Fixpoint every_from {A} (f : A -> nat -> bool) (i : nat) (l : list A) : bool :=
  match l with
  | [] => true
  | a :: r => (f a i && every_from f (S i) r)%bool
  end.

(** [words[i] && w == words[i].toLowerCase()]: an absent word and the
    empty word are falsy. *)
Definition word_matches (words : list jsstring) (w : jsstring) (i : nat) : bool :=
  match nth_error words i with
  | Some x => (negb (eqb x []) && eqb w (toLowerCase x))%bool
  | None => false
  end.

(** [findKeyword(words)]: the first keyword, in the order of the list,
    of which every word matches. *)
Definition findKeyword (p : Provider) (words : list jsstring) : option (list jsstring) :=
  match words with
  | [] => None
  | _ => List.find (fun item => every_from (word_matches words) 0 item) (_keywords p)
  end.

(** The filter that [filterWords] and [lineSyntaxError] run over the
    words: those of the keyword are dropped, the others are kept up to
    the first that matches [/^[\s]*[#|//]/], after which the flag [s]
    is down and nothing is kept. *)
Fixpoint filter_from (kwlen : nat) (i : nat) (s : bool) (words : list jsstring)
  : list jsstring :=
  match words with
  | [] => []
  | w :: r =>
      if i <? kwlen then filter_from kwlen (S i) s r
      else if (s && negb (test comment_class_re w))%bool
           then w :: filter_from kwlen (S i) s r
           else filter_from kwlen (S i) false r
  end.

Definition keyword_length (k : option (list jsstring)) : nat :=
  match k with Some item => List.length item | None => 0 end.

(** [get singleWords()] *)
Definition singleWords (p : Provider) : list jsstring :=
  List.map (fun w => List.hd [] w)
    (List.filter (fun w => List.length w =? 1) (_keywords p)).

(** [filterWords(words)] *)
Definition filterWords (p : Provider) (words : list jsstring) : list jsstring :=
  filter_from (keyword_length (findKeyword p words)) 0 true words.

(** [key(words)] *)
Definition key (words : list jsstring) : jsstring :=
  join (str " ")
    (List.map toLowerCase (List.filter (test word_re) words)).

(* ------------------------------------------------------------------ *)
(** *** Methods that change the provider

    A method is a function from the provider to its outcome and the
    provider it leaves: what was assigned before an exception stays
    assigned. *)

Definition M (A : Type) : Type := Provider -> result A * Provider.

Definition ret {A} (a : A) : M A := fun p => (Ok a, p).

Definition bindM {A B} (c : M A) (k : A -> M B) : M B :=
  fun p =>
    match c p with
    | (Ok a, p') => k a p'
    | (Throw e, p') => (Throw e, p')
    end.

Definition lift {A} (r : result A) : M A := fun p => (r, p).
Definition gets {A} (f : Provider -> A) : M A := fun p => (Ok (f p), p).
Definition modify (f : Provider -> Provider) : M unit := fun p => (Ok tt, f p).

Notation "x <- c ;; k" := (bindM c (fun x => k))
  (at level 61, c at next level, right associativity).
Notation "c ;; k" := (bindM c (fun _ => k))
  (at level 61, right associativity).

(** [l.forEach(f)] *)
Fixpoint forEach {A} (l : list A) (f : A -> M unit) : M unit :=
  match l with
  | [] => ret tt
  | a :: r => f a ;; forEach r f
  end.

(** [clearArray(target)], [clearObject(target)] *)
Definition clearArray {A} (target : list A) : list A := [].
Definition clearObject {V} (target : obj V) : obj V := [].

(** The substitution of [updateStepLabels] for one word of a head: a
    word that [param_re] matches and whose content names a truthy
    element becomes that element between the same delimiters.  Under
    an inherited name the element is an object of the host, and its
    text that of the host. *)
Definition element_word (p : Provider) (word : jsstring) : result jsstring :=
  if negb (test param_re word) then Ok word
  else
    let name := toLowerCase (substring 1 (List.length word - 1) word) in
    match oread (_elements p) name with
    | Absent => Ok word
    | Builtin => Throw Exotic
    | Found elem =>
        if negb (truthy elem) then Ok word
        else bind (String_ elem) (fun text =>
               Ok (firstn 1 word ++ text ++ skipn (List.length word - 1) word))
    end.

(** [words.filter((w, i) => keep(i))] *)
Fixpoint filter_index {A} (keep : nat -> bool) (i : nat) (l : list A) : list A :=
  match l with
  | [] => []
  | a :: r => if keep i then a :: filter_index keep (S i) r
              else filter_index keep (S i) r
  end.

(** The body of the loop of [updateStepLabels], for the entry [e]. *)
Definition updateStepLabel (p : Provider) (e : Step) : result Step :=
  bind (mapM (element_word p) (head e)) (fun words =>
    let n := keyword_length (findKeyword p words) in
    let label_ := join (str " ") (filter_index (fun i => negb (i <? n)) 0 words) in
    let keyword_ := join (str " ") (filter_index (fun i => i <? n) 0 words) in
    Ok {| head := head e; body := body e; documentation := documentation e;
          insertText :=
            label_ ++ (match body e with
                       | [] => []
                       | _ => 10%N :: join [10%N] (body e)
                       end);
          sortText := sortText e; section := section e; kind := kind e;
          label := Some label_; keyword := Some keyword_ |}).

(** The loop over the entries: those before the one at which a
    conversion throws have their labels, the others are as they
    were. *)
Fixpoint updateEntries (p : Provider) (steps : obj Step) : result unit * obj Step :=
  match steps with
  | [] => (Ok tt, [])
  | (k, e) :: rest =>
      match updateStepLabel p e with
      | Ok e' => let r := updateEntries p rest in (fst r, (k, e') :: snd r)
      | Throw x => (Throw x, steps)
      end
  end.

(** [updateStepLabels()] *)
Definition updateStepLabels : M unit :=
  fun p => let r := updateEntries p (_steps p) in (fst r, with_steps p (snd r)).

(** [this.variables[key.toLowerCase()] = { name: key, value: String(obj[key]) }],
    for the member [kv] of the payload: the value is converted before
    the assignment, which replaces the prototype of [variables] when
    the key is [__proto__]. *)
Definition registerVariable (kv : jsstring * JSON) : M unit :=
  text <- lift (String_ (snd kv)) ;;
  if eqb (toLowerCase (fst kv)) proto_key then lift (Throw Exotic)
  else
    modify (fun p =>
      with_variables p
        (oset (_variables p) (toLowerCase (fst kv)) {| name := fst kv; value := text |})).

Section Setters.

(** [JSON.parse] of the host: [None] when it throws a SyntaxError. *)
Variable JSON_parse : jsstring -> option JSON.

Definition parse (arg : jsstring) : M JSON :=
  lift (match JSON_parse arg with Some v => Ok v | None => Throw SyntaxError end).

(** [setKeywords(arg)] *)
Definition setKeywords (arg : jsstring) : M unit :=
  modify (fun p => with_keywords p (clearArray (_keywords p))) ;;
  v <- parse arg ;;
  list <- lift (map_toLowerCase v) ;;
  modify (fun p => with_keywords p (_keywords p ++ List.map (split 32) list)) ;;
  modify (fun p => with_keywords p
            (sort (fun a b => List.length b <=? List.length a) (_keywords p))) ;;
  modify initTokenizer.

(** [setKeypairs(arg)]; the list assigned to the key [__proto__] would
    be the new prototype of [keypairs]. *)
Definition setKeypairs (arg : jsstring) : M unit :=
  pairs <- parse arg ;;
  modify (fun p => with_keypairs p (clearObject (_keypairs p))) ;;
  keys <- lift (match pairs with
                | JNull => Throw TypeError
                | _ => Ok (own_entries pairs)
                end) ;;
  forEach keys (fun kv =>
    list <- lift (map_toLowerCase (snd kv)) ;;
    if eqb (toLowerCase (fst kv)) proto_key then lift (Throw Exotic)
    else modify (fun p => with_keypairs p (oset (_keypairs p) (toLowerCase (fst kv)) list))).

(** [setMetatags(arg)] *)
Definition setMetatags (arg : jsstring) : M unit :=
  list <- parse arg ;;
  modify (fun p => with_metatags p (clearArray (_metatags p))) ;;
  items <- lift (match list with JArr l => Ok l | _ => Throw TypeError end) ;;
  forEach items (fun w => modify (fun p => with_metatags p (_metatags p ++ [w]))) ;;
  modify initTokenizer.

(** [setErrorLinks(arg)] *)
Definition setErrorLinks (arg : jsstring) : M unit :=
  commands <- parse arg ;;
  modify (fun p => with_errorLinks p (clearArray (_errorLinks p))) ;;
  items <- lift (match commands with JArr l => Ok l | _ => Throw TypeError end) ;;
  forEach items (fun e => modify (fun p => with_errorLinks p (_errorLinks p ++ [e]))).

(** [setSoundHint(arg)] *)
Definition setSoundHint (arg : jsstring) : M unit :=
  modify (fun p => with_soundHint p arg).

(** [setElements(values, clear)]; an assignment to the key [__proto__]
    does nothing when the value is no object and not [null], and
    replaces the prototype of [elements] otherwise. *)
Definition setElements (values : jsstring) (clear : bool) : M unit :=
  (if clear then modify (fun p => with_elements p (clearObject (_elements p)))
   else ret tt) ;;
  o <- parse values ;;
  forEach (own_entries o) (fun kv =>
    if eqb (toLowerCase (fst kv)) proto_key
    then match snd kv with
         | JNull | JArr _ | JObj _ => lift (Throw Exotic)
         | _ => ret tt
         end
    else
      modify (fun p =>
        with_elements p (oset (_elements p) (toLowerCase (fst kv)) (snd kv)))) ;;
  updateStepLabels.

(** [setVariables(values, clear)] *)
Definition setVariables (values : jsstring) (clear : bool) : M unit :=
  (if clear then modify (fun p => with_variables p (clearObject (_variables p)))
   else ret tt) ;;
  o <- parse values ;;
  forEach (own_entries o) registerVariable ;;
  updateStepLabels.

(** One element of the list given to [setStepList]: [e.insertText]
    has to be a string.  The entry assigned to the key [__proto__]
    would be the new prototype of [steps]. *)
Definition addStep (e : JSON) : M unit :=
  text <- lift (match e with
                | JNull => Throw TypeError
                | _ => match prop e (str "insertText") with
                       | Some (JStr s) => Ok s
                       | _ => Throw TypeError
                       end
                end) ;;
  let lines := split 10 text in
  let head_ := splitWords (List.hd [] lines) in
  key_ <- gets (fun p => key (filterWords p head_)) ;;
  if eqb key_ proto_key then lift (Throw Exotic)
  else
    modify (fun p =>
      with_steps p
        (oset (_steps p) key_
           {| head := head_; body := List.tl lines;
              documentation := prop e (str "documentation");
              insertText := text;
              sortText := prop e (str "sortText");
              section := prop e (str "section");
              kind := prop e (str "kind");
              label := None; keyword := None |})).

(** [setStepList(list, clear)]; the closing
    [VanessaEditor.checkAllSyntax()] works on the editors of the host
    and leaves the provider as it is. *)
Definition setStepList (list : jsstring) (clear : bool) : M unit :=
  (if clear then modify (fun p => with_steps p (clearObject (_steps p)))
   else ret tt) ;;
  v <- parse list ;;
  items <- lift (match v with JArr l => Ok l | _ => Throw TypeError end) ;;
  forEach items addStep ;;
  updateStepLabels.

(** [setSyntaxMsg(message)], [getSyntaxMsg()] *)
Definition setSyntaxMsg (message : jsstring) : M unit :=
  modify (fun p => with_syntaxMsg p message).

Definition getSyntaxMsg : M jsstring := gets _syntaxMsg.

End Setters.

(* ================================================================== *)
(** ** The editor's side: ranges, markers and text models *)

Record IRange := {
  startLineNumber : nat;
  startColumn : nat;
  endLineNumber : nat;
  endColumn : nat;
}.

Record Position := { lineNumber : nat; column : nat }.

Inductive MarkerSeverity := SevHint | SevInfo | SevWarning | SevError.

Record IMarkerData := {
  severity : MarkerSeverity;
  message : jsstring;
  m_startLineNumber : nat;
  m_startColumn : nat;
  m_endLineNumber : nat;
  m_endColumn : nat;
}.

(** [monaco.editor.ITextModel], by the methods the provider calls.
    [findMatches] takes the regular expression itself where the source
    hands over its text ([regexp.source], with [isRegex] set), and
    yields the ranges of the matches. *)
Record ITextModel := {
  uri : jsstring;
  getModeId : jsstring;
  tabSize : nat;
  getLineCount : nat;
  getLineContent : nat -> jsstring;
  getValueInRange : IRange -> jsstring;
  getLineMinColumn : nat -> nat;
  getLineMaxColumn : nat -> nat;
  getLineFirstNonWhitespaceColumn : nat -> nat;
  getLineLastNonWhitespaceColumn : nat -> nat;
  findMatches : re -> IRange -> list IRange;
}.

(** The markers of the editor, by model and owner
    ([monaco.editor.setModelMarkers]). *)
Definition MarkerStore := list (jsstring * jsstring * list IMarkerData).

Fixpoint getModelMarkers (store : MarkerStore) (resource owner : jsstring)
  : list IMarkerData :=
  match store with
  | [] => []
  | (r, o, ms) :: rest =>
      if (eqb r resource && eqb o owner)%bool then ms
      else getModelMarkers rest resource owner
  end.

Definition setModelMarkers (store : MarkerStore) (model : ITextModel)
  (owner : jsstring) (markers : list IMarkerData) : MarkerStore :=
  (uri model, owner, markers)
  :: List.filter (fun e => negb (eqb (fst (fst e)) (uri model) && eqb (snd (fst e)) owner)%bool)
       store.

(* ================================================================== *)
(** ** Line classifier and folding engine *)

Definition space_star : re := Star (Chr is_space).

(** [/^\s*$/] *)
Definition blank_re : re := Seqs [Bol; space_star; Eol].
(** [/^[\s]*@/] *)
Definition instruction_re : re := Seqs [Bol; space_star; Lit c_at].
(** [/^[\s]*\|/] *)
Definition parameter_re : re := Seqs [Bol; space_star; Lit c_pipe].
(** [/^[\s]*\x22\x22\x22/] *)
Definition multiline_re : re :=
  Seqs [Bol; space_star; Lit c_quote; Lit c_quote; Lit c_quote].

(** [getToken(text)] *)
Definition getToken (text : jsstring) : VAToken :=
  if test blank_re text then Empty
  else if test instruction_re text then Instruction
  else if test parameter_re text then Parameter_
  else if test comment_class_re text then Comment
  else if test multiline_re text then Multiline
  else Operator.

(** [this.matcher]: reading a property of it throws when no matcher was
    set. *)
Definition matcher (p : Provider) : result KeywordMatcher :=
  match _matcher p with
  | Some m => Ok m
  | None => Throw TypeError
  end.

(** [isSection(text, name)]: [new RegExp(undefined)] matches every
    text. *)
Definition isSection (p : Provider) (text : jsstring) (name_ : jsstring) : result bool :=
  bind (matcher p) (fun m =>
    match oget (reg_section m) name_ with
    | Some t => Ok (t text)
    | None => Ok true
    end).

(** [getSection(text)]: the first declared name, the empty one apart,
    whose pattern matches; [None] is [undefined]. *)
Definition getSection (p : Provider) (text : jsstring) : result (option jsstring) :=
  bind (matcher p) (fun m =>
    Ok (List.hd_error
          (okeys (List.filter
                    (fun kv => (negb (eqb (fst kv) []) && snd kv text)%bool)
                    (reg_section m))))).

(** [a <= b] on numbers: false when one is [NaN]. *)
Definition num_le (a b : option nat) : bool :=
  match a, b with
  | Some x, Some y => x <=? y
  | _, _ => false
  end.

(** One round of the loop of [getIndent]: [indent % tabSize] is [NaN]
    for a tab width of zero, and [NaN] stays. *)
Definition indentStep (tabSize_ : nat) (indent_ : option nat) (c : N) : option nat :=
  match indent_ with
  | None => None
  | Some n =>
      if N.eqb c 9
      then (if tabSize_ =? 0 then None else Some (n + tabSize_ - (n mod tabSize_)))
      else Some (S n)
  end.

(** [getIndent(text, tabSize)], for a tab width that is a natural
    number; [text.search(/[^\s]/)] is [-1] on a blank text, and the
    loop then runs no round. *)
Definition getIndent (text : jsstring) (tabSize_ : nat) : option nat :=
  let length := match exec (Not is_space) text with
                | Some (st, _, _) => st
                | None => 0
                end in
  option_map S (List.fold_left (indentStep tabSize_) (firstn length text) (Some 0)).

Definition token_eqb (a b : VAToken) : bool :=
  match a, b with
  | Empty, Empty | Section_, Section_ | Operator, Operator | Comment, Comment
  | Multiline, Multiline | Instruction, Instruction | Parameter_, Parameter_ => true
  | _, _ => false
  end.

(** The first loop of [getCodeFolding]: one entry per line. *)
Fixpoint classifyLines (p : Provider) (tabSize_ : nat) (multiline : bool)
  (texts : list jsstring) : result (list VAIndent) :=
  match texts with
  | [] => Ok []
  | text :: rest =>
      let token0 := getToken text in
      let multiline' := if multiline
                        then (if token_eqb token0 Multiline then false else multiline)
                        else (if token_eqb token0 Multiline then true else multiline) in
      let token1 := if multiline then Multiline else token0 in
      bind (if negb (token_eqb token1 Operator)
            then Ok {| token := token1; indent := Some 0 |}
            else bind (isSection p text [])
                   (fun sec =>
                      if sec then Ok {| token := Section_; indent := Some 0 |}
                      else Ok {| token := token1; indent := getIndent text tabSize_ |}))
        (fun entry =>
           bind (classifyLines p tabSize_ multiline' rest)
             (fun entries => Ok (entry :: entries)))
  end.

(** [monaco.languages.FoldingRangeKind] *)
Inductive FoldingRangeKind := KindComment | KindImports | KindRegion.

Record FoldingRange := {
  fr_kind : option FoldingRangeKind;
  fr_start : nat;
  fr_end : nat;
}.

(** The inner loops of the second pass: [j] is the index of the first
    entry of [rest], [k] the end found so far. *)

(** [if (lines[j].token == t) k = j; else break;] *)
Fixpoint run_end (t : VAToken) (j k : nat) (rest : list VAIndent) : nat :=
  match rest with
  | [] => k
  | next :: r => if token_eqb (token next) t then run_end t (S j) j r else k
  end.

(** [if (lines[j].token == VAToken.Section) break; else k = j;] *)
Fixpoint section_end (j k : nat) (rest : list VAIndent) : nat :=
  match rest with
  | [] => k
  | next :: r => if token_eqb (token next) Section_ then k else section_end (S j) j r
  end.

(** The loop of [case VAToken.Operator], for a line of indentation [d]. *)
Fixpoint operator_end (d : option nat) (j k : nat) (rest : list VAIndent) : nat :=
  match rest with
  | [] => k
  | next :: r =>
      match token next with
      | Section_ => k
      | Empty => operator_end d (S j) k r
      | Comment => operator_end d (S j) j r
      | Multiline => operator_end d (S j) j r
      | Parameter_ => operator_end d (S j) j r
      | _ => if num_le (indent next) d then k else operator_end d (S j) j r
      end
  end.

Definition dummy_line : VAIndent := {| token := Empty; indent := Some 0 |}.

(** The [switch] of the second pass: the end [k] for the line [i]. *)
Definition fold_end (lines : list VAIndent) (i : nat) : nat :=
  let line := nth i lines dummy_line in
  let rest := skipn (S i) lines in
  match token line with
  | Instruction => run_end Instruction (S i) i rest
  | Comment => run_end Comment (S i) i rest
  | Section_ => section_end (S i) i rest
  | Operator => operator_end (indent line) (S i) i rest
  | _ => i
  end.

Definition fold_kind (t : VAToken) : option FoldingRangeKind :=
  match t with
  | Comment => Some KindComment
  | Section_ => Some KindRegion
  | _ => None
  end.

(** The second pass, from the line [i] on; a round leaves [i] at [k]
    after an Instruction or Comment line, and every round ends with
    [i++]. *)
Fixpoint foldingLoop (lines : list VAIndent) (lineCount : nat) (fuel : nat) (i : nat)
  : list FoldingRange :=
  match fuel with
  | O => []
  | S f =>
      if i <=? lineCount then
        let line := nth i lines dummy_line in
        let k := fold_end lines i in
        let emitted := if i <? k
                       then [{| fr_kind := fold_kind (token line); fr_start := i; fr_end := k |}]
                       else [] in
        let i' := match token line with
                  | Instruction | Comment => k
                  | _ => i
                  end in
        emitted ++ foldingLoop lines lineCount f (S i')
      else []
  end.

(** [getCodeFolding(tabSize, lineCount, getLineContent)] *)
Definition getCodeFolding (p : Provider) (tabSize_ lineCount : nat)
  (getLineContent_ : nat -> jsstring) : result (list FoldingRange) :=
  bind (classifyLines p tabSize_ false (List.map getLineContent_ (seq 1 lineCount)))
    (fun entries =>
       let lines := dummy_line :: entries in
       Ok (foldingLoop lines lineCount lineCount 1)).

(** [provideFoldingRanges(model, context, token)] *)
Definition provideFoldingRanges (p : Provider) (model : ITextModel)
  : result (list FoldingRange) :=
  getCodeFolding p (tabSize model) (getLineCount model) (getLineContent model).

(* ================================================================== *)
(** ** Syntax validator *)

(** [/^\s*\x22\x22\x22.*$/] *)
Definition multiline_line_re : re :=
  Seqs [Bol; space_star; Lit c_quote; Lit c_quote; Lit c_quote; Star (Chr is_dot); Eol].

(** [/^\s*(#|@|\/\/)/] *)
Definition skip_re : re :=
  Seqs [Bol; space_star;
        Grp 1 (Alts [Lit c_hash; Lit c_at; Seq (Lit c_slash) (Lit c_slash)])].

(** [lineSyntaxError(line, section)].  [this.steps[key]] is truthy for
    an entry and for an inherited member alike; an inherited member
    taken for the pair words of the keyword has no method [some]. *)
Definition lineSyntaxError (p : Provider) (line : jsstring) (section_ : option jsstring)
  : result bool :=
  bind (matcher p) (fun m =>
    if negb (reg_step m line) then Ok false
    else
      let words := splitWords line in
      match findKeyword p words with
      | None => Ok false
      | Some keyword_ =>
          let words := filter_from (List.length keyword_) 0 true words in
          let key_ := key words in
          if eqb key_ [] then Ok false
          else if has (_steps p) key_ then Ok false
          else
            let lastnum := List.length words - 1 in
            let step := filter_index (fun i => i <? lastnum) 0 words in
            match oread (_keypairs p) (join (str " ") keyword_) with
            | Absent => Ok true
            | Found keypair =>
                match nth_error words lastnum with
                | None => Throw TypeError
                | Some w =>
                    let lastword := toLowerCase w in
                    Ok (negb (has (_steps p) (key step)
                              && existsb (fun w => eqb w lastword) keypair))
                end
            | Builtin =>
                match nth_error words lastnum with
                | None => Throw TypeError
                | Some _ => if has (_steps p) (key step) then Throw TypeError else Ok true
                end
            end
      end).

(** The loop of [checkSyntax] over the line numbers [ls], with the
    flag, the section and the problems found so far. *)
Fixpoint checkLines (p : Provider) (model : ITextModel) (ls : list nat)
  (multiline : bool) (section_ : option jsstring) (problems : list IMarkerData)
  : result (list IMarkerData) :=
  match ls with
  | [] => Ok problems
  | lineNumber_ :: rest =>
      let line := getLineContent model lineNumber_ in
      if test multiline_line_re line
      then checkLines p model rest (negb multiline) section_ problems
      else if multiline then checkLines p model rest multiline section_ problems
      else if test skip_re line then checkLines p model rest multiline section_ problems
      else
        bind (isSection p line []) (fun sec =>
          if sec then
            bind (getSection p line) (fun s =>
              checkLines p model rest multiline s problems)
          else if match section_ with
                  | Some s => eqb s (str "feature")
                  | None => false
                  end
          then checkLines p model rest multiline section_ problems
          else
            bind (lineSyntaxError p line section_) (fun err =>
              checkLines p model rest multiline section_
                (if err
                 then problems ++
                      [{| severity := SevError;
                          message := _syntaxMsg p;
                          m_startLineNumber := lineNumber_;
                          m_startColumn := getLineFirstNonWhitespaceColumn model lineNumber_;
                          m_endLineNumber := lineNumber_;
                          m_endColumn := getLineLastNonWhitespaceColumn model lineNumber_ |}]
                 else problems)))
  end.

(** The problems [checkSyntax] computes for a model of the language. *)
Definition syntaxProblems (p : Provider) (model : ITextModel) : result (list IMarkerData) :=
  checkLines p model (seq 1 (getLineCount model)) false (Some []) [].

(** [checkSyntax(model)], as a change of the editor's markers. *)
Definition checkSyntax (p : Provider) (model : ITextModel) (store : MarkerStore)
  : result MarkerStore :=
  if negb (eqb (getModeId model) (str "turbo-gherkin")) then Ok store
  else
    bind (syntaxProblems p model) (fun problems =>
      Ok (setModelMarkers store model (str "syntax") problems)).

(* ================================================================== *)
(** ** Quick-fix engine *)

Record QuickFix := {
  qf_key : jsstring;
  qf_sum : Q;
  qf_error : IMarkerData;
  qf_range : IRange;
  qf_words : list jsstring;
}.

Record CodeAction := {
  title : jsstring;
  diagnostics : list IMarkerData;
  ca_kind : jsstring;
  edit_resource : jsstring;
  edit_range : IRange;
  edit_text : jsstring;
  isPreferred : bool;
}.

(** The double nearest to [0.7], as the rational it is. *)
Definition threshold : Q := 3152519739159347 # 4503599627370496.

(** [replaceParams(step, line)] *)
Fixpoint fill_params (step : list jsstring) (params : list jsstring) : list jsstring :=
  match step with
  | [] => []
  | w :: r =>
      if test param_re w then
        match params with
        | x :: params' => x :: fill_params r params'
        | [] => w :: fill_params r params
        end
      else w :: fill_params r params
  end.

Definition replaceParams (p : Provider) (step line : list jsstring) : jsstring :=
  let step := filterWords p step in
  let params := List.filter (test param_re) line in
  join (str " ") (fill_params step params).

(** The range [addQuickFix] reads: the lines of the diagnostic, from
    the first column to its end column. *)
Definition errorRange (error : IMarkerData) : IRange :=
  {| startLineNumber := m_startLineNumber error;
     endLineNumber := m_endLineNumber error;
     startColumn := 1;
     endColumn := m_endColumn error |}.

Section QuickFixEngine.

(** [distance] of the package [jaro-winkler]; its scores are doubles,
    read as the rationals they are. *)
Variable distance : jsstring -> jsstring -> Q.

(** [new RegExp(source)] of the host; [None] when it throws a
    SyntaxError. *)
Variable RegExp_new : jsstring -> option re.

(** [addQuickFix(model, list, error)] *)
Definition addQuickFix (p : Provider) (model : ITextModel) (list_ : list QuickFix)
  (error : IMarkerData) : result (list QuickFix) :=
  let range := errorRange error in
  let value_ := getValueInRange model range in
  let words := splitWords value_ in
  match findKeyword p words with
  | None => Ok list_
  | Some keyword_ =>
      let regexp := List.fold_left (fun acc w => acc ++ w ++ str "[\s]+") keyword_
                      (str "^[\s]*") in
      match RegExp_new regexp with
      | None => Throw SyntaxError
      | Some r =>
          let range :=
            match exec r (toLowerCase value_) with
            | Some (st, e, _) =>
                {| startLineNumber := startLineNumber range;
                   endLineNumber := endLineNumber range;
                   startColumn := (e - st) + 1;
                   endColumn := endColumn range |}
            | None => range
            end in
          let line := key (filterWords p words) in
          let list_ :=
            List.fold_left
              (fun list_ key_ =>
                 let sum := distance line key_ in
                 if negb (Qle_bool sum threshold)
                 then list_ ++ [{| qf_key := key_; qf_sum := sum; qf_error := error;
                                  qf_range := range; qf_words := words |}]
                 else list_)
              (okeys (_steps p)) list_ in
          Ok (sort (fun a b => Qle_bool (qf_sum b) (qf_sum a)) list_)
      end
  end.

(** [markers.forEach(e => this.addQuickFix(model, list, e))] *)
Fixpoint addQuickFixes (p : Provider) (model : ITextModel) (list_ : list QuickFix)
  (markers : list IMarkerData) : result (list QuickFix) :=
  match markers with
  | [] => Ok list_
  | e :: rest => bind (addQuickFix p model list_ e) (fun list' =>
                   addQuickFixes p model list' rest)
  end.

(** The action built for one entry of the list. *)
Definition quickFixAction (p : Provider) (model : ITextModel) (e : QuickFix)
  : result CodeAction :=
  match oget (_steps p) (qf_key e) with
  | None => Throw TypeError
  | Some step =>
      let text := replaceParams p (head step) (qf_words e) in
      Ok {| title := text;
            diagnostics := [qf_error e];
            ca_kind := str "quickfix";
            edit_resource := uri model;
            edit_range := qf_range e;
            edit_text := text;
            isPreferred := true |}
  end.

(** [getQuickFix(model, markers)]: the entries of index above 6 are
    passed over. *)
Definition getQuickFix (p : Provider) (model : ITextModel) (markers : list IMarkerData)
  : result (list CodeAction) :=
  bind (addQuickFixes p model [] markers) (fun list_ =>
    mapM (quickFixAction p model) (filter_index (fun i => negb (6 <? i)) 0 list_)).

(** [provideCodeActions(model, range, context, token)]; [None] is
    [undefined]. *)
Definition provideCodeActions (p : Provider) (model : ITextModel)
  (markers : list IMarkerData) : result (option (list CodeAction)) :=
  match markers with
  | [] => Ok None
  | _ =>
      if forallb (fun e => match severity e with SevError => false | _ => true end) markers
      then Ok None
      else bind (getQuickFix p model markers) (fun a => Ok (Some a))
  end.

End QuickFixEngine.

(* ================================================================== *)
(** ** Completion engine *)

(** The kind of an item is a value: a member of the enumeration
    [monaco.languages.CompletionItemKind], which is a number, or
    whatever the payload of a step gave as its kind. *)
Abbreviation CompletionItemKind := JSON (only parsing).

Definition KindFunction : JSON := JNum 1.
Definition KindVariable : JSON := JNum 4.
Definition KindKeyword : JSON := JNum 17.

Record CompletionItem := {
  ci_label : any;
  ci_kind : CompletionItemKind;
  ci_detail : any;
  ci_documentation : any;
  ci_sortText : any;
  ci_insertText : jsstring;
  ci_filterText : option jsstring;
  ci_range : IRange;
}.

(** [monaco.languages.CompletionList] *)
Record CompletionList := { suggestions : list CompletionItem }.

(** [empty(position)] *)
Definition empty (position : Position) : CompletionList :=
  {| suggestions :=
       [{| ci_label := Some (JStr []);
           ci_kind := KindFunction;
           ci_detail := None; ci_documentation := None; ci_sortText := None;
           ci_insertText := [];
           ci_filterText := None;
           ci_range := {| startLineNumber := lineNumber position;
                          endLineNumber := lineNumber position;
                          startColumn := column position - 1;
                          endColumn := column position |} |}] |}.

(** [/\x22[^\x22]*\x22|'[^']*'|<[^\s\x22']*>/g] *)
Definition placeholder_re : re :=
  Alts [ Seqs [Lit c_quote; Star (Not (one_of [c_quote])); Lit c_quote];
         Seqs [Lit c_apos; Star (Not (one_of [c_apos])); Lit c_apos];
         Seqs [Lit c_lt;
               Star (Not (fun c => is_space c || one_of [c_quote; c_apos] c)%bool);
               Lit c_gt] ].

(** [/^.\$.+\$.$/] *)
Definition sigil_re : re :=
  Seqs [Bol; Chr is_dot; Lit c_dollar; Plus (Chr is_dot); Lit c_dollar; Chr is_dot; Eol].

(** [/[^\s]+/g] *)
Definition nonspace_re : re := Plus (Not is_space).

(** The range of the last match that holds the column; [None] is
    [undefined]. *)
Definition wordRange_of (words : list IRange) (position : Position) : option IRange :=
  List.fold_left
    (fun wordRange e =>
       if (startColumn e <=? column position) && (column position <=? endColumn e)
       then Some e else wordRange)%bool
    words None.

Definition charAt (s : jsstring) (i : nat) : jsstring := firstn 1 (skipn i s).

Definition variableItem (variable : jsstring) (wordRange : IRange) (item : Variable_)
  : CompletionItem :=
  let Q1 := charAt variable 0 in
  let Q2 := charAt variable (List.length variable - 1) in
  let S_ := if test sigil_re variable then [c_dollar] else [] in
  {| ci_label := Some (JStr ([c_quote] ++ S_ ++ name item ++ S_ ++ [c_quote]
                              ++ str " = " ++ value item));
     ci_kind := KindVariable;
     ci_detail := None; ci_documentation := None; ci_sortText := None;
     ci_insertText := Q1 ++ S_ ++ name item ++ S_ ++ Q2;
     ci_filterText := Some (variable ++ S_ ++ name item ++ S_);
     ci_range := wordRange |}.

(** [e.kind ? e.kind : monaco.languages.CompletionItemKind.Function] *)
Definition stepKind (e : Step) : CompletionItemKind :=
  match kind e with
  | Some v => if truthy v then v else KindFunction
  | None => KindFunction
  end.

Definition option_string (o : option jsstring) : jsstring :=
  match o with Some s => s | None => str "undefined" end.

Definition option_label (o : option jsstring) : any :=
  match o with Some s => Some (JStr s) | None => None end.

(** The items for the steps that have a documentation; [prefix e] is
    put before the insert text and [filter key] is the filter text. *)
Definition stepItems (p : Provider) (range : IRange)
  (prefix : Step -> jsstring) (filter : jsstring -> jsstring) : list CompletionItem :=
  List.flat_map
    (fun kv =>
       let e := snd kv in
       if truthy_any (documentation e)
       then [{| ci_label := option_label (label e);
                ci_kind := stepKind e;
                ci_detail := section e;
                ci_documentation := documentation e;
                ci_sortText := sortText e;
                ci_insertText := prefix e ++ str " " ++ insertText e ++ [10%N];
                ci_filterText := Some (filter (fst kv));
                ci_range := range |}]
       else [])
    (_steps p).

(** The range of the whole line of the position. *)
Definition lineRange (model : ITextModel) (position : Position) : IRange :=
  {| startLineNumber := lineNumber position;
     endLineNumber := lineNumber position;
     startColumn := getLineMinColumn model (lineNumber position);
     endColumn := getLineMaxColumn model (lineNumber position) |}.

(** The item of a metatag; [word + '\n'] converts the word. *)
Definition metatagItem (range : IRange) (word : JSON) : result CompletionItem :=
  bind (String_ word) (fun text =>
    Ok {| ci_label := Some word;
          ci_kind := KindKeyword;
          ci_detail := None; ci_documentation := None; ci_sortText := None;
          ci_insertText := text ++ [10%N];
          ci_filterText := None;
          ci_range := range |}).

(** [provideCompletionItems(model, position)] *)
Definition provideCompletionItems (p : Provider) (model : ITextModel) (position : Position)
  : result CompletionList :=
  let line := lineRange model position in
  let words := findMatches model placeholder_re line in
  match wordRange_of words position with
  | Some wordRange =>
      let variable := getValueInRange model wordRange in
      Ok {| suggestions :=
              List.map (fun kv => variableItem variable wordRange (snd kv)) (_variables p) |}
  | None =>
      let maxColumn := getLineLastNonWhitespaceColumn model (lineNumber position) in
      if (negb (maxColumn =? 0) && (column position <? maxColumn))%bool
      then Ok (empty position)
      else
        let minColumn := getLineFirstNonWhitespaceColumn model (lineNumber position) in
        let line := getLineContent model (lineNumber position) in
        let words := match_all nonspace_re line in
        let range := {| startLineNumber := lineNumber position;
                        endLineNumber := lineNumber position;
                        startColumn := if minColumn =? 0 then column position else minColumn;
                        endColumn := if maxColumn =? 0 then column position else maxColumn |} in
        match findKeyword p words with
        | Some keyword_ =>
            let keytext := join (str " ") keyword_ in
            let keytext := List.flat_map upper_unit (firstn 1 keytext) ++ skipn 1 keytext in
            Ok {| suggestions :=
                    stepItems p range (fun _ => keytext)
                      (fun key_ => keytext ++ str " " ++ key_) |}
        | None =>
            bind (mapM (metatagItem range) (_metatags p)) (fun items =>
              Ok {| suggestions :=
                      items
                      ++ stepItems p range (fun e => option_string (keyword e))
                           (fun key_ => key_) |})
        end
  end.

(* ================================================================== *)
(** ** Hover engine *)

Record Hover := { hv_range : IRange; contents : list jsstring }.

(** The class of [escapeMarkdown]: backslash, backtick, star,
    underscore, braces, brackets, parentheses, hash, plus, minus, dot
    and exclamation mark. *)
Definition markdown_class : N -> bool :=
  one_of [92; 96; 42; 95; 123; 125; 91; 93; 40; 41; 35; 43; 45; 46; 33]%N.

(** [escapeMarkdown(text)]: [text.replace] is there for a string only. *)
Definition escapeMarkdown (text : any) : result jsstring :=
  match text with
  | Some (JStr s) =>
      Ok (List.flat_map (fun c => if markdown_class c then [c_backslash; c] else [c]) s)
  | _ => Throw TypeError
  end.

(** [/^\s*\*/] *)
Definition sound_re : re := Seqs [Bol; space_star; Lit c_star].

(** [/\x22[^\x22]+\x22|'[^']+'/g] *)
Definition hover_vars_re : re :=
  Alts [ Seqs [Lit c_quote; Plus (Not (one_of [c_quote])); Lit c_quote];
         Seqs [Lit c_apos; Plus (Not (one_of [c_apos])); Lit c_apos] ].

(** The name a quoted part stands for: its content, without the inner
    pair of sigils when it has one. *)
Definition part_name (part : jsstring) : jsstring :=
  let d := if test sigil_re part then 2 else 1 in
  toLowerCase (substring d (List.length part - d) part).

(** The line of a hover for a variable. *)
Definition variableLine (v : Variable_) : jsstring :=
  str "**" ++ name v ++ str "** = " ++ value v.

(** The lines for the quoted parts of [line] that name a variable.
    Under an inherited name the variable is a function of the host, or
    [Object.prototype]: it has the name that [member_name] gives and no
    value. *)
Definition hoverVariables (p : Provider) (line : jsstring) : list jsstring :=
  List.flat_map
    (fun part =>
       match oread (_variables p) (part_name part) with
       | Found v => [variableLine v]
       | Builtin => [str "**" ++ member_name (part_name part) ++ str "** = undefined"]
       | Absent => []
       end)
    (match_all hover_vars_re line).

(** [s.replace(/ /g, with_)] *)
Definition replace_spaces (with_ : N) (s : jsstring) : jsstring :=
  List.map (fun c => if N.eqb c 32 then with_ else c) s.

(** [provideHover(model, position)]; a member that [steps] inherits
    under the key of the line is taken for a step, and has neither
    section nor documentation. *)
Definition provideHover (p : Provider) (model : ITextModel) (position : Position)
  : result Hover :=
  let line := getLineContent model (lineNumber position) in
  bind
    (match exec sound_re line with
     | Some (st, e, _) =>
         let head_ := _soundHint p in
         let char := [60277%N] in
         let href := str "#sound:" ++ of_nat (lineNumber position) in
         let text := skipn (e - st) line in
         bind (escapeMarkdown (Some (JStr text))) (fun escaped =>
           Ok [str "**" ++ head_ ++ str "** [" ++ char ++ str "](" ++ href ++ str ")";
               escaped])
     | None =>
         let words := splitWords line in
         let key_ := key (filterWords p words) in
         match oread (_steps p) key_ with
         | Absent => Ok []
         | Builtin => Throw TypeError
         | Found step =>
             let i := [60020%N] in
             let s := [60277%N] in
             bind (escapeMarkdown (section step)) (fun t =>
               let ih := str "#info:" ++ replace_spaces 45 key_ in
               let sh := str "#sound:" ++ of_nat (lineNumber position) in
               bind (escapeMarkdown (documentation step)) (fun doc =>
                 Ok ([str "**" ++ t ++ str "** [" ++ i ++ str "](" ++ ih ++ str ") ["
                        ++ s ++ str "](" ++ sh ++ str ")";
                      doc]
                     ++ hoverVariables p line)))
         end
     end)
    (fun contents_ =>
       Ok {| hv_range := lineRange model position; contents := contents_ |}).

(* ================================================================== *)
(** ** Link resolver

    The records and tables that an import directive takes over are, in
    the source, the very objects held by [_imports]; the model copies
    them.  A row written into an imported table ends the scan with
    [Throw Exotic]; what [getLinkData] writes into an imported record is
    in the value it returns, and is not followed into [_imports]. *)

(** [/^\s*\|/] is [parameter_re]. *)

(** The cells of a row:
    [/\x22(\\\|[^\x22])*\x22|'(\\'|[^'])*'|[^\s\|][^\|]*[^\s\|]|[^\s\|]/g].
    In the first alternative the group is the sequence of a backslash,
    a bar and a character that is no double quote; in the second it is
    the choice between a backslash with an apostrophe and a character
    that is no apostrophe. *)
Definition cell_re : re :=
  let plain := Not (fun c => is_space c || N.eqb c c_pipe)%bool in
  Alts [ Seqs [Lit c_quote;
               Star (Seqs [Lit c_backslash; Lit c_pipe; Not (one_of [c_quote])]);
               Lit c_quote];
         Seqs [Lit c_apos;
               Star (Alt (Seq (Lit c_backslash) (Lit c_apos)) (Not (one_of [c_apos])));
               Lit c_apos];
         Seqs [plain; Star (Not (one_of [c_pipe])); plain];
         plain ].

(** [/^\s*([A-zА-яЁё][0-9A-zА-яЁё]* )\s*=\s*(.* )\s*$/] *)
Definition assign_re : re :=
  Seqs [Bol; space_star;
        Grp 1 (Seq (Chr is_letter) (Star (Chr (fun c => is_digit c || is_letter c)%bool)));
        space_star; Lit c_eq; space_star;
        Grp 2 (Star (Chr is_dot)); space_star; Eol].

(** The state of the scan of a variables block. [multidata] is the
    place, in [links], of the record that the last assignment made, as
    long as that record is still there; [None] stands for an object
    that [links] does not hold.  [shared] lists the tables of [links]
    that are tables of [_imports], taken over by an import directive.

    In a table of [links], an entry under [__proto__] stands for the
    prototype that an assignment to this key has given the table: it
    is what a read of [__proto__] finds. *)
Record LinkScan := {
  tableName : jsstring;
  columns : option (list jsstring);
  links : obj (obj Link);
  multiline_ : bool;
  multitext : jsstring;
  multidata : option (jsstring * jsstring);
  shared : list jsstring;
}.

(** [o[k]] for [links] and its tables: what is no entry may be
    inherited, from [Object.prototype] or from the prototype that an
    assignment has set. *)
Definition tread {V} (o : obj V) (k : jsstring) : lookup V :=
  match oget o k with
  | Some v => Found v
  | None => if (inherited k || is_some (oget o proto_key))%bool then Builtin else Absent
  end.

Definition table_of (l : obj (obj Link)) (t : jsstring) : obj Link :=
  match oget l t with Some tb => tb | None => [] end.

(** [links[t][k] = r], after [if (links[t] == undefined) links[t] = {}] *)
Definition put_link (l : obj (obj Link)) (t k : jsstring) (r : Link) : obj (obj Link) :=
  oset l t (oset (table_of l t) k r).

Definition set_name (r : Link) (n : jsstring) : Link :=
  {| lk_key := lk_key r; lk_name := Some n; lk_file := lk_file r; lk_data := lk_data r;
     lk_column := lk_column r; lk_table := lk_table r; lk_param := lk_param r |}.

(** [while (match.length < columns.length) match.push(...)], with the
    empty string pushed. *)
Definition pad_cells (cells : list jsstring) (n : nat) : list jsstring :=
  cells ++ repeat [] (n - List.length cells).

(** [for (col ...) row.data[columns[col]] = match[col]]; a string
    assigned to the key [__proto__] is dropped. *)
Fixpoint row_data (cols cells : list jsstring) (data : obj jsstring) : obj jsstring :=
  match cols, cells with
  | c :: cols', x :: cells' =>
      row_data cols' cells' (if eqb c proto_key then data else oset data c x)
  | _, _ => data
  end.

(** Whether the row of a table [t] is written outside [links]: into a
    table of [_imports], or into an object that [links] inherits under
    the name [t]. *)
Definition table_exotic (l : obj (obj Link)) (shared_ : list jsstring) (t : jsstring) : bool :=
  match tread l t with
  | Found _ => existsb (eqb t) shared_
  | Builtin => true
  | Absent => false
  end.

Inductive ScanStep :=
| Continue (s : LinkScan)
| Return (l : obj (obj Link)).

(** One round of the inner loop of [getLinks], for the text [line].
    An import directive reads [this._imports[filename]]; a member that
    [_imports] inherits under the name of the file has no unnamed
    table, and [Object.keys] throws.  The named tables of the file are
    taken over as they are, and from then on shared. *)
Definition scanLine (p : Provider) (m : KeywordMatcher) (s : LinkScan) (line : jsstring)
  : result ScanStep :=
  if test multiline_line_re line then
    let ml := negb (multiline_ s) in
    Ok (Continue {| tableName := tableName s; columns := columns s; links := links s;
                    multiline_ := ml;
                    multitext := if ml then [] else multitext s;
                    multidata := multidata s;
                    shared := shared s |})
  else if multiline_ s then
    let text := multitext s ++ (match multitext s with [] => [] | _ => [10%N] end) ++ line in
    Ok (Continue {| tableName := tableName s; columns := columns s;
                    links := match multidata s with
                             | Some (t, k) =>
                                 match oget (table_of (links s) t) k with
                                 | Some r => put_link (links s) t k (set_name r text)
                                 | None => links s
                                 end
                             | None => links s
                             end;
                    multiline_ := multiline_ s; multitext := text;
                    multidata := multidata s;
                    shared := shared s |})
  else if test parameter_re line then
    match match_all cell_re line with
    | [] => Ok (Continue s)
    | cells =>
        match columns s with
        | None =>
            Ok (Continue {| tableName := tableName s;
                            columns := Some (List.map trimQuotes cells);
                            links := links s; multiline_ := multiline_ s;
                            multitext := multitext s; multidata := multidata s;
                    shared := shared s |})
        | Some cols =>
            let cells := pad_cells (List.map trimQuotes cells) (List.length cols) in
            let k := toLowerCase (List.hd [] cells) in
            let row := {| lk_key := List.hd [] cells;
                          lk_name := nth_error cells 1;
                          lk_file := None;
                          lk_data := Some (row_data cols cells []);
                          lk_column := None; lk_table := None; lk_param := None |} in
            if table_exotic (links s) (shared s) (tableName s) then Throw Exotic
            else
            Ok (Continue {| tableName := tableName s; columns := columns s;
                            links := put_link (links s) (tableName s) k row;
                            multiline_ := multiline_ s; multitext := multitext s;
                            multidata :=
                              match multidata s with
                              | Some (t, k') =>
                                  if (eqb t (tableName s) && eqb k' k)%bool then None
                                  else multidata s
                              | None => None
                              end;
                    shared := shared s |})
        end
    end
  else
    match exec assign_re line with
    | Some found_ =>
        let key_ := toLowerCase (match group line found_ 1 with Some g => g | None => [] end) in
        let value_ := trim (match group line found_ 2 with Some g => g | None => [] end) in
        Ok (Continue {| tableName := []; columns := None;
                        links := put_link (links s) [] key_
                                   {| lk_key := key_; lk_name := Some value_;
                                      lk_file := None; lk_data := None;
                                      lk_column := None; lk_table := None;
                                      lk_param := None |};
                        multiline_ := multiline_ s; multitext := multitext s;
                        multidata := Some ([], key_);
                    shared := shared s |})
    | None =>
        match reg_import m line with
        | Some file =>
            let filename := toLowerCase (trimQuotes (trim file)) in
            match oread (_imports p) filename with
            | Absent =>
                Ok (Continue {| tableName := []; columns := None; links := links s;
                                multiline_ := multiline_ s; multitext := multitext s;
                                multidata := None; shared := shared s |})
            | Builtin => Throw TypeError
            | Found vars =>
                match oget vars [] with
                | None => Throw TypeError
                | Some dflt =>
                    if (is_some (oget vars proto_key) || is_some (oget dflt proto_key))%bool
                    then Throw Exotic
                    else
                      let l1 := List.fold_left
                                  (fun l kv => put_link l [] (fst kv) (snd kv))
                                  dflt (links s) in
                      let named := List.filter (fun kv => negb (eqb (fst kv) [])) vars in
                      Ok (Continue
                            {| tableName := []; columns := None;
                               links := List.fold_left
                                          (fun l kv => oset l (fst kv) (snd kv)) named l1;
                               multiline_ := multiline_ s; multitext := multitext s;
                               multidata := None;
                               shared := okeys named ++ shared s |})
                end
            end
        | None =>
            if test skip_re line then Ok (Continue s)
            else
              match exec sound_re line with
              | Some (st, e, _) =>
                  Ok (Continue {| tableName := toLowerCase (trim (skipn (e - st) line));
                                  columns := columns s; links := links s;
                                  multiline_ := multiline_ s; multitext := multitext s;
                                  multidata := multidata s;
                    shared := shared s |})
              | None =>
                  bind (isSection p line []) (fun sec =>
                    if sec then Ok (Return (links s))
                    else Ok (Continue {| tableName := match columns s with
                                                      | Some _ => []
                                                      | None => tableName s
                                                      end;
                                         columns := None; links := links s;
                                         multiline_ := multiline_ s;
                                         multitext := multitext s;
                                         multidata := None;
                    shared := shared s |}))
              end
        end
    end.

(** The inner loop over the line numbers [ls]: the table and the number
    of the section line that ended the block, or [None] when the lines
    ran out. *)
Fixpoint scanBlock (p : Provider) (m : KeywordMatcher) (model : ITextModel)
  (s : LinkScan) (ls : list nat) : result (option (obj (obj Link) * nat)) :=
  match ls with
  | [] => Ok None
  | i :: rest =>
      bind (scanLine p m s (getLineContent model i)) (fun r =>
        match r with
        | Return l => Ok (Some (l, i))
        | Continue s' => scanBlock p m model s' rest
        end)
  end.

Definition scanStart : LinkScan :=
  {| tableName := []; columns := None; links := [([], [])];
     multiline_ := false; multitext := []; multidata := None;
     shared := [] |}.

(** [line.match(links_reg)], for
    [links_reg = new RegExp(this.matcher.reg.section.variables)]. *)
Definition isVariablesLine (m : KeywordMatcher) (line : jsstring) : bool :=
  match oget (reg_section m) (str "variables") with
  | Some t => t line
  | None => true
  end.

(** The outer loop of [getLinks] over the line numbers [ls]. *)
Fixpoint findBlock (p : Provider) (m : KeywordMatcher) (model : ITextModel)
  (lineCount : nat) (ls : list nat) : result (obj (obj Link) * nat) :=
  match ls with
  | [] => Ok ([], lineCount)
  | lineNumber_ :: rest =>
      let line := getLineContent model lineNumber_ in
      if isVariablesLine m line
      then
        bind (scanBlock p m model scanStart
                (seq (S lineNumber_) (lineCount - lineNumber_)))
          (fun r =>
             match r with
             | Some found_ => Ok found_
             | None => findBlock p m model lineCount rest
             end)
      else findBlock p m model lineCount rest
  end.

(** [getLinks(model, position)]: the table, and the line number it
    leaves in [position]. *)
Definition getLinks (p : Provider) (model : ITextModel) (lineCount : nat)
  : result (obj (obj Link) * nat) :=
  bind (matcher p) (fun m => findBlock p m model lineCount (seq 1 (lineCount - 1))).

(** [links[table] && links[table][row]]: the record; [Absent] when
    one of the two reads finds nothing; [Builtin] when the first read
    finds an inherited member, whose own members are those of the
    host, or the second does. *)
Definition link_at (l : obj (obj Link)) (table row : jsstring) : lookup Link :=
  match tread l table with
  | Found t => tread t row
  | Builtin => Builtin
  | Absent => Absent
  end.

(** The closure [data] of [getLinkData], for a call with the column
    given or not. *)
Definition linkData (l : obj (obj Link)) (key_ : jsstring)
  (table row : jsstring) (col : option jsstring) : lookup Link :=
  match link_at l table row with
  | Found o =>
      Found {| lk_key := lk_key o; lk_name := lk_name o; lk_file := lk_file o;
               lk_data := lk_data o;
               lk_column := match col with
                            | Some ((_ :: _) as c) => Some c
                            | _ => lk_column o
                            end;
               lk_table := Some table;
               lk_param := Some key_ |}
  | Builtin => Builtin
  | Absent => Absent
  end.

Definition linkDataRetry (l : obj (obj Link)) (key_ : jsstring)
  (table row : jsstring) (col : option jsstring) : lookup Link :=
  match linkData l key_ table row col with
  | Absent =>
      match col with
      | None => linkData l key_ [] table (Some row)
      | Some _ => Absent
      end
  | r => r
  end.

(** What [getLinkData] returns for a lookup; the object found under an
    inherited name is one of the host. *)
Definition returned {V} (r : lookup V) : result (option V) :=
  match r with
  | Found v => Ok (Some v)
  | Absent => Ok None
  | Builtin => Throw Exotic
  end.

(** [getLinkData(editor, key)], for the model of the editor, by the
    value it returns; [None] is [undefined].  The column, the table
    and the parameter are written into the record that [links] holds,
    which is a record of [_imports] when an import directive took it
    over. *)
Definition getLinkData (p : Provider) (model : ITextModel) (key_ : jsstring)
  : result (option Link) :=
  let words := List.map toLowerCase (split 46 key_) in
  bind (getLinks p model (getLineCount model)) (fun r =>
    let l := fst r in
    match words with
    | [w0] => returned (linkDataRetry l key_ [] w0 None)
    | [w0; w1] => returned (linkDataRetry l key_ w0 w1 None)
    | [w0; w1; w2] => returned (linkDataRetry l key_ w0 w1 (Some w2))
    | _ => Ok None
    end).

(* ------------------------------------------------------------------ *)
(** *** Links of the document *)

(** [/([\x22'])((?:\\\1|(?:(?!\1)).)* )(\1)/], for the quote [q] that the
    first group takes: the back-reference is [q], and what the
    look-ahead lets pass before the dot is a code unit other than
    [q]. *)
Definition quoted_link_re (q : N) : re :=
  Seqs [Grp 1 (Lit q);
        Grp 2 (Star (Alt (Seq (Lit c_backslash) (Lit q))
                         (Chr (fun c => is_dot c && negb (N.eqb c q))%bool)));
        Grp 3 (Lit q)].

(** The pattern of [provideLinks]: the first group takes a double
    quote or an apostrophe. *)
Definition link_re : re := Alt (quoted_link_re c_quote) (quoted_link_re c_apos).

(** [/^e1cib\/[^\s]+$/] *)
Definition e1cib_re : re :=
  Seqs [Bol; Lit 101; Lit 49; Lit 99; Lit 105; Lit 98; Lit c_slash;
        Plus (Not is_space); Eol].

(** [[A-zА-яЁё][0-9A-zА-яЁё]*] *)
Definition name_re : re :=
  Seq (Chr is_letter) (Star (Chr (fun c => is_digit c || is_letter c)%bool)).

(** [/^([A-zА-яЁё][0-9A-zА-яЁё]* )(\.[A-zА-яЁё][0-9A-zА-яЁё]* )*$/] *)
Definition dotted_re : re :=
  Seqs [Bol; Grp 1 name_re; Star (Grp 2 (Seq (Lit 46) name_re)); Eol].

(** [monaco.languages.ILink]; the tooltip of a link that has one may
    be [undefined], which is the inner [None]. *)
Record ILink := {
  ln_range : IRange;
  ln_tooltip : option (option jsstring);
  ln_url : jsstring;
}.

(** The text that the closure [add] shows for the record [o]: its
    name or, with a column given, the cell of the last key of its
    data that is the column when put in lower case.  [Object.keys]
    throws when the record has no data. *)
Definition linkTooltip (o : Link) (col : option jsstring) : result (option jsstring) :=
  match col with
  | Some ((_ :: _) as c) =>
      match lk_data o with
      | None => Throw TypeError
      | Some d =>
          Ok (List.fold_left
                (fun text kv => if eqb (toLowerCase (fst kv)) c then Some (snd kv) else text)
                d (lk_name o))
      end
  | _ => Ok (lk_name o)
  end.

(** The first branch of [add]: the link for the record of
    [links[table][row]], if there is one. *)
Definition addLinkAt (l : obj (obj Link)) (range : IRange) (param table row : jsstring)
  (col : option jsstring) : lookup (result (list ILink)) :=
  match link_at l table row with
  | Found o =>
      Found (bind (linkTooltip o col) (fun text =>
               Ok [{| ln_range := range; ln_tooltip := Some text;
                      ln_url := str "link:" ++ param |}]))
  | Builtin => Builtin
  | Absent => Absent
  end.

(** The closure [add] of [provideLinks], by the links it pushes. *)
Definition addLink (l : obj (obj Link)) (range : IRange) (param table row : jsstring)
  (col : option jsstring) : result (list ILink) :=
  match addLinkAt l range param table row col with
  | Found r => r
  | Builtin => Throw Exotic
  | Absent =>
      match col with
      | None =>
          match addLinkAt l range param [] table (Some row) with
          | Found r => r
          | Builtin => Throw Exotic
          | Absent => Ok []
          end
      | Some _ => Ok []
      end
  end.

(** One round of the loop over the matches of a line: the match from
    [fst se] to [snd se] of the line [lineNumber_], where [blockEnd] is
    the line number that [getLinks] left.  A match holds its two
    quotes, so the range is in order as it is given to [monaco.Range]. *)
Definition matchLinks (l : obj (obj Link)) (blockEnd lineNumber_ : nat) (line : jsstring)
  (se : nat * nat) : result (list ILink) :=
  let matched := substring (fst se) (snd se) line in
  let range := {| startLineNumber := lineNumber_; startColumn := fst se + 2;
                  endLineNumber := lineNumber_; endColumn := snd se |} in
  let param := substring 1 (List.length matched - 1) matched in
  if test e1cib_re param
  then Ok [{| ln_range := range; ln_tooltip := None; ln_url := trimQuotes matched |}]
  else if blockEnd <? lineNumber_ then
    if test dotted_re param then
      match List.map toLowerCase (split 46 param) with
      | [w0] => addLink l range param [] w0 None
      | [w0; w1] => addLink l range param w0 w1 None
      | [w0; w1; w2] => addLink l range param w0 w1 (Some w2)
      | _ => Ok []
      end
    else Ok []
  else Ok [].

(** The links of the rounds of a loop, one after the other; nothing is
    returned when a round throws. *)
Fixpoint collect {A B} (f : A -> result (list B)) (l : list A) : result (list B) :=
  match l with
  | [] => Ok []
  | a :: r => bind (f a) (fun bs => bind (collect f r) (fun rest => Ok (bs ++ rest)))
  end.

(** [provideLinks(model, token)], by the list [links] of its result. *)
Definition provideLinks (p : Provider) (model : ITextModel) : result (list ILink) :=
  bind (getLinks p model (getLineCount model)) (fun r =>
    collect
      (fun lineNumber_ =>
         let line := getLineContent model lineNumber_ in
         collect (matchLinks (fst r) (snd r) lineNumber_ line) (spans link_re line))
      (seq 1 (getLineCount model))).

(* ================================================================== *)
(** ** Languages of files ([common.ts]) *)

(** [monaco.languages.ILanguageExtensionPoint], by what [getLanguage]
    reads of it; [None] is [undefined]. *)
Record ILanguageExtensionPoint := {
  lang_id : jsstring;
  extensions : option (list jsstring);
}.

(** [getLanguage(filename)], over the languages that
    [monaco.languages.getLanguages()] lists; [None] is [undefined]. *)
Definition getLanguage (languages : list ILanguageExtensionPoint) (filename : jsstring)
  : option jsstring :=
  let ext := str "." ++ toLowerCase (List.last (split 46 filename) []) in
  option_map lang_id
    (List.find
       (fun lang => match extensions lang with
                    | None => false
                    | Some es => existsb (fun e => eqb e ext) es
                    end)
       languages).

(* ================================================================== *)
(** ** The host, for the scenarios

    Stand-ins for what the host brings: a text model over a list of
    lines, [JSON.parse] and [JSON.stringify] on the texts whose numbers
    are integers, [new RegExp] on the patterns that [addQuickFix] builds
    from keywords of plain characters, and a [distance] that scores as
    the package does where a string is empty or the two are equal. *)

Module Host.

Definition is_blank (c : N) : bool := (N.eqb c 32 || N.eqb c 9)%bool.

Fixpoint firstNonWhitespaceIndex (s : jsstring) (i : nat) : option nat :=
  match s with
  | [] => None
  | c :: r => if is_blank c then firstNonWhitespaceIndex r (S i) else Some i
  end.

Fixpoint lastNonWhitespaceIndex (s : jsstring) (i : nat) (last : option nat) : option nat :=
  match s with
  | [] => last
  | c :: r => lastNonWhitespaceIndex r (S i) (if is_blank c then last else Some i)
  end.

Definition lineAt (lines : list jsstring) (n : nat) : jsstring := nth (n - 1) lines [].

Definition valueInRange (lines : list jsstring) (r : IRange) : jsstring :=
  if startLineNumber r =? endLineNumber r
  then substring (startColumn r - 1) (endColumn r - 1) (lineAt lines (startLineNumber r))
  else
    join [10%N]
      ([skipn (startColumn r - 1) (lineAt lines (startLineNumber r))]
       ++ List.map (lineAt lines)
            (seq (S (startLineNumber r)) (endLineNumber r - startLineNumber r - 1))
       ++ [firstn (endColumn r - 1) (lineAt lines (endLineNumber r))]).

(** A model of language [language] that holds [lines] (a model of the
    editor has one line at least). *)
Definition createModel (language : jsstring) (lines : list jsstring) : ITextModel :=
  let lines := match lines with [] => [[]] | _ => lines end in
  {| uri := str "inmemory://model/1";
     getModeId := language;
     tabSize := 4;
     getLineCount := List.length lines;
     getLineContent := lineAt lines;
     getValueInRange := valueInRange lines;
     getLineMinColumn := fun _ => 1;
     getLineMaxColumn := fun n => S (List.length (lineAt lines n));
     getLineFirstNonWhitespaceColumn := fun n =>
       match firstNonWhitespaceIndex (lineAt lines n) 0 with
       | Some i => i + 1
       | None => 0
       end;
     getLineLastNonWhitespaceColumn := fun n =>
       match lastNonWhitespaceIndex (lineAt lines n) 0 None with
       | Some i => i + 2
       | None => 0
       end;
     findMatches := fun r range =>
       List.map
         (fun se => {| startLineNumber := startLineNumber range;
                       endLineNumber := startLineNumber range;
                       startColumn := fst se + 1;
                       endColumn := snd se + 1 |})
         (spans r (lineAt lines (startLineNumber range))) |}.

(** *** JSON *)

Fixpoint skip_ws (s : jsstring) : jsstring :=
  match s with
  | c :: r => if one_of [32; 9; 10; 13]%N c then skip_ws r else s
  | [] => []
  end.

Definition hex_value (c : N) : option N :=
  if is_digit c then Some (c - 48)%N
  else if inN 97 102 c then Some (c - 87)%N
  else if inN 65 70 c then Some (c - 55)%N
  else None.

(** The rest of a string literal, after its opening quote. *)
Fixpoint parse_chars (s : jsstring) (acc : jsstring) : option (jsstring * jsstring) :=
  match s with
  | [] => None
  | 34%N :: r => Some (rev acc, r)
  | 92%N :: 117%N :: a :: b :: c :: d :: r =>
      match hex_value a, hex_value b, hex_value c, hex_value d with
      | Some x, Some y, Some z, Some w =>
          parse_chars r ((((x * 16 + y) * 16 + z) * 16 + w)%N :: acc)
      | _, _, _, _ => None
      end
  | 92%N :: e :: r =>
      match (if N.eqb e 34 then Some 34 else if N.eqb e 92 then Some 92
             else if N.eqb e 47 then Some 47 else if N.eqb e 98 then Some 8
             else if N.eqb e 102 then Some 12 else if N.eqb e 110 then Some 10
             else if N.eqb e 114 then Some 13 else if N.eqb e 116 then Some 9
             else None)%N with
      | Some c => parse_chars r (c :: acc)
      | None => None
      end
  | c :: r => if N.ltb c 32 then None else parse_chars r (c :: acc)
  end.

Fixpoint parse_digits (s : jsstring) (acc : N) : N * jsstring :=
  match s with
  | c :: r => if is_digit c then parse_digits r (acc * 10 + (c - 48))%N else (acc, s)
  | [] => (acc, [])
  end.

(** An integer literal; a fraction or an exponent is beyond the
    stand-in. *)
Definition parse_number (s : jsstring) : option (Z * jsstring) :=
  let '(neg, s1) := match s with
                    | 45%N :: r => (true, r)
                    | _ => (false, s)
                    end in
  match s1 with
  | c :: r =>
      if is_digit c then
        let '(n, rest) := if N.eqb c 48 then (0%N, r) else parse_digits s1 0 in
        match rest with
        | x :: _ => if (is_digit x || one_of [46; 101; 69]%N x)%bool then None
                    else Some (if neg then (- Z.of_N n)%Z else Z.of_N n, rest)
        | [] => Some (if neg then (- Z.of_N n)%Z else Z.of_N n, rest)
        end
      else None
  | [] => None
  end.

Fixpoint parse_value (fuel : nat) (s : jsstring) : option (JSON * jsstring) :=
  match fuel with
  | O => None
  | S f =>
      match skip_ws s with
      | 110%N :: 117%N :: 108%N :: 108%N :: r => Some (JNull, r)
      | 116%N :: 114%N :: 117%N :: 101%N :: r => Some (JBool true, r)
      | 102%N :: 97%N :: 108%N :: 115%N :: 101%N :: r => Some (JBool false, r)
      | 34%N :: r =>
          match parse_chars r [] with
          | Some (t, r') => Some (JStr t, r')
          | None => None
          end
      | 91%N :: r =>
          match skip_ws r with
          | 93%N :: r' => Some (JArr [], r')
          | _ =>
              (fix elems (n : nat) (r : jsstring) (acc : list JSON) {struct n}
                 : option (JSON * jsstring) :=
                 match n with
                 | O => None
                 | S n' =>
                     match parse_value f r with
                     | None => None
                     | Some (v, r1) =>
                         match skip_ws r1 with
                         | 44%N :: r2 => elems n' r2 (acc ++ [v])
                         | 93%N :: r2 => Some (JArr (acc ++ [v]), r2)
                         | _ => None
                         end
                     end
                 end) (S (List.length r)) r []
          end
      | 123%N :: r =>
          match skip_ws r with
          | 125%N :: r' => Some (JObj [], r')
          | _ =>
              (fix members (n : nat) (r : jsstring) (acc : obj JSON) {struct n}
                 : option (JSON * jsstring) :=
                 match n with
                 | O => None
                 | S n' =>
                     match skip_ws r with
                     | 34%N :: r0 =>
                         match parse_chars r0 [] with
                         | None => None
                         | Some (k, r1) =>
                             match skip_ws r1 with
                             | 58%N :: r2 =>
                                 match parse_value f r2 with
                                 | None => None
                                 | Some (v, r3) =>
                                     match skip_ws r3 with
                                     | 44%N :: r4 => members n' r4 (oset acc k v)
                                     | 125%N :: r4 => Some (JObj (oset acc k v), r4)
                                     | _ => None
                                     end
                                 end
                             | _ => None
                             end
                         end
                     | _ => None
                     end
                 end) (S (List.length r)) r []
          end
      | s' =>
          match parse_number s' with
          | Some (z, r) => Some (JNum z, r)
          | None => None
          end
      end
  end.

(** [JSON.parse(text)]; [None] is a SyntaxError. *)
Definition JSON_parse (text : jsstring) : option JSON :=
  match parse_value (S (List.length text)) text with
  | Some (v, r) => match skip_ws r with [] => Some v | _ => None end
  | None => None
  end.

Definition quote (s : jsstring) : jsstring :=
  [34%N] ++ List.flat_map (fun c => if one_of [34; 92]%N c then [92%N; c] else [c]) s
  ++ [34%N].

(** [JSON.stringify(v)]; a number that is not finite is written as
    [null]. *)
Fixpoint JSON_stringify (v : JSON) : jsstring :=
  match v with
  | JNull => str "null"
  | JBool true => str "true"
  | JBool false => str "false"
  | JNum z => if Z.ltb (Z.abs z) (2 ^ 1024 - 2 ^ 970) then number_text z else str "null"
  | JStr s => quote s
  | JArr l => str "[" ++ join (str ",") (List.map JSON_stringify l) ++ str "]"
  | JObj l =>
      str "{"
      ++ join (str ",")
           ((fix members (l : list (jsstring * JSON)) : list jsstring :=
               match l with
               | [] => []
               | (k, x) :: r => (quote k ++ str ":" ++ JSON_stringify x) :: members r
               end) l)
      ++ str "}"
  end.

(** *** Regular expressions from text *)

Definition is_meta (c : N) : bool :=
  one_of [92; 94; 36; 46; 124; 63; 42; 43; 40; 41; 91; 93; 123; 125]%N c.

(** The atoms of a pattern, each with the stars and pluses behind it. *)
Fixpoint postfix (a : re) (s : jsstring) : re * jsstring :=
  match s with
  | 42%N :: r => postfix (Star a) r
  | 43%N :: r => postfix (Plus a) r
  | _ => (a, s)
  end.

Fixpoint atoms (fuel : nat) (s : jsstring) : option (list re) :=
  match fuel with
  | O => None
  | S f =>
      match s with
      | [] => Some []
      | 94%N :: r =>
          match atoms f r with Some l => Some (Bol :: l) | None => None end
      | 91%N :: 92%N :: 115%N :: 93%N :: r =>
          let '(a, r') := postfix (Chr is_space) r in
          match atoms f r' with Some l => Some (a :: l) | None => None end
      | c :: r =>
          if is_meta c then None
          else
            let '(a, r') := postfix (Lit c) r in
            match atoms f r' with Some l => Some (a :: l) | None => None end
      end
  end.

(** [new RegExp(source)] for a pattern of anchors, [[\s]], plain
    characters, stars and pluses. *)
Definition RegExp_new (source : jsstring) : option re :=
  match atoms (S (List.length source)) source with
  | Some l => Some (Seqs l)
  | None => None
  end.

(** *** Distance *)

(** The package answers [0] when a string is empty and [1] when the
    two are equal; the other pairs are scored [0] here. *)
Definition distance (s1 s2 : jsstring) : Q :=
  match s1, s2 with
  | [], _ | _, [] => 0
  | _, _ => if eqb s1 s2 then 1 else 0
  end.

(** *** Matcher *)

(** A heading: blanks, the name in any case, blanks, a colon. *)
Definition heading (name_ : jsstring) (text : jsstring) : bool :=
  let t := toLowerCase (trimStart text) in
  (starts_with name_ t
   && starts_with [58%N] (trimStart (skipn (List.length name_) t)))%bool.

(** Modelled from the spec: the patterns of [KeywordMatcher]
    ([./matcher], which is not among the sources), there one pattern per
    named section plus a catch-all, the shape of a step line and the
    shape of an import directive.  This one has the sections [feature],
    [variables] and [scenario], steps that begin with a letter and
    import lines [import <file>]. *)
Definition sampleMatcher : KeywordMatcher :=
  {| reg_section :=
       [ ([], fun text => (heading (str "feature") text
                           || heading (str "variables") text
                           || heading (str "scenario") text)%bool);
         (str "feature", heading (str "feature"));
         (str "variables", heading (str "variables"));
         (str "scenario", heading (str "scenario")) ];
     reg_step := fun text => match trimStart text with
                             | c :: _ => is_letter c
                             | [] => false
                             end;
     reg_import := fun text =>
       let t := trimStart text in
       if starts_with (str "import ") (toLowerCase t)
       then match skipn 7 t with [] => None | r => Some r end
       else None |}.

End Host.

(* ================================================================== *)
(** ** Vocabulary of the properties, and the scenarios *)

(** What holds of an entry of the list of candidates: its score is the
    distance between the phrase key of its line and its key, which is
    the key of a step, and the score is above the threshold. *)
Definition candidate (distance : jsstring -> jsstring -> Q) (p : Provider)
  (model : ITextModel) (markers : list IMarkerData) (e : QuickFix) : Prop :=
  (threshold < qf_sum e)%Q /\
  In (qf_key e) (okeys (_steps p)) /\
  qf_sum e = distance (key (filterWords p (qf_words e))) (qf_key e) /\
  qf_words e = splitWords (getValueInRange model (errorRange (qf_error e))) /\
  In (qf_error e) markers.

(** The order of the list: no score is below one that follows it. *)
Definition by_score (a b : QuickFix) : Prop := (qf_sum b <= qf_sum a)%Q.

Definition candidates (distance : jsstring -> jsstring -> Q) (p : Provider)
  (model : ITextModel) (markers : list IMarkerData) (l : list QuickFix) : Prop :=
  Forall (candidate distance p model markers) l /\ StronglySorted by_score l.

(** A keyword is a case-insensitive positional prefix of the tokens. *)
Definition ci_prefix (kw words : list jsstring) : Prop :=
  List.length kw <= List.length words /\
  forall i, i < List.length kw ->
            toLowerCase (nth i kw []) = toLowerCase (nth i words []).

(** The words of a keyword are in lower case. *)
Definition lowered (kw : list jsstring) : Prop :=
  Forall (fun w => toLowerCase w = w) kw.

Definition payload (v : JSON) : jsstring := Host.JSON_stringify v.

(** The keywords of Scenario A. *)
Definition scenarioA : Provider :=
  snd (setKeywords Host.JSON_parse
         (payload (JArr [JStr (str "when"); JStr (str "when not")])) new_provider).

(** The keyword [click], the step [click button] and the pair word
    [twice] of [click], registered in this order on a provider with a
    matcher. *)
Definition scenarioC : Provider :=
  let p0 := with_matcher new_provider (Some Host.sampleMatcher) in
  let p1 := snd (setKeywords Host.JSON_parse (payload (JArr [JStr (str "click")])) p0) in
  let p2 := snd (setStepList Host.JSON_parse
                   (payload (JArr [JObj [(str "insertText", JStr (str "click button"));
                                         (str "documentation", JStr (str "Clicks the button"));
                                         (str "section", JStr (str "UI"))]]))
                   false p1) in
  snd (setKeypairs Host.JSON_parse
         (payload (JObj [(str "click", JArr [JStr (str "twice")])])) p2).

(** A line that none of the rules of a variables block takes before the
    test for a section. *)
Definition plain_line (m : KeywordMatcher) (line : jsstring) : bool :=
  (negb (test multiline_line_re line) && negb (test parameter_re line)
   && negb (is_some (exec assign_re line)) && negb (is_some (reg_import m line))
   && negb (test skip_re line) && negb (is_some (exec sound_re line)))%bool.

(** The block of Scenario D, line by line. *)
Definition users_marked : LinkScan :=
  {| tableName := str "users"; columns := None; links := [([], [])];
     multiline_ := false; multitext := []; multidata := None;
     shared := [] |}.

Definition users_headed : LinkScan :=
  {| tableName := str "users"; columns := Some [str "id"; str "name"];
     links := [([], [])];
     multiline_ := false; multitext := []; multidata := None;
     shared := [] |}.

Definition alice : Link :=
  {| lk_key := str "1"; lk_name := Some (str "Alice"); lk_file := None;
     lk_data := Some [(str "id", str "1"); (str "name", str "Alice")];
     lk_column := None; lk_table := None; lk_param := None |}.

Definition users_filled : LinkScan :=
  {| tableName := str "users"; columns := Some [str "id"; str "name"];
     links := [([], []); (str "users", [(str "1", alice)])];
     multiline_ := false; multitext := []; multidata := None;
     shared := [] |}.

Definition scenarioD : Provider := with_matcher new_provider (Some Host.sampleMatcher).

Definition usersBlock : list jsstring :=
  [str "Variables:"; str "* Users"; str "| id | name |"; str "| 1 | Alice |"].




Definition fooPayload : jsstring :=
  payload (JObj [(str "Foo", JNum 1); (str "Bar", JBool true)]).

Definition withFoo : Provider :=
  snd (setVariables Host.JSON_parse fooPayload false scenarioC).

(** The inner loops of the second pass are instances of one scan: an
    entry that [stop] takes ends the scan, any other entry that [ext]
    takes moves the end to its index. *)
Fixpoint scan (stop ext : VAIndent -> bool) (j k : nat) (rest : list VAIndent) : nat :=
  match rest with
  | [] => k
  | next :: r => if stop next then k
                 else scan stop ext (S j) (if ext next then j else k) r
  end.

Definition always (_ : VAIndent) : bool := true.
Definition is_token (t : VAToken) (l : VAIndent) : bool := token_eqb (token l) t.
Definition not_token (t : VAToken) (l : VAIndent) : bool := negb (token_eqb (token l) t).

(** The entries that end the fold of an Operator line of indentation [d]. *)
Definition stop_operator (d : option nat) (l : VAIndent) : bool :=
  match token l with
  | Section_ => true
  | Empty | Comment | Multiline | Parameter_ => false
  | _ => num_le (indent l) d
  end.

(** The rule of a line: how the scan for its fold stops and extends;
    [None] for a line that opens no fold. *)
Definition rule (l : VAIndent) : option ((VAIndent -> bool) * (VAIndent -> bool)) :=
  match token l with
  | Instruction => Some (not_token Instruction, always)
  | Comment => Some (not_token Comment, always)
  | Section_ => Some (is_token Section_, always)
  | Operator => Some (stop_operator (indent l), not_token Empty)
  | _ => None
  end.

(** The entries as [classifyLines] makes them for a positive tab
    width: the indentation is a number, and it is zero but for an
    Operator line. *)
Definition classified (l : VAIndent) : Prop :=
  (exists n, indent l = Some n) /\ (token l = Operator \/ indent l = Some 0).

(** Two ranges are apart, or one lies in the other. *)
Definition apart_or_nested (r1 r2 : FoldingRange) : Prop :=
  fr_end r1 < fr_start r2 \/ fr_end r2 < fr_start r1 \/
  (fr_start r1 < fr_start r2 /\ fr_end r2 <= fr_end r1) \/
  (fr_start r2 < fr_start r1 /\ fr_end r1 <= fr_end r2).

Definition folding_kind (r : FoldingRange) : Prop :=
  fr_kind r = None \/ fr_kind r = Some KindComment \/ fr_kind r = Some KindRegion.

Definition foldingOf (tabSize_ : nat) (lines : list jsstring) : result (list FoldingRange) :=
  getCodeFolding scenarioD tabSize_ (List.length lines)
    (getLineContent (Host.createModel (str "turbo-gherkin") lines)).

(** A state of the matcher that lies later in the input than the state
    of index [i] and rest [s]: some code units of [s] are consumed. *)
Definition later (i : nat) (s : jsstring) (i' : nat) (s' : jsstring) : Prop :=
  exists pre, s = pre ++ s' /\ i' = i + List.length pre.

(** The continuation of a search: the match ends where it stands. *)
Definition here : kont := fun e _ c => Some (e, c).

Fixpoint takeSpaces (s : jsstring) : nat :=
  match s with
  | c :: r => if is_space c then S (takeSpaces r) else 0
  | [] => 0
  end.


Ltac no_space_start :=
  intros ? x ? ? Hx; unfold Lit, one_of; cbn [run existsb];
  repeat match goal with
  | |- context [N.eqb ?a x] => destruct (N.eqb a x) eqn:?
  | |- context [N.eqb x ?a] => destruct (N.eqb x a) eqn:?
  end; try reflexivity;
  repeat match goal with
  | H : N.eqb _ _ = true |- _ => apply N.eqb_eq in H; subst
  end;
  match goal with
  | H : is_space _ = true |- _ => vm_compute in H; discriminate H
  end.

(** A greedy star over a class, on an input of which [n] leading code
    units are of the class: the continuation is tried after the longest
    run first, then after each shorter one. *)
Fixpoint backtrack (k : kont) (f : N -> bool) (i : nat) (s : jsstring) (c : caps) : answer :=
  match s with
  | x :: r =>
      if f x then
        match backtrack k f (S i) r c with
        | Some a => Some a
        | None => k i s c
        end
      else k i s c
  | [] => k i s c
  end.

(** An expression that begins with a class takes a code unit at
    least. *)
Definition consuming (r : re) : Prop :=
  forall i s c e c', run r i s c here = Some (e, c') -> i < e.

(** Comparisons of code units: one that the context settles is
    rewritten, another is split. *)
Ltac unit_cases :=
  repeat match goal with
  | |- context [N.leb ?a ?b] =>
      first [ rewrite (proj2 (N.leb_le a b)) by lia
            | rewrite (proj2 (N.leb_gt a b)) by lia
            | let E := fresh "E" in
              destruct (N.leb a b) eqn:E; [apply N.leb_le in E|apply N.leb_gt in E] ]
  | |- context [N.eqb ?a ?b] =>
      first [ rewrite (proj2 (N.eqb_eq a b)) by lia
            | rewrite (proj2 (N.eqb_neq a b)) by lia
            | let E := fresh "E" in
              destruct (N.eqb a b) eqn:E; [apply N.eqb_eq in E|apply N.eqb_neq in E] ]
  end; cbn [andb orb negb].

Definition is_quote : N -> bool := one_of [c_quote; c_apos].

Definition is_array (v : JSON) : bool :=
  match v with JArr _ => true | _ => false end.

Definition has_blank (w : jsstring) : bool := existsb (fun c => N.eqb c 32) w.

(** [e.insertText] of an element of a step list, when it is a string. *)
Definition insertText_of (e : JSON) : option jsstring :=
  match e with
  | JNull => None
  | _ => match prop e (str "insertText") with
         | Some (JStr s) => Some s
         | _ => None
         end
  end.

(** The key under which [setStepList] registers a step of insert text
    [text]: the phrase key of its first line. *)
Definition step_key (p : Provider) (text : jsstring) : jsstring :=
  key (filterWords p (splitWords (List.hd [] (split 10 text)))).

(** The entry that [setStepList] makes of the element [e] of insert
    text [text], before its label is computed. *)
Definition step_of (e : JSON) (text : jsstring) : Step :=
  {| head := splitWords (List.hd [] (split 10 text));
     body := List.tl (split 10 text);
     documentation := prop e (str "documentation");
     insertText := text;
     sortText := prop e (str "sortText");
     section := prop e (str "section");
     kind := prop e (str "kind");
     label := None; keyword := None |}.

Definition registerStep (e : JSON) (q : Provider) : Provider :=
  match insertText_of e with
  | Some text => with_steps q (oset (_steps q) (step_key q text) (step_of e text))
  | None => q
  end.

(** What [updateStepLabels] reads of an entry: two entries that agree
    in it get the same labels. *)
Definition same_source (e e' : Step) : Prop :=
  head e = head e' /\ body e = body e' /\ documentation e = documentation e' /\
  sortText e = sortText e' /\ section e = section e' /\ kind e = kind e'.

(** A word of a head that [updateStepLabels] keeps or fills in: it is
    no parameter, or its content in lower case names nothing in
    [elements] (no entry and no inherited member), or an entry whose
    value is falsy or converted by [String]. *)
Definition word_labelled (p : Provider) (word : jsstring) : bool :=
  (negb (test param_re word) ||
   match oread (_elements p) (toLowerCase (substring 1 (List.length word - 1) word)) with
   | Absent => true
   | Builtin => false
   | Found elem => negb (truthy elem) || negb (unprintable elem)
   end)%bool.

(** The label of the entry [e] can be computed: each word of its head
    is kept or filled in. *)
Definition labelled (p : Provider) (e : Step) : Prop :=
  forallb (word_labelled p) (head e) = true.

(** An element of a step list that the model follows: its key is not
    [__proto__], and its label can be computed. *)
Definition plain_element (p : Provider) (e : JSON) : Prop :=
  forall t, insertText_of e = Some t ->
            step_key p t <> proto_key /\ labelled p (step_of e t).

(** The diagnostic of [checkSyntax] for the line [n]. *)
Definition syntaxMarker (p : Provider) (model : ITextModel) (n : nat) : IMarkerData :=
  {| severity := SevError;
     message := _syntaxMsg p;
     m_startLineNumber := n;
     m_startColumn := getLineFirstNonWhitespaceColumn model n;
     m_endLineNumber := n;
     m_endColumn := getLineLastNonWhitespaceColumn model n |}.

(** No keyword of the provider is, with its words joined, a name under
    which a dictionary inherits a member: [keypairs] then has the pair
    words of a keyword, or nothing. *)
Definition plain_keywords (p : Provider) : Prop :=
  Forall (fun kw => inherited (join (str " ") kw) = false) (_keywords p).

(** What holds of a line that [checkSyntax] flags: it is no delimiter
    of a multi-line text, no comment or instruction (a leading [#],
    [@] or [//]) and no section header; the step pattern matches it;
    it begins with a registered keyword; the phrase after the keyword
    has a key, under which [steps] has nothing, be it an entry or an
    inherited member; and the pair words of the keyword, if it has
    some, do not make it valid. *)
Definition flagged_line (p : Provider) (mt : KeywordMatcher) (line : jsstring) : Prop :=
  test multiline_line_re line = false /\
  test skip_re line = false /\
  isSection p line [] = Ok false /\
  reg_step mt line = true /\
  exists kw,
    findKeyword p (splitWords line) = Some kw /\
    let words := filterWords p (splitWords line) in
    key words <> [] /\
    has (_steps p) (key words) = false /\
    match oget (_keypairs p) (join (str " ") kw) with
    | None => True
    | Some keypair =>
        (has (_steps p) (key (removelast words))
         && existsb (fun w => eqb w (toLowerCase (last words []))) keypair)%bool = false
    end.

(** A feature of three lines: a header, a known step and a phrase that
    is no step. *)
Definition clickFeature : ITextModel :=
  Host.createModel (str "turbo-gherkin")
    [str "Scenario: buttons"; str "  click button"; str "  click nothing"].



Definition is_string (v : any) : bool :=
  match v with Some (JStr _) => true | _ => false end.

(** The input [s] does not go on with a code unit of the class [f]. *)
Definition stops (f : N -> bool) (s : jsstring) : Prop :=
  match s with
  | [] => True
  | y :: _ => f y = false
  end.

(** The class [[0-9A-zА-яЁё]]. *)
Definition is_name_unit (c : N) : bool := (is_digit c || is_letter c)%bool.

(** A name, as an assignment has it on its left: a letter, then
    letters and digits. *)
Definition is_name (s : jsstring) : bool :=
  match s with
  | x :: r => (is_letter x && forallb is_name_unit r)%bool
  | [] => false
  end.

(** A feature with two lines of text under its header. *)
Definition describedFeature : ITextModel :=
  Host.createModel (str "turbo-gherkin")
    [str "Feature: buttons"; str "click whatever is there"; str "click again";
     str "Scenario: first"; str "click nothing"].


(** A code unit of a quoted text that the pattern of the links takes
    by its second alternative: no backslash, no line terminator, and
    not the quote [q]. *)
Definition plain_unit (q : N) (c : N) : bool :=
  (negb (N.eqb c_backslash c) && (is_dot c && negb (N.eqb c q)))%bool.

(** A name without a backslash (the class of the letters holds the
    backslash). *)
Definition plain_name (s : jsstring) : bool :=
  (is_name s && forallb (fun c => negb (N.eqb c_backslash c)) s)%bool.

(* ================================================================== *)
(** ** Properties of strings and dictionaries *)

Unset Implicit Arguments.

Lemma eqb_eq (a b : jsstring) : eqb a b = true <-> a = b.
Proof.
  unfold eqb. destruct (list_eq_dec N.eq_dec a b); split; congruence.
Qed.

Lemma eqb_refl (a : jsstring) : eqb a a = true.
Proof. apply eqb_eq. reflexivity. Qed.

Lemma eqb_neq (a b : jsstring) : eqb a b = false <-> a <> b.
Proof.
  unfold eqb. destruct (list_eq_dec N.eq_dec a b); split; congruence.
Qed.

Lemma lower_unit_idem (c : N) : lower_unit (lower_unit c) = lower_unit c.
Proof.
  unfold lower_unit, inN.
  repeat match goal with
  | |- context [if ?b then _ else _] => let E := fresh "E" in destruct b eqn:E
  end; try reflexivity;
  repeat match goal with
  | H : (_ && _)%bool = true |- _ => apply andb_true_iff in H; destruct H
  | H : (_ && _)%bool = false |- _ => apply andb_false_iff in H; destruct H
  | H : negb _ = true |- _ => apply negb_true_iff in H
  | H : negb _ = false |- _ => apply negb_false_iff in H
  | H : N.leb _ _ = true |- _ => apply N.leb_le in H
  | H : N.leb _ _ = false |- _ => apply N.leb_gt in H
  | H : N.eqb _ _ = true |- _ => apply N.eqb_eq in H
  | H : N.eqb _ _ = false |- _ => apply N.eqb_neq in H
  end; lia.
Qed.

Lemma toLowerCase_idem (s : jsstring) : toLowerCase (toLowerCase s) = toLowerCase s.
Proof.
  unfold toLowerCase. rewrite map_map. apply map_ext. apply lower_unit_idem.
Qed.

Lemma oget_oreplace {V} (o : obj V) k v k' :
  oget (oreplace o k v) k' =
  if eqb k' k then (match oget o k with Some _ => Some v | None => None end)
  else oget o k'.
Proof.
  induction o as [|[k0 v0] r IH]; simpl.
  - destruct (eqb k' k); reflexivity.
  - destruct (eqb k k0) eqn:E0; simpl.
    + apply eqb_eq in E0. subst k0.
      destruct (eqb k' k); reflexivity.
    + destruct (eqb k' k0) eqn:E1.
      * apply eqb_eq in E1. subst k0.
        destruct (eqb k' k) eqn:E2; [|reflexivity].
        apply eqb_eq in E2. subst. rewrite eqb_refl in E0. discriminate.
      * apply IH.
Qed.

Lemma oget_oappend {V} (o : obj V) k v k' :
  oget o k = None ->
  oget (oappend o k v) k' = if eqb k' k then Some v else oget o k'.
Proof.
  induction o as [|[k0 v0] r IH]; simpl; intros H.
  - reflexivity.
  - destruct (eqb k k0) eqn:E0; [discriminate|].
    destruct (eqb k' k0) eqn:E1.
    + apply eqb_eq in E1. subst k0.
      destruct (eqb k' k) eqn:E2; [|reflexivity].
      apply eqb_eq in E2. subst. rewrite eqb_refl in E0. discriminate.
    + apply IH, H.
Qed.

Lemma oget_oinsert_index {V} (o : obj V) n k v k' :
  oget o k = None ->
  oget (oinsert_index o n k v) k' = if eqb k' k then Some v else oget o k'.
Proof.
  induction o as [|[k0 v0] r IH]; simpl; intros H.
  - reflexivity.
  - destruct (eqb k k0) eqn:E0; [discriminate|].
    assert (G : oget ((k, v) :: (k0, v0) :: r) k' =
                if eqb k' k then Some v else if eqb k' k0 then Some v0 else oget r k')
      by reflexivity.
    destruct (index_of k0) as [n'|]; [destruct (N.ltb n' n)|]; try exact G.
    simpl. destruct (eqb k' k0) eqn:E1.
    + apply eqb_eq in E1. subst k0.
      destruct (eqb k' k) eqn:E2; [|reflexivity].
      apply eqb_eq in E2. subst. rewrite eqb_refl in E0. discriminate.
    + apply IH, H.
Qed.

(** Reading a dictionary after an assignment. *)
Lemma oget_oset {V} (o : obj V) k v k' :
  oget (oset o k v) k' = if eqb k' k then Some v else oget o k'.
Proof.
  unfold oset. destruct (oget o k) eqn:E.
  - rewrite oget_oreplace, E. reflexivity.
  - destruct (index_of k).
    + apply oget_oinsert_index, E.
    + apply oget_oappend, E.
Qed.

Lemma oget_oset_same {V} (o : obj V) k v : oget (oset o k v) k = Some v.
Proof. rewrite oget_oset, eqb_refl. reflexivity. Qed.

Lemma oget_oset_other {V} (o : obj V) k v k' :
  k' <> k -> oget (oset o k v) k' = oget o k'.
Proof.
  intros H. rewrite oget_oset. apply eqb_neq in H. rewrite H. reflexivity.
Qed.

(** An entry is what a read finds, whatever the object inherits. *)
Lemma oread_Found {V} (o : obj V) (k : jsstring) (v : V) :
  oget o k = Some v -> oread o k = Found v.
Proof. intros H. unfold oread. rewrite H. reflexivity. Qed.

Lemma oread_Found_inv {V} (o : obj V) (k : jsstring) (v : V) :
  oread o k = Found v -> oget o k = Some v.
Proof.
  unfold oread. destruct (oget o k); [intros [= ->]; reflexivity|].
  destruct (inherited k); discriminate.
Qed.

Lemma has_entry {V} (o : obj V) (k : jsstring) (v : V) :
  oget o k = Some v -> has o k = true.
Proof. intros H. unfold has. rewrite (oread_Found _ _ _ H). reflexivity. Qed.

(** Without an entry, a read finds something under an inherited name
    only. *)
Lemma has_spec {V} (o : obj V) (k : jsstring) :
  has o k = (is_some (oget o k) || inherited k)%bool.
Proof.
  unfold has, oread. destruct (oget o k); [reflexivity|].
  destruct (inherited k); reflexivity.
Qed.

Lemma mapM_ext {A B} (f g : A -> result B) (l : list A) :
  (forall a, f a = g a) -> mapM f l = mapM g l.
Proof.
  intros H. induction l as [|a r IH]; simpl; [reflexivity|].
  rewrite H, IH. reflexivity.
Qed.

Lemma mapM_Forall2 {A B} (f : A -> result B) (l : list A) (out : list B) :
  mapM f l = Ok out -> Forall2 (fun a b => f a = Ok b) l out.
Proof.
  revert out. induction l as [|a r IH]; simpl; intros out H.
  - injection H as <-. constructor.
  - destruct (f a) as [b|e] eqn:Ea; simpl in H; [|discriminate].
    destruct (mapM f r) as [bs|e]; simpl in H; [|discriminate].
    injection H as <-. constructor; [exact Ea|apply IH; reflexivity].
Qed.

Lemma mapM_returns {A B} (f : A -> result B) (l : list A) :
  Forall (fun a => exists b, f a = Ok b) l -> exists out, mapM f l = Ok out.
Proof.
  induction 1 as [|a r (b & Eb) _ (out & E)]; simpl.
  - eexists; reflexivity.
  - rewrite Eb, E. simpl. eexists; reflexivity.
Qed.

(* ================================================================== *)
(** ** Properties of the matcher of regular expressions *)

Lemma later_trans (i : nat) (s : jsstring) (i1 : nat) (s1 : jsstring) (i2 : nat) (s2 : jsstring) :
  later i s i1 s1 -> later i1 s1 i2 s2 -> later i s i2 s2.
Proof.
  intros (p1 & -> & ->) (p2 & -> & ->). exists (p1 ++ p2).
  rewrite <- app_assoc, length_app. split; [reflexivity|lia].
Qed.

Lemma later_refl (i : nat) (s : jsstring) : later i s i s.
Proof. exists []. split; [reflexivity|simpl; lia]. Qed.

Lemma later_length (i : nat) (s : jsstring) (i' : nat) (s' : jsstring) :
  later i s i' s' -> i < i' -> List.length s' < List.length s.
Proof.
  intros (pre & -> & ->) H. rewrite length_app. lia.
Qed.

(** The rounds of a star ask of the continuation, and of the matcher
    of the starred expression, only what lies later in the input. *)
Lemma star_loop_local (step : nat -> jsstring -> caps -> kont -> answer) :
  (forall i s c k1 k2,
      (forall i' s' c', later i s i' s' -> k1 i' s' c' = k2 i' s' c') ->
      step i s c k1 = step i s c k2) ->
  forall fuel i s c k1 k2,
    (forall i' s' c', later i s i' s' -> k1 i' s' c' = k2 i' s' c') ->
    star_loop step k1 fuel i s c = star_loop step k2 fuel i s c.
Proof.
  intros Hstep. induction fuel as [|f IH]; intros i s c k1 k2 H; simpl.
  - apply H, later_refl.
  - rewrite (Hstep i s c _ (fun i' s' c' =>
                              if i <? i' then star_loop step k2 f i' s' c' else None)).
    + rewrite (H i s c (later_refl i s)). reflexivity.
    + intros i' s' c' L. destruct (i <? i'); [|reflexivity].
      apply IH. intros i2 s2 c2 L2. apply H. eapply later_trans; eassumption.
Qed.

(** The matcher asks of its continuation only what lies later in the
    input. *)
Lemma run_local (r : re) :
  forall i s c k1 k2,
    (forall i' s' c', later i s i' s' -> k1 i' s' c' = k2 i' s' c') ->
    run r i s c k1 = run r i s c k2.
Proof.
  induction r as [p| |a IHa b IHb|a IHa b IHb|a IHa|g a IHa| |];
    intros i s c k1 k2 H; cbn [run].
  - destruct s as [|x s']; [reflexivity|]. destruct (p x); [|reflexivity].
    apply H. exists [x]. split; [reflexivity|simpl; lia].
  - apply H, later_refl.
  - apply IHa. intros i' s' c' L. apply IHb. intros i2 s2 c2 L2.
    apply H. eapply later_trans; eassumption.
  - rewrite (IHa i s c k1 k2 H), (IHb i s c k1 k2 H). reflexivity.
  - apply star_loop_local; [exact IHa|exact H].
  - apply IHa. intros i' s' c' L. apply H, L.
  - destruct (i =? 0); [apply H, later_refl|reflexivity].
  - destruct s; [apply H, later_refl|reflexivity].
Qed.

(** The fuel of a star is enough: with more rounds than the input has
    code units, further fuel changes nothing. *)
Lemma star_loop_fuel (a : re) (k : kont) :
  forall fuel fuel' i s c,
    List.length s < fuel -> List.length s < fuel' ->
    star_loop (run a) k fuel i s c = star_loop (run a) k fuel' i s c.
Proof.
  induction fuel as [|f IH]; intros fuel' i s c H H'; [lia|].
  destruct fuel' as [|f']; [lia|]. simpl.
  rewrite (run_local a i s c _
             (fun i' s' c' => if i <? i' then star_loop (run a) k f' i' s' c' else None)).
  - reflexivity.
  - intros i' s' c' L. destruct (i <? i') eqn:E; [|reflexivity].
    apply Nat.ltb_lt in E. pose proof (later_length _ _ _ _ L E).
    apply IH; lia.
Qed.

(** An answer of the matcher is an answer of its continuation. *)
Lemma star_loop_answer (step : nat -> jsstring -> caps -> kont -> answer) :
  (forall i s c k x, step i s c k = Some x -> exists i' s' c', k i' s' c' = Some x) ->
  forall fuel i s c k x,
    star_loop step k fuel i s c = Some x -> exists i' s' c', k i' s' c' = Some x.
Proof.
  intros Hstep. induction fuel as [|f IH]; intros i s c k x H; simpl in H; [eauto|].
  destruct (step i s c _) as [y|] eqn:E; [|eauto].
  injection H as ->. apply Hstep in E. destruct E as (i' & s' & c' & E).
  destruct (i <? i'); [|discriminate]. apply (IH _ _ _ _ _ E).
Qed.

Lemma run_answer (r : re) :
  forall i s c k x, run r i s c k = Some x -> exists i' s' c', k i' s' c' = Some x.
Proof.
  induction r as [p| |a IHa b IHb|a IHa b IHb|a IHa|g a IHa| |];
    intros i s c k x H; cbn [run] in H.
  - destruct s as [|y s']; [discriminate|]. destruct (p y); [eauto|discriminate].
  - eauto.
  - apply IHa in H. destruct H as (i' & s' & c' & H). apply (IHb _ _ _ _ _ H).
  - destruct (run a i s c k) as [y|] eqn:E.
    + injection H as ->. apply (IHa _ _ _ _ _ E).
    + apply (IHb _ _ _ _ _ H).
  - apply (star_loop_answer (run a) IHa _ _ _ _ _ _ H).
  - apply IHa in H. destruct H as (i' & s' & c' & H). eauto.
  - destruct (i =? 0); [eauto|discriminate].
  - destruct s; [eauto|discriminate].
Qed.

(** A match that starts at the index [i] ends between [i] and the end
    of the input. *)
Lemma run_here_bounds (r : re) (i : nat) (s : jsstring) (c : caps) (e : nat) (c' : caps) :
  run r i s c here = Some (e, c') -> i <= e <= i + List.length s.
Proof.
  intros H.
  rewrite (run_local r i s c here
             (fun i' s' c' =>
                if (i <=? i') && (i' <=? i + List.length s) then here i' s' c' else None)%bool)
    in H.
  - apply run_answer in H. destruct H as (i' & s' & c2 & H).
    destruct ((i <=? i') && (i' <=? i + List.length s))%bool eqn:E; [|discriminate].
    injection H as <- _. apply andb_true_iff in E. destruct E as [E1 E2].
    apply Nat.leb_le in E1, E2. lia.
  - intros i' s' c2 (pre & -> & ->).
    rewrite length_app.
    assert (E1 : (i <=? i + List.length pre) = true) by (apply Nat.leb_le; lia).
    assert (E2 : (i + List.length pre <=? i + (List.length pre + List.length s')) = true)
      by (apply Nat.leb_le; lia).
    rewrite E1, E2. reflexivity.
Qed.

Lemma search_bounds (r : re) (s : jsstring) (i st e : nat) (c : caps) :
  search r i s = Some (st, e, c) -> i <= st /\ st <= e <= i + List.length s.
Proof.
  revert i. induction s as [|x s IH]; intros i; simpl.
  - destruct (run r i [] [] _) as [[e' c']|] eqn:E; [|discriminate].
    intros [= <- <- <-]. fold here in E. apply run_here_bounds in E. simpl in E. lia.
  - destruct (run r i (x :: s) [] _) as [[e' c']|] eqn:E.
    + intros [= <- <- <-]. fold here in E. apply run_here_bounds in E. simpl in E. lia.
    + intros H. apply IH in H. lia.
Qed.

(** The fuel of a search for all matches is enough: with more rounds
    than the input from [i] on has code units, further fuel changes
    nothing. *)
Lemma spans_from_fuel (r : re) :
  forall fuel fuel' i s,
    List.length s < fuel -> List.length s < fuel' ->
    spans_from fuel r i s = spans_from fuel' r i s.
Proof.
  induction fuel as [|f IH]; intros fuel' i s H H'; [lia|].
  destruct fuel' as [|f']; [lia|]. simpl.
  destruct (search r i s) as [[[st e] c]|] eqn:E; [|reflexivity].
  apply search_bounds in E.
  destruct (e =? st) eqn:Ee.
  - destruct (skipn (e - i) s) as [|x rest] eqn:Es; [reflexivity|]. f_equal.
    assert (Hlen : List.length (skipn (e - i) s) <= List.length s)
      by (rewrite length_skipn; lia).
    rewrite Es in Hlen. simpl in Hlen. apply IH; lia.
  - apply Nat.eqb_neq in Ee. f_equal.
    assert (Hlen : List.length (skipn (e - i) s) < List.length s)
      by (rewrite length_skipn; lia).
    apply IH; lia.
Qed.

(* ================================================================== *)
(** ** Properties of the vocabulary store *)

Section SortFacts.

Variable A : Type.
Variable le : A -> A -> bool.
Variable R : A -> A -> Prop.
Hypothesis le_R : forall x y, le x y = true -> R x y.
Hypothesis nle_R : forall x y, le x y = false -> R y x.
Hypothesis R_trans : forall x y z, R x y -> R y z -> R x z.

Lemma insert_perm (x : A) (l : list A) : Permutation (x :: l) (insert le x l).
Proof.
  induction l as [|y r IH]; simpl.
  - apply Permutation_refl.
  - destruct (le x y).
    + apply Permutation_refl.
    + eapply perm_trans; [apply perm_swap|]. apply perm_skip, IH.
Qed.

Lemma sort_perm (l : list A) : Permutation l (sort le l).
Proof.
  induction l as [|x r IH]; simpl.
  - apply perm_nil.
  - eapply perm_trans; [apply perm_skip, IH|]. apply insert_perm.
Qed.

Lemma insert_sorted (x : A) (l : list A) :
  StronglySorted R l -> StronglySorted R (insert le x l).
Proof.
  induction 1 as [|y r Hs IH Hall]; simpl.
  - constructor; constructor.
  - destruct (le x y) eqn:E.
    + constructor.
      * constructor; assumption.
      * constructor; [apply le_R, E|].
        eapply Forall_impl; [|exact Hall].
        intros z Hz. eapply R_trans; [apply le_R, E|exact Hz].
    + constructor; [exact IH|].
      eapply Permutation_Forall; [apply insert_perm|].
      constructor; [apply nle_R, E|exact Hall].
Qed.

Lemma sort_sorted (l : list A) : StronglySorted R (sort le l).
Proof.
  induction l as [|x r IH]; simpl.
  - constructor.
  - apply insert_sorted, IH.
Qed.

Lemma sort_In (l : list A) (x : A) : In x (sort le l) <-> In x l.
Proof.
  split; intros H.
  - eapply Permutation_in; [apply Permutation_sym, sort_perm|exact H].
  - eapply Permutation_in; [apply sort_perm|exact H].
Qed.

End SortFacts.

(** The first hit of [find] in a sorted list is before every other. *)
Lemma find_sorted_first {A} (R : A -> A -> Prop) (f : A -> bool) (l : list A) (x : A) :
  StronglySorted R l -> (forall a, R a a) ->
  find f l = Some x ->
  In x l /\ f x = true /\ forall y, In y l -> f y = true -> R x y.
Proof.
  intros Hs Hrefl. induction Hs as [|a r Hs IH Hall]; simpl; [discriminate|].
  destruct (f a) eqn:E.
  - intros [= <-]. repeat split; auto.
    intros y [<-|Hy] _; [apply Hrefl|].
    rewrite Forall_forall in Hall. apply Hall, Hy.
  - intros H. destruct (IH H) as (Hin & Hf & Hmax).
    repeat split; auto.
    intros y [<-|Hy] Hfy; [congruence|]. apply Hmax; assumption.
Qed.

Lemma find_none_iff {A} (f : A -> bool) (l : list A) :
  find f l = None <-> forall y, In y l -> f y = false.
Proof.
  split.
  - apply find_none.
  - induction l as [|a r IH]; simpl; intros H; [reflexivity|].
    rewrite (H a (or_introl eq_refl)). apply IH. intros y Hy. apply H. right. exact Hy.
Qed.

Lemma every_from_spec {A} (f : A -> nat -> bool) (l : list A) (i : nat) (d : A) :
  every_from f i l = true <->
  forall n, n < List.length l -> f (nth n l d) (i + n) = true.
Proof.
  revert i. induction l as [|a r IH]; simpl; intros i.
  - split; [intros _ n Hn; lia|reflexivity].
  - rewrite andb_true_iff, IH. split.
    + intros [Ha Hr] [|n] Hn.
      * rewrite Nat.add_0_r. exact Ha.
      * replace (i + S n) with (S i + n) by lia. apply Hr. lia.
    + intros H. split.
      * specialize (H 0). rewrite Nat.add_0_r in H. apply H. lia.
      * intros n Hn. replace (S i + n) with (i + S n) by lia.
        apply (H (S n)). lia.
Qed.

(** What the test of [findKeyword] says of a keyword in lower case, when
    no token is empty. *)
Lemma every_word_ci_prefix (kw words : list jsstring) :
  lowered kw -> Forall (fun w => w <> []) words ->
  every_from (word_matches words) 0 kw = true <-> ci_prefix kw words.
Proof.
  intros Hlow Hne. unfold ci_prefix.
  unfold lowered in Hlow. rewrite Forall_forall in Hlow, Hne.
  split.
  - intros H0. pose proof (proj1 (every_from_spec _ _ _ []) H0) as H.
    simpl in H. clear H0.
    assert (Hlen : List.length kw <= List.length words).
    { destruct (le_lt_dec (List.length kw) (List.length words)) as [|Hlt]; [assumption|].
      specialize (H (List.length words) Hlt). unfold word_matches in H.
      rewrite (proj2 (nth_error_None words (List.length words))) in H by lia.
      discriminate. }
    split; [exact Hlen|].
    intros i Hi. specialize (H i Hi). unfold word_matches in H.
    rewrite (nth_error_nth' words [] ) in H by lia.
    apply andb_true_iff in H. destruct H as [_ H]. apply eqb_eq in H.
    rewrite H. rewrite toLowerCase_idem. reflexivity.
  - intros [Hlen H]. apply (every_from_spec _ _ _ []). simpl.
    intros n Hn. unfold word_matches.
    rewrite (nth_error_nth' words []) by lia.
    apply andb_true_iff. split.
    + apply negb_true_iff, eqb_neq, Hne, nth_In. lia.
    + apply eqb_eq. rewrite <- (H n Hn). symmetry. apply Hlow, nth_In, Hn.
Qed.

Lemma split_acc_units (sep : N) (s cur : jsstring) (w : jsstring) (c : N) :
  In w (split_acc sep cur s) -> In c w -> In c cur \/ In c s.
Proof.
  revert cur. induction s as [|x r IH]; simpl; intros cur Hw Hc.
  - destruct Hw as [<-|[]]. left. apply in_rev. exact Hc.
  - destruct (N.eqb x sep).
    + destruct Hw as [<-|Hw].
      * left. apply in_rev. exact Hc.
      * destruct (IH [] Hw Hc) as [[]|H]. right. right. exact H.
    + destruct (IH (x :: cur) Hw Hc) as [[<-|H]|H]; auto.
Qed.

Lemma split_lowered (s : jsstring) : lowered (split 32 (toLowerCase s)).
Proof.
  unfold lowered. apply Forall_forall. intros w Hw.
  unfold toLowerCase at 1.
  rewrite <- (map_id w) at 2. apply map_ext_in. intros c Hc.
  destruct (split_acc_units _ _ _ _ _ Hw Hc) as [[]|H].
  unfold toLowerCase in H. apply in_map_iff in H. destruct H as (c0 & <- & _).
  apply lower_unit_idem.
Qed.

Lemma lower_each_lowered (l : list JSON) (r : list jsstring) :
  lower_each l = Ok r -> Forall (fun s => exists s0, s = toLowerCase s0) r.
Proof.
  revert r. induction l as [|v l IH]; simpl; intros r H.
  - injection H as <-. constructor.
  - destruct v; try discriminate.
    destruct (lower_each l) as [r'|e]; simpl in H; [|discriminate].
    injection H as <-. constructor; [eauto|apply IH; reflexivity].
Qed.

Section SettersFacts.

Variable JSON_parse : jsstring -> option JSON.

(** What a call of [setKeywords] that returns has registered. *)
Lemma setKeywords_ok (arg : jsstring) (p : Provider) :
  fst (setKeywords JSON_parse arg p) = Ok tt ->
  exists v list_,
    JSON_parse arg = Some v /\ map_toLowerCase v = Ok list_ /\
    _keywords (snd (setKeywords JSON_parse arg p)) =
    sort (fun a b => List.length b <=? List.length a) (List.map (split 32) list_).
Proof.
  unfold setKeywords, bindM, modify, parse, lift. simpl.
  destruct (JSON_parse arg) as [v|]; [|discriminate].
  destruct (map_toLowerCase v) as [list_|e] eqn:E; [|discriminate].
  intros _. exists v, list_. split; [reflexivity|]. split; [exact E|reflexivity].
Qed.

Lemma setKeywords_lowered (arg : jsstring) (p : Provider) (kw : list jsstring) :
  fst (setKeywords JSON_parse arg p) = Ok tt ->
  In kw (_keywords (snd (setKeywords JSON_parse arg p))) -> lowered kw.
Proof.
  intros H Hin. destruct (setKeywords_ok _ _ H) as (v & list_ & _ & Hl & Hk).
  rewrite Hk in Hin.
  eapply Permutation_in in Hin; [|apply Permutation_sym, sort_perm].
  apply in_map_iff in Hin. destruct Hin as (s & <- & Hs).
  destruct v; try discriminate. simpl in Hl.
  apply lower_each_lowered in Hl. rewrite Forall_forall in Hl.
  destruct (Hl s Hs) as (s0 & ->). apply split_lowered.
Qed.

Lemma setKeywords_sorted (arg : jsstring) (p : Provider) :
  fst (setKeywords JSON_parse arg p) = Ok tt ->
  StronglySorted (fun a b => List.length b <= List.length a)
    (_keywords (snd (setKeywords JSON_parse arg p))).
Proof.
  intros H. destruct (setKeywords_ok _ _ H) as (v & list_ & _ & _ & Hk).
  rewrite Hk.
  apply sort_sorted with (R := fun a b => List.length b <= List.length a).
  - intros x y E. apply Nat.leb_le in E. exact E.
  - intros x y E. apply Nat.leb_gt in E. lia.
  - intros x y z ? ?. lia.
Qed.

(** C2, amended: for every keyword list that a returning call of
    [setKeywords] registered, and every sequence of tokens none of
    which is the empty string, [findKeyword] returns a registered
    keyword that is a case-insensitive positional prefix of the tokens
    and that no registered keyword which is such a prefix exceeds in
    word count; it returns none when the sequence is empty, and when
    it returns none on a sequence that is not empty, no registered
    keyword is such a prefix. *)
Theorem findKeyword_longest_prefix (arg : jsstring) (p : Provider) (words : list jsstring) :
  fst (setKeywords JSON_parse arg p) = Ok tt ->
  Forall (fun w => w <> []) words ->
  let p' := snd (setKeywords JSON_parse arg p) in
  (words = [] -> findKeyword p' words = None) /\
  match findKeyword p' words with
  | Some kw =>
      In kw (_keywords p') /\ ci_prefix kw words /\
      forall kw', In kw' (_keywords p') -> ci_prefix kw' words ->
                  List.length kw' <= List.length kw
  | None =>
      words = [] \/
      forall kw', In kw' (_keywords p') -> ci_prefix kw' words -> False
  end.
Proof.
  intros Hok Hne p'. split; [intros ->; reflexivity|].
  destruct words as [|w0 ws] eqn:Ew; [left; reflexivity|]. rewrite <- Ew in *.
  assert (E : findKeyword p' words =
              find (fun item => every_from (word_matches words) 0 item) (_keywords p'))
    by (rewrite Ew; reflexivity).
  rewrite E. clear E.
  destruct (find _ _) as [kw|] eqn:F.
  - eapply find_sorted_first in F;
      [|apply setKeywords_sorted, Hok|intros a; simpl; lia].
    destruct F as (Hin & Hf & Hmax). split; [exact Hin|]. split.
    + apply every_word_ci_prefix; auto. eapply setKeywords_lowered; eauto.
    + intros kw' Hin' Hp. apply Hmax; [exact Hin'|].
      apply every_word_ci_prefix; auto. eapply setKeywords_lowered; eauto.
  - right. intros kw' Hin' Hp.
    rewrite find_none_iff in F. specialize (F kw' Hin').
    apply every_word_ci_prefix in Hp; auto; [congruence|].
    eapply setKeywords_lowered; eauto.
Qed.

End SettersFacts.


(* ------------------------------------------------------------------ *)
(** *** Scenarios of the vocabulary store *)

Example scenarioA_keywords :
  _keywords scenarioA = [[str "when"; str "not"]; [str "when"]].
Proof. reflexivity. Qed.

(** Scenario A: the longer keyword is the match. *)
Example scenarioA_match :
  findKeyword scenarioA [str "when"; str "not"; str "x"] = Some [str "when"; str "not"].
Proof. reflexivity. Qed.

Lemma findKeyword_longest_prefix_witness :
  let arg := payload (JArr [JStr (str "when"); JStr (str "when not")]) in
  let words := [str "when"; str "not"; str "x"] in
  let p' := snd (setKeywords Host.JSON_parse arg new_provider) in
  (words = [] -> findKeyword p' words = None) /\
  match findKeyword p' words with
  | Some kw =>
      In kw (_keywords p') /\ ci_prefix kw words /\
      forall kw', In kw' (_keywords p') -> ci_prefix kw' words ->
                  List.length kw' <= List.length kw
  | None =>
      words = [] \/
      forall kw', In kw' (_keywords p') -> ci_prefix kw' words -> False
  end.
Proof.
  apply (@findKeyword_longest_prefix Host.JSON_parse
           (payload (JArr [JStr (str "when"); JStr (str "when not")]))
           new_provider [str "when"; str "not"; str "x"]).
  - vm_compute. reflexivity.
  - repeat constructor; discriminate.
Defined.

(** The keyword list with the one keyword of a single empty word, and
    the token sequence of a single empty token: the keyword is a
    prefix of the tokens, and [findKeyword] finds nothing. *)
Lemma findKeyword_empty_token_counterexample :
  let arg := payload (JArr [JStr []]) in
  let p' := snd (setKeywords Host.JSON_parse arg new_provider) in
  fst (setKeywords Host.JSON_parse arg new_provider) = Ok tt /\
  _keywords p' = [[[]]] /\
  ci_prefix [[]] [[]] /\
  findKeyword p' [[]] = None.
Proof.
  simpl. repeat split.
  - simpl. lia.
Qed.

Section SettersFailures.

Variable JSON_parse : jsstring -> option JSON.

(** A payload that does not parse: [setKeywords] throws with the
    keyword list already emptied. *)
Lemma setKeywords_malformed (arg : jsstring) (p : Provider) :
  JSON_parse arg = None ->
  setKeywords JSON_parse arg p = (Throw SyntaxError, with_keywords p []).
Proof.
  intros H. unfold setKeywords, bindM, modify, parse, lift. simpl.
  rewrite H. reflexivity.
Qed.

(** The sibling setters parse before they clear: on such a payload they
    throw and leave the provider as it was. *)
Lemma setKeypairs_malformed (arg : jsstring) (p : Provider) :
  JSON_parse arg = None -> setKeypairs JSON_parse arg p = (Throw SyntaxError, p).
Proof.
  intros H. unfold setKeypairs, bindM, parse, lift. rewrite H. reflexivity.
Qed.

Lemma setMetatags_malformed (arg : jsstring) (p : Provider) :
  JSON_parse arg = None -> setMetatags JSON_parse arg p = (Throw SyntaxError, p).
Proof.
  intros H. unfold setMetatags, bindM, parse, lift. rewrite H. reflexivity.
Qed.

End SettersFailures.

(** C1: a call of [setKeywords] with a payload that does not parse
    fails, and a later valid call of [setStepList] succeeds; but the
    keyword list is not left as it was: [setKeywords] empties it before
    it parses, and after the failed call no keyword is found where
    [when] was found before it. *)
Theorem setKeywords_malformed_clears_keywords :
  let p := snd (setKeywords Host.JSON_parse (payload (JArr [JStr (str "when")])) new_provider) in
  let failed := setKeywords Host.JSON_parse (str "[when") p in
  let steps := payload (JArr [JObj [(str "insertText", JStr (str "when ready"))]]) in
  findKeyword p [str "when"] = Some [str "when"] /\
  fst failed = Throw SyntaxError /\
  _keywords (snd failed) = [] /\
  findKeyword (snd failed) [str "when"] = None /\
  fst (setStepList Host.JSON_parse steps false (snd failed)) = Ok tt.
Proof. vm_compute. repeat split. Qed.

(* ================================================================== *)
(** ** Properties of the variables *)

Lemma forEach_modify {A} (f : A -> Provider -> Provider) (l : list A) (p : Provider) :
  forEach l (fun a => modify (f a)) p = (Ok tt, fold_left (fun q a => f a q) l p).
Proof.
  revert p. induction l as [|a r IH]; intros p; simpl; [reflexivity|].
  unfold bindM, modify at 1. simpl. apply IH.
Qed.

Lemma bindM_ok {A B} (c : M A) (k : A -> M B) (p p' : Provider) (a : A) :
  c p = (Ok a, p') -> bindM c k p = k a p'.
Proof. intros H. unfold bindM. rewrite H. reflexivity. Qed.


(** The labels depend on the elements, the keywords and the steps
    alone; [updateStepLabels] changes the steps alone. *)
Lemma updateStepLabel_ext (p q : Provider) (e : Step) :
  _elements p = _elements q -> _keywords p = _keywords q ->
  updateStepLabel p e = updateStepLabel q e.
Proof.
  intros He Hk. unfold updateStepLabel.
  rewrite (mapM_ext (element_word p) (element_word q))
    by (intros w; unfold element_word; rewrite He; reflexivity).
  destruct (mapM (element_word q) (head e)) as [words|x]; [|reflexivity].
  unfold bind, findKeyword. rewrite Hk. reflexivity.
Qed.

Lemma updateEntries_ext (p q : Provider) (steps : obj Step) :
  _elements p = _elements q -> _keywords p = _keywords q ->
  updateEntries p steps = updateEntries q steps.
Proof.
  intros He Hk. induction steps as [|[k e] r IH]; [reflexivity|].
  cbn [updateEntries]. rewrite (updateStepLabel_ext p q e He Hk), IH. reflexivity.
Qed.


Lemma labelled_ext (p q : Provider) (e : Step) :
  _elements p = _elements q -> _keywords p = _keywords q ->
  labelled p e -> labelled q e.
Proof.
  intros He Hk H. unfold labelled, word_labelled in *. rewrite <- He. exact H.
Qed.

Lemma element_word_labelled (p : Provider) (word : jsstring) :
  word_labelled p word = true -> exists w, element_word p word = Ok w.
Proof.
  unfold word_labelled, element_word. cbv zeta.
  destruct (test param_re word); cbn [negb orb]; [|eexists; reflexivity].
  destruct (oread (_elements p) _) as [elem| |]; [|discriminate|eexists; reflexivity].
  destruct (truthy elem); cbn [negb orb]; [|eexists; reflexivity].
  unfold String_. intros H. apply negb_true_iff in H. rewrite H. eexists. reflexivity.
Qed.

(** The loop body returns for an entry that can be labelled. *)
Lemma labelled_returns (p : Provider) (e : Step) :
  labelled p e -> exists e', updateStepLabel p e = Ok e'.
Proof.
  intros H. unfold labelled in H. rewrite forallb_forall in H.
  destruct (mapM_returns (element_word p) (head e)) as (words & E).
  { apply Forall_forall. intros w Hw. apply element_word_labelled, H, Hw. }
  unfold updateStepLabel. rewrite E. eexists. reflexivity.
Qed.

(** The loop of [updateStepLabels] over entries that can all be
    labelled: it returns, and each entry has its label. *)
Lemma updateEntries_labelled (p : Provider) (steps : obj Step) :
  Forall (fun kv => labelled p (snd kv)) steps ->
  fst (updateEntries p steps) = Ok tt /\
  forall k e, oget steps k = Some e ->
    exists e', updateStepLabel p e = Ok e' /\ oget (snd (updateEntries p steps)) k = Some e'.
Proof.
  induction 1 as [|[k0 e0] r H0 Hr [IH1 IH2]]; cbn [updateEntries].
  - split; [reflexivity|]. intros k e H. discriminate H.
  - apply labelled_returns in H0. destruct H0 as [e0' H0].
    cbn [snd] in H0. rewrite H0. cbn [fst snd]. split; [exact IH1|].
    intros k e. cbn [oget]. destruct (eqb k k0).
    + intros [= <-]. exists e0'. split; [exact H0|reflexivity].
    + apply IH2.
Qed.





Section VariablesFacts.

Variable JSON_parse : jsstring -> option JSON.



End VariablesFacts.





(* ------------------------------------------------------------------ *)
(** *** The variables of a scenario *)


(** The hover of a step line that quotes the variable in another case. *)
Example hover_foo :
  let line := str "click button " ++ Host.quote (str "FOO") in
  let model := Host.createModel (str "turbo-gherkin") [line] in
  option_map (fun h => nth 2 (contents h) [])
    (match provideHover withFoo model {| lineNumber := 1; column := 1 |} with
     | Ok h => Some h
     | Throw _ => None
     end)
  = Some (str "**Foo** = 1").
Proof. vm_compute. reflexivity. Qed.


(** Two names of one payload that are equal in lower case: the later
    one is the one registered. *)
Example setVariables_same_lower_case :
  let p := snd (setVariables Host.JSON_parse
                  (payload (JObj [(str "Foo", JNum 1); (str "FOO", JNum 2)]))
                  false new_provider) in
  _variables p = [(str "foo", {| name := str "FOO"; value := str "2" |})].
Proof. vm_compute. reflexivity. Qed.

(* ================================================================== *)
(** ** Properties of the line classifier *)

(** White space under a star, before something that no white space
    begins: the star takes the white space there is. *)
Lemma star_spaces (k : kont) :
  (forall i x s c, is_space x = true -> k i (x :: s) c = None) ->
  forall fuel s i c,
    List.length s < fuel ->
    star_loop (run (Chr is_space)) k fuel i s c = k (i + takeSpaces s) (trimStart s) c.
Proof.
  intros Hk. induction fuel as [|f IH]; intros s i c Hf; [lia|].
  simpl. destruct s as [|x r]; simpl.
  - rewrite Nat.add_0_r. reflexivity.
  - destruct (is_space x) eqn:E.
    + assert (L : (i <? S i) = true) by (apply Nat.ltb_lt; lia).
      rewrite L. rewrite IH by (simpl in Hf; lia).
      replace (S i + takeSpaces r) with (i + S (takeSpaces r)) by lia.
      destruct (k (i + S (takeSpaces r)) (trimStart r) c) eqn:Ek; [reflexivity|].
      apply Hk, E.
    + rewrite Nat.add_0_r. reflexivity.
Qed.

Lemma search_Bol_later (r : re) (s : jsstring) (i : nat) :
  search (Seq Bol r) (S i) s = None.
Proof.
  revert i. induction s as [|x s IH]; intros i; simpl; [reflexivity|]. apply IH.
Qed.

(** A pattern [^\s*A], where no white space begins a match of [A]: it
    matches when [A] matches after the leading white space. *)
Lemma test_after_spaces (a : re) (w : jsstring) :
  (forall i x s c, is_space x = true -> run a i (x :: s) c here = None) ->
  test (Seq Bol (Seq space_star a)) w
  = is_some (run a (takeSpaces w) (trimStart w) [] here).
Proof.
  intros Ha. unfold test, exec.
  assert (E : run (Seq Bol (Seq space_star a)) 0 w [] here
              = run a (takeSpaces w) (trimStart w) [] here).
  { change (run (Seq Bol (Seq space_star a)) 0 w [] here)
      with (star_loop (run (Chr is_space)) (fun i' s' c' => run a i' s' c' here)
              (S (List.length w)) 0 w []).
    rewrite (star_spaces (fun i' s' c' => run a i' s' c' here)); auto. }
  destruct w as [|x w']; unfold search; fold search; fold here; rewrite E.
  - destruct (run a _ _ _ _) as [[e c]|]; reflexivity.
  - rewrite search_Bol_later.
    destruct (run a _ _ _ _) as [[e c]|]; reflexivity.
Qed.

Lemma not_space_units :
  is_space c_at = false /\ is_space c_pipe = false /\ is_space c_hash = false /\
  is_space c_slash = false /\ is_space c_quote = false.
Proof. repeat split. Qed.

(** What [getToken] answers, by the text after the leading white
    space: [Empty] when nothing is left, [Instruction] for a leading
    [@], [Parameter] for a leading bar, [Comment] for a leading hash or
    a leading slash, [Multiline] for three leading double quotes, and
    [Operator] otherwise. *)
Lemma getToken_by_first (text : jsstring) :
  getToken text =
  match trimStart text with
  | [] => Empty
  | c :: _ =>
      if N.eqb c c_at then Instruction
      else if N.eqb c c_pipe then Parameter_
      else if (N.eqb c c_hash || N.eqb c c_slash)%bool then Comment
      else if starts_with [c_quote; c_quote; c_quote] (trimStart text) then Multiline
      else Operator
  end.
Proof.
  unfold getToken, blank_re, instruction_re, parameter_re, comment_class_re, multiline_re.
  cbn [Seqs].
  rewrite (test_after_spaces Eol) by (intros; reflexivity).
  rewrite (test_after_spaces (Lit c_at)) by no_space_start.
  rewrite (test_after_spaces (Lit c_pipe)) by no_space_start.
  rewrite (test_after_spaces (Chr (one_of [c_hash; c_pipe; c_slash; c_slash])))
    by no_space_start.
  rewrite (test_after_spaces (Seq (Lit c_quote) (Seq (Lit c_quote) (Lit c_quote))))
    by no_space_start.
  destruct (trimStart text) as [|c r]; [reflexivity|].
  unfold Lit, one_of. cbn [run existsb is_some starts_with].
  rewrite (N.eqb_sym c_at c), (N.eqb_sym c_pipe c).
  destruct (N.eqb c c_at), (N.eqb c c_pipe), (N.eqb c c_hash), (N.eqb c c_slash),
    (N.eqb c_quote c); try reflexivity.
  destruct r as [|c2 [|c3 r]]; try reflexivity;
    destruct (N.eqb c_quote c2); try reflexivity.
  destruct (N.eqb c_quote c3); reflexivity.
Qed.

(** A line that begins with one slash is a Comment line. *)
Lemma getToken_single_slash (rest : jsstring) : getToken (c_slash :: rest) = Comment.
Proof. rewrite getToken_by_first. reflexivity. Qed.


(** C7: the classifier answers Comment for every line that begins with
    one slash, whatever follows it: the text need not begin with [#]
    or [//].  So [/x] is a Comment line, where the claim has an
    Operator line; a slash further on leaves the line an Operator
    line. *)
Theorem getToken_slash_is_comment :
  (forall rest, getToken (c_slash :: rest) = Comment) /\
  getToken (str "/x") = Comment /\
  getToken (str "  / 2") = Comment /\
  getToken (str "x / y") = Operator.
Proof.
  split; [apply getToken_single_slash|].
  rewrite !getToken_by_first. repeat split.
Qed.

(* ================================================================== *)
(** ** Properties of the folding engine *)

Lemma run_end_scan (t : VAToken) (rest : list VAIndent) (j k : nat) :
  run_end t j k rest = scan (not_token t) always j k rest.
Proof.
  revert j k. induction rest as [|l r IH]; intros j k; simpl; [reflexivity|].
  unfold not_token at 1. destruct (token_eqb (token l) t); simpl; [apply IH|reflexivity].
Qed.

Lemma section_end_scan (rest : list VAIndent) (j k : nat) :
  section_end j k rest = scan (is_token Section_) always j k rest.
Proof.
  revert j k. induction rest as [|l r IH]; intros j k; simpl; [reflexivity|].
  unfold is_token at 1. destruct (token_eqb (token l) Section_); [reflexivity|apply IH].
Qed.

Lemma operator_end_scan (d : option nat) (rest : list VAIndent) (j k : nat) :
  operator_end d j k rest = scan (stop_operator d) (not_token Empty) j k rest.
Proof.
  revert j k. induction rest as [|l r IH]; intros j k; simpl; [reflexivity|].
  rewrite !IH. generalize (scan (stop_operator d) (not_token Empty) (S j)) as F. intros F.
  unfold stop_operator, not_token.
  destruct (token l); simpl; try reflexivity;
    destruct (num_le (indent l) d); reflexivity.
Qed.

Lemma fold_end_rule (lines : list VAIndent) (i : nat) :
  fold_end lines i =
  match rule (nth i lines dummy_line) with
  | Some (stop, ext) => scan stop ext (S i) i (skipn (S i) lines)
  | None => i
  end.
Proof.
  unfold fold_end, rule.
  destruct (token (nth i lines dummy_line));
    rewrite ?run_end_scan, ?section_end_scan, ?operator_end_scan; reflexivity.
Qed.

Lemma scan_lower (stop ext : VAIndent -> bool) (rest : list VAIndent) (j k : nat) :
  k <= j -> k <= scan stop ext j k rest.
Proof.
  revert j k. induction rest as [|l r IH]; intros j k H; simpl; [lia|].
  destruct (stop l); [lia|].
  destruct (ext l).
  - specialize (IH (S j) j). lia.
  - apply IH. lia.
Qed.

Lemma scan_upper (stop ext : VAIndent -> bool) (rest : list VAIndent) (j k : nat) :
  k < j -> scan stop ext j k rest < j + List.length rest.
Proof.
  revert j k. induction rest as [|l r IH]; intros j k H; simpl; [lia|].
  destruct (stop l); [lia|].
  destruct (ext l).
  - specialize (IH (S j) j). lia.
  - specialize (IH (S j) k). lia.
Qed.

(** A scan that ends at or after an entry has passed the entries before
    it and the entry itself. *)
Lemma scan_reach (stop ext : VAIndent -> bool) (a : list VAIndent) (l' : VAIndent)
  (rest' : list VAIndent) (j k : nat) :
  k < j ->
  j + List.length a <= scan stop ext j k (a ++ l' :: rest') ->
  stop l' = false /\
  exists k1, k1 <= j + List.length a /\
             scan stop ext j k (a ++ l' :: rest')
             = scan stop ext (S (j + List.length a)) k1 rest'.
Proof.
  revert j k. induction a as [|x a IH]; intros j k Hk H; simpl in *.
  - rewrite Nat.add_0_r in *. destruct (stop l'); [lia|].
    split; [reflexivity|].
    exists (if ext l' then j else k). split; [destruct (ext l'); lia|reflexivity].
  - destruct (stop x); [lia|].
    destruct (IH (S j) (if ext x then j else k)) as (Hs & k1 & Hk1 & E).
    + destruct (ext x); lia.
    + lia.
    + split; [exact Hs|]. exists k1. split; [lia|].
      rewrite E. f_equal. lia.
Qed.

(** Two scans over the same entries: when the second stops wherever the
    first does, and extends only where the first does, it ends no
    later than the first, provided the first ends at or after the
    start of the second. *)
Lemma scan_le (stop ext stop' ext' : VAIndent -> bool) :
  (forall l, stop l = true -> stop' l = true) ->
  (forall l, stop' l = false -> ext' l = true -> ext l = true) ->
  forall rest j k k',
    k' <= scan stop ext j k rest ->
    scan stop' ext' j k' rest <= scan stop ext j k rest.
Proof.
  intros H1 H2. induction rest as [|l r IH]; intros j k k' H; simpl in *; [exact H|].
  destruct (stop l) eqn:Es.
  - rewrite (H1 l Es). exact H.
  - destruct (stop' l) eqn:Es'; [exact H|].
    destruct (ext' l) eqn:Ee'.
    + rewrite (H2 l Es' Ee'). apply IH. apply scan_lower. lia.
    + apply IH. exact H.
Qed.

Lemma skipn_split {A} (l : list A) (i i' : nat) (d : A) :
  i < i' -> i' < List.length l ->
  skipn (S i) l = firstn (i' - S i) (skipn (S i) l) ++ nth i' l d :: skipn (S i') l.
Proof.
  intros H1 H2.
  rewrite <- (firstn_skipn (i' - S i) (skipn (S i) l)) at 1. f_equal.
  rewrite skipn_skipn. replace (i' - S i + S i) with i' by lia.
  clear H1. revert i' H2. induction l as [|a r IH]; intros i' H; simpl in *; [lia|].
  destruct i' as [|i']; [reflexivity|]. apply IH. lia.
Qed.

(** The rules of two lines, the second of which the scan of the first
    has passed. *)
Lemma rule_passed (l l' : VAIndent) (stop ext stop' ext' : VAIndent -> bool) :
  classified l -> classified l' ->
  rule l = Some (stop, ext) -> rule l' = Some (stop', ext') -> stop l' = false ->
  (forall x, stop x = true -> stop' x = true) /\
  (forall x, stop' x = false -> ext' x = true -> ext x = true).
Proof.
  intros [[d Hd] Hc0] [[d' Hd'] Hc] Hr Hr' Hs. unfold rule in Hr, Hr'.
  destruct (token l) eqn:Tl; try discriminate; injection Hr as <- <-;
    destruct (token l') eqn:Tl'; try discriminate; injection Hr' as <- <-;
    unfold not_token, is_token, stop_operator, always in *;
    try (rewrite Tl' in Hs; simpl in Hs; try discriminate);
    (split; intros x); destruct (token x) eqn:Tx; simpl;
    try congruence; try reflexivity; intros;
    rewrite ?Hd, ?Hd' in *;
    try (destruct (indent x) as [w|]; simpl in *; [|discriminate]);
    unfold num_le in *;
    repeat match goal with
    | H : (_ <=? _) = true |- _ => apply Nat.leb_le in H
    | H : (_ <=? _) = false |- _ => apply Nat.leb_gt in H
    | |- (_ <=? _) = true => apply Nat.leb_le
    end;
    try lia;
    try (destruct Hc as [Hc|Hc]; [congruence|]; injection Hc as ->; lia).
Qed.

Lemma fold_end_lower (lines : list VAIndent) (i : nat) : i <= fold_end lines i.
Proof.
  rewrite fold_end_rule. destruct (rule _) as [[stop ext]|]; [|lia].
  apply scan_lower. lia.
Qed.

(** The fold of a line inside the fold of an earlier line ends inside
    it. *)
Lemma fold_end_nested (lines : list VAIndent) (i i' : nat) :
  Forall classified lines ->
  i < i' -> i' <= fold_end lines i ->
  fold_end lines i' <= fold_end lines i.
Proof.
  intros Hc Hlt Hin. rewrite (fold_end_rule lines i) in *.
  destruct (rule (nth i lines dummy_line)) as [[stop ext]|] eqn:Ri; [|lia].
  assert (Hlen : i' < List.length lines).
  { pose proof (scan_upper stop ext (skipn (S i) lines) (S i) i (Nat.lt_succ_diag_r i)) as U.
    rewrite length_skipn in U.
    destruct (le_lt_dec (List.length lines) (S i)) as [Hs|Hs]; [|lia].
    rewrite skipn_all2 in Hin by lia. simpl in Hin. lia. }
  rewrite (skipn_split lines i i' dummy_line Hlt Hlen) in *.
  set (a := firstn (i' - S i) (skipn (S i) lines)) in *.
  assert (La : List.length a = i' - S i).
  { unfold a. rewrite length_firstn, length_skipn. lia. }
  destruct (scan_reach stop ext a (nth i' lines dummy_line) (skipn (S i') lines) (S i) i)
    as (Hs & k1 & Hk1 & E); [lia|lia|].
  rewrite E in *. replace (S (S i + List.length a)) with (S i') in * by lia.
  rewrite (fold_end_rule lines i').
  destruct (rule (nth i' lines dummy_line)) as [[stop' ext']|] eqn:Ri'; [|exact Hin].
  assert (Hc' : classified (nth i' lines dummy_line)).
  { rewrite Forall_forall in Hc. apply Hc, nth_In, Hlen. }
  assert (Hci : classified (nth i lines dummy_line)).
  { rewrite Forall_forall in Hc. apply Hc, nth_In. lia. }
  destruct (rule_passed _ _ _ _ _ _ Hci Hc' Ri Ri' Hs) as [H1 H2].
  apply (scan_le stop ext stop' ext' H1 H2). exact Hin.
Qed.

(** The ranges of the second pass: one for each line it visits whose
    end lies after it. *)
Lemma foldingLoop_ranges (lines : list VAIndent) (lineCount fuel i : nat) (r : FoldingRange) :
  In r (foldingLoop lines lineCount fuel i) ->
  exists s, i <= s <= lineCount /\ s < fold_end lines s /\
            r = {| fr_kind := fold_kind (token (nth s lines dummy_line));
                   fr_start := s; fr_end := fold_end lines s |}.
Proof.
  revert i. induction fuel as [|f IH]; intros i; simpl; [intros []|].
  destruct (i <=? lineCount) eqn:E; [|intros []].
  apply Nat.leb_le in E. intros H. apply in_app_or in H. destruct H as [H|H].
  - destruct (i <? fold_end lines i) eqn:E2; [|destruct H].
    apply Nat.ltb_lt in E2. destruct H as [<-|[]].
    exists i. split; [lia|]. split; [exact E2|reflexivity].
  - apply IH in H. destruct H as (s & Hs & Hlt & ->).
    exists s. split; [|split; [exact Hlt|reflexivity]].
    pose proof (fold_end_lower lines i).
    destruct (token (nth i lines dummy_line)); lia.
Qed.

Lemma indentStep_number (tabSize_ : nat) (s : jsstring) (n : nat) :
  0 < tabSize_ -> exists m, List.fold_left (indentStep tabSize_) s (Some n) = Some m.
Proof.
  intros H. revert n. induction s as [|c r IH]; intros n; simpl; [eauto|].
  destruct (N.eqb c 9); [|apply IH].
  destruct (tabSize_ =? 0) eqn:E; [apply Nat.eqb_eq in E; lia|apply IH].
Qed.

Lemma getIndent_number (text : jsstring) (tabSize_ : nat) :
  0 < tabSize_ -> exists m, getIndent text tabSize_ = Some m.
Proof.
  intros H. unfold getIndent.
  destruct (indentStep_number tabSize_
              (firstn (match exec (Not is_space) text with
                       | Some (st, _, _) => st
                       | None => 0
                       end) text) 0 H) as (m & ->).
  simpl. eauto.
Qed.

Lemma classifyLines_classified (p : Provider) (tabSize_ : nat) (texts : list jsstring) :
  0 < tabSize_ ->
  forall multiline entries,
    classifyLines p tabSize_ multiline texts = Ok entries -> Forall classified entries.
Proof.
  intros Htab.
  induction texts as [|text rest IH]; intros multiline entries; simpl.
  - intros [= <-]. constructor.
  - set (token1 := if multiline then Multiline else getToken text).
    set (ml := if multiline then _ else _).
    destruct (negb (token_eqb token1 Operator)) eqn:Et; simpl.
    + destruct (classifyLines p tabSize_ ml rest) as [es|e] eqn:Er; simpl; [|discriminate].
      intros [= <-]. constructor; [|apply (IH _ _ Er)].
      split; [exists 0; reflexivity|right; reflexivity].
    + destruct (isSection p text []) as [sec|e]; simpl; [|discriminate].
      assert (T : token1 = Operator) by (destruct token1; simpl in Et; congruence).
      destruct sec; simpl;
        (destruct (classifyLines p tabSize_ ml rest) as [es|e] eqn:Er; simpl; [|discriminate]);
        intros [= <-]; (constructor; [|apply (IH _ _ Er)]).
      * split; [exists 0; reflexivity|right; reflexivity].
      * split; [apply getIndent_number, Htab|left; exact T].
Qed.

Lemma classifyLines_throws (p : Provider) (tabSize_ : nat) (texts : list jsstring) :
  forall multiline e,
    classifyLines p tabSize_ multiline texts = Throw e -> _matcher p = None.
Proof.
  induction texts as [|text rest IH]; intros multiline e; simpl; [discriminate|].
  set (token1 := if multiline then Multiline else getToken text).
  set (ml := if multiline then _ else _).
  destruct (negb (token_eqb token1 Operator)); simpl.
  - destruct (classifyLines p tabSize_ ml rest) as [es|e'] eqn:Er; simpl; [discriminate|].
    intros _. apply (IH _ _ Er).
  - unfold isSection, matcher. destruct (_matcher p) as [m|]; [|reflexivity]. simpl.
    destruct (oget (reg_section m) []) as [t|]; simpl.
    + destruct (t text); simpl;
        (destruct (classifyLines p tabSize_ ml rest) as [es|e'] eqn:Er; simpl; [discriminate|]);
        intros _; apply (IH _ _ Er).
    + destruct (classifyLines p tabSize_ ml rest) as [es|e'] eqn:Er; simpl; [discriminate|].
      intros _. apply (IH _ _ Er).
Qed.

(** C5, amended: for a positive tab width, every folding range that
    [getCodeFolding] returns has its start before its end and the kind
    none, Comment or Region, and any two of the ranges are either the
    same range, or apart, or one lies inside the other (ranges do
    share lines, by nesting).  [getCodeFolding] throws only when no
    matcher is set. *)
Theorem getCodeFolding_ranges (p : Provider) (tabSize_ lineCount : nat)
  (getLineContent_ : nat -> jsstring) :
  0 < tabSize_ ->
  match getCodeFolding p tabSize_ lineCount getLineContent_ with
  | Ok ranges =>
      (forall r, In r ranges -> fr_start r < fr_end r /\ folding_kind r) /\
      (forall r1 r2, In r1 ranges -> In r2 ranges -> r1 = r2 \/ apart_or_nested r1 r2)
  | Throw _ => _matcher p = None
  end.
Proof.
  intros Htab. unfold getCodeFolding.
  destruct (classifyLines p tabSize_ false (List.map getLineContent_ (seq 1 lineCount)))
    as [entries|e] eqn:E; simpl; [|eapply classifyLines_throws; exact E].
  set (lines := dummy_line :: entries).
  assert (Hc : Forall classified lines).
  { constructor; [split; [exists 0; reflexivity|right; reflexivity]|].
    eapply classifyLines_classified; [exact Htab|exact E]. }
  split.
  - intros r Hr. apply foldingLoop_ranges in Hr. destruct Hr as (s & _ & Hlt & ->).
    unfold folding_kind. cbn [fr_start fr_end fr_kind].
    split; [exact Hlt|]. unfold fold_kind.
    destruct (token (nth s lines dummy_line));
      first [left; reflexivity | right; left; reflexivity | right; right; reflexivity].
  - intros r1 r2 H1 H2.
    apply foldingLoop_ranges in H1, H2.
    destruct H1 as (s1 & _ & L1 & ->), H2 as (s2 & _ & L2 & ->).
    unfold apart_or_nested. cbn [fr_start fr_end fr_kind].
    destruct (lt_eq_lt_dec s1 s2) as [[Hlt|Heq]|Hgt].
    + destruct (le_lt_dec s2 (fold_end lines s1)) as [Hin|Hout]; [|right; left; exact Hout].
      right. right. right. left. split; [exact Hlt|].
      apply fold_end_nested; assumption.
    + left. subst. reflexivity.
    + destruct (le_lt_dec s1 (fold_end lines s2)) as [Hin|Hout];
        [|right; right; left; exact Hout].
      right. right. right. right. split; [exact Hgt|].
      apply fold_end_nested; assumption.
Qed.

(** The fuel of the second pass is enough: more of it changes
    nothing. *)
Lemma foldingLoop_fuel (lines : list VAIndent) (lineCount : nat) :
  forall fuel fuel' i,
    lineCount + 1 - i <= fuel -> lineCount + 1 - i <= fuel' ->
    foldingLoop lines lineCount fuel i = foldingLoop lines lineCount fuel' i.
Proof.
  induction fuel as [|f IH]; intros fuel' i H H'.
  - destruct fuel' as [|f']; [reflexivity|]. simpl.
    destruct (i <=? lineCount) eqn:E; [|reflexivity]. apply Nat.leb_le in E. lia.
  - destruct fuel' as [|f']; simpl.
    + destruct (i <=? lineCount) eqn:E; [|reflexivity]. apply Nat.leb_le in E. lia.
    + destruct (i <=? lineCount) eqn:E; [|reflexivity]. apply Nat.leb_le in E.
      f_equal. pose proof (fold_end_lower lines i).
      apply IH; destruct (token (nth i lines dummy_line)); lia.
Qed.

(* ------------------------------------------------------------------ *)
(** *** Folding scenarios *)

(** Scenario B: two Instruction lines and a plain line. *)
Example scenarioB :
  foldingOf 4 [str "@skip"; str "@skip"; str "plain"]
  = Ok [{| fr_kind := None; fr_start := 1; fr_end := 2 |}].
Proof. vm_compute. reflexivity. Qed.

Lemma getCodeFolding_ranges_witness :
  0 < 4 /\
  match foldingOf 4 [str "Scenario: one"; str "# a"; str "# b"; str "step"; str "  deeper"] with
  | Ok ranges =>
      (forall r, In r ranges -> fr_start r < fr_end r /\ folding_kind r) /\
      (forall r1 r2, In r1 ranges -> In r2 ranges -> r1 = r2 \/ apart_or_nested r1 r2)
  | Throw _ => _matcher scenarioD = None
  end.
Proof.
  split; [lia|].
  apply (getCodeFolding_ranges scenarioD 4 5). lia.
Defined.

(** Three lines, each deeper than the one before: the fold of the
    second line lies in the fold of the first, and the two have the
    lines 2 and 3 in common. *)
Lemma getCodeFolding_nested_counterexample :
  foldingOf 4 [str "a"; str " b"; str "  c"]
  = Ok [{| fr_kind := None; fr_start := 1; fr_end := 3 |};
        {| fr_kind := None; fr_start := 2; fr_end := 3 |}].
Proof. vm_compute. reflexivity. Qed.

(** A tab width of zero: the indentation of the line with the tab is
    [NaN], no line ends its fold, and the two folds cross. *)
Example getCodeFolding_zero_tab :
  foldingOf 0 [str "a"; 9%N :: str "b"; str "c"]
  = Ok [{| fr_kind := None; fr_start := 1; fr_end := 2 |};
        {| fr_kind := None; fr_start := 2; fr_end := 3 |}].
Proof. vm_compute. reflexivity. Qed.

(* ================================================================== *)
(** ** Properties of the syntax validator *)

(** C9: for a model whose language is not [turbo-gherkin],
    [checkSyntax] returns with the markers of the editor as they were:
    it computes no diagnostics and replaces no marker set (nor does it
    read the matcher, which may be unset). *)
Theorem checkSyntax_other_language (p : Provider) (model : ITextModel) (store : MarkerStore) :
  getModeId model <> str "turbo-gherkin" ->
  checkSyntax p model store = Ok store.
Proof.
  intros H. unfold checkSyntax. apply eqb_neq in H. rewrite H. reflexivity.
Qed.

Lemma checkSyntax_other_language_witness :
  let model := Host.createModel (str "plaintext") [str "click buton"] in
  let store : MarkerStore :=
    [(uri model, str "syntax",
      [{| severity := SevError; message := str "Syntax error";
          m_startLineNumber := 1; m_startColumn := 1;
          m_endLineNumber := 1; m_endColumn := 12 |}])] in
  getModeId model <> str "turbo-gherkin" /\
  checkSyntax new_provider model store = Ok store.
Proof.
  split.
  - discriminate.
  - apply checkSyntax_other_language. discriminate.
Defined.

Lemma getModelMarkers_set (store : MarkerStore) (model : ITextModel) (owner : jsstring)
  (markers : list IMarkerData) :
  getModelMarkers (setModelMarkers store model owner markers) (uri model) owner = markers.
Proof.
  unfold setModelMarkers. simpl. rewrite !eqb_refl. reflexivity.
Qed.

(** [words.filter((w, i) => i < m)] keeps the first words. *)
Lemma filter_index_lt {A} (l : list A) (i m : nat) :
  filter_index (fun j => j <? m) i l = firstn (m - i) l.
Proof.
  revert i. induction l as [|a r IH]; intros i; simpl.
  - destruct (m - i); reflexivity.
  - destruct (i <? m) eqn:E.
    + apply Nat.ltb_lt in E. rewrite IH.
      replace (m - i) with (S (m - S i)) by lia. reflexivity.
    + apply Nat.ltb_ge in E. rewrite IH.
      replace (m - i) with 0 by lia. replace (m - S i) with 0 by lia. reflexivity.
Qed.

Lemma firstn_pred_removelast {A} (l : list A) :
  firstn (List.length l - 1) l = removelast l.
Proof.
  induction l as [|a r IH]; [reflexivity|].
  destruct r as [|b r]; [reflexivity|].
  simpl in *. rewrite Nat.sub_0_r in IH. rewrite IH. reflexivity.
Qed.

Lemma nth_error_last {A} (l : list A) (d : A) :
  l <> [] -> nth_error l (List.length l - 1) = Some (last l d).
Proof.
  induction l as [|a r IH]; [congruence|]. intros _.
  destruct r as [|b r]; [reflexivity|].
  simpl in *. rewrite Nat.sub_0_r in IH. apply IH. discriminate.
Qed.

Lemma existsb_eqb_In (x : jsstring) (l : list jsstring) :
  existsb (fun w => eqb w x) l = true <-> In x l.
Proof.
  rewrite existsb_exists. split.
  - intros (w & Hw & E). apply eqb_eq in E. subst. exact Hw.
  - intros H. exists x. split; [exact H|apply eqb_refl].
Qed.

(** The rule of the keypairs: a line whose phrase without its last word
    is a known step, and whose last word is a pair word of its keyword,
    is no syntax error. *)
Lemma lineSyntaxError_keypair (p : Provider) (mt : KeywordMatcher) (line : jsstring)
  (section_ : option jsstring) (kw kp : list jsstring) :
  _matcher p = Some mt ->
  findKeyword p (splitWords line) = Some kw ->
  oget (_keypairs p) (join (str " ") kw) = Some kp ->
  is_some (oget (_steps p)
             (key (removelast (filter_from (List.length kw) 0 true (splitWords line))))) = true ->
  In (toLowerCase (last (filter_from (List.length kw) 0 true (splitWords line)) [])) kp ->
  lineSyntaxError p line section_ = Ok false.
Proof.
  intros Hm Hk Hp Hs Hl. unfold lineSyntaxError, matcher. rewrite Hm. simpl.
  destruct (reg_step mt line); [|reflexivity]. simpl.
  rewrite Hk.
  set (words := filter_from (List.length kw) 0 true (splitWords line)) in *.
  destruct (eqb (key words) []) eqn:Ekey; [reflexivity|].
  destruct (has (_steps p) (key words)); [reflexivity|].
  rewrite (oread_Found _ _ _ Hp).
  assert (Hne : words <> []).
  { intros E. rewrite E in Ekey. discriminate. }
  rewrite (nth_error_last words [] Hne).
  rewrite filter_index_lt, Nat.sub_0_r, firstn_pred_removelast.
  destruct (oget (_steps p) (key (removelast words))) as [st|] eqn:Est; [|discriminate Hs].
  rewrite (has_entry _ _ _ Est).
  apply existsb_eqb_In in Hl. rewrite Hl. reflexivity.
Qed.

Lemma findKeyword_In (p : Provider) (words kw : list jsstring) :
  findKeyword p words = Some kw -> In kw (_keywords p).
Proof.
  unfold findKeyword. destruct words; [discriminate|].
  intros H. apply find_some in H. apply H.
Qed.

(** The pair words of a keyword that is found, where no keyword is an
    inherited name. *)
Lemma keypairs_plain (p : Provider) (words kw : list jsstring) :
  plain_keywords p -> findKeyword p words = Some kw ->
  oread (_keypairs p) (join (str " ") kw)
  = match oget (_keypairs p) (join (str " ") kw) with
    | Some kp => Found kp
    | None => Absent
    end.
Proof.
  intros Hp Hk. unfold oread.
  destruct (oget (_keypairs p) (join (str " ") kw)); [reflexivity|].
  unfold plain_keywords in Hp. rewrite Forall_forall in Hp.
  rewrite (Hp kw (findKeyword_In _ _ _ Hk)). reflexivity.
Qed.

(** With a matcher set and no keyword that is an inherited name,
    [lineSyntaxError] returns. *)
Lemma lineSyntaxError_returns (p : Provider) (mt : KeywordMatcher) (line : jsstring)
  (section_ : option jsstring) :
  _matcher p = Some mt -> plain_keywords p ->
  exists b, lineSyntaxError p line section_ = Ok b.
Proof.
  intros Hm Hplain. unfold lineSyntaxError, matcher. rewrite Hm. simpl.
  destruct (reg_step mt line); simpl; [|eexists; reflexivity].
  destruct (findKeyword p (splitWords line)) as [kw|] eqn:Hk; [|eexists; reflexivity].
  set (words := filter_from (List.length kw) 0 true (splitWords line)).
  destruct (eqb (key words) []) eqn:Ekey; [eexists; reflexivity|].
  destruct (has (_steps p) (key words)); [eexists; reflexivity|].
  rewrite (keypairs_plain p _ kw Hplain Hk).
  destruct (oget (_keypairs p) (join (str " ") kw)); [|eexists; reflexivity].
  assert (Hne : words <> []).
  { intros E. rewrite E in Ekey. discriminate. }
  rewrite (nth_error_last words [] Hne). eexists; reflexivity.
Qed.

(** The problems of [checkLines]: those it was given, and then only
    lines of [ls] that [lineSyntaxError] flags. *)
Lemma checkLines_problems (p : Provider) (mt : KeywordMatcher) (model : ITextModel)
  (ls : list nat) :
  _matcher p = Some mt -> plain_keywords p ->
  forall multiline section_ problems,
  exists out,
    checkLines p model ls multiline section_ problems = Ok out /\
    forall m, In m out ->
      In m problems \/
      (In (m_startLineNumber m) ls /\
       exists s, lineSyntaxError p (getLineContent model (m_startLineNumber m)) s = Ok true).
Proof.
  intros Hm Hplain. induction ls as [|n rest IH]; intros multiline section_ problems; simpl.
  - exists problems. split; [reflexivity|]. intros m H. left. exact H.
  - assert (Step : forall ml s, exists out,
              checkLines p model rest ml s problems = Ok out /\
              forall m, In m out ->
                In m problems \/
                ((n = m_startLineNumber m \/ In (m_startLineNumber m) rest) /\
                 exists s, lineSyntaxError p (getLineContent model (m_startLineNumber m)) s
                           = Ok true)).
    { intros ml s. destruct (IH ml s problems) as (out & E & H).
      exists out. split; [exact E|]. intros m Hin.
      destruct (H m Hin) as [|[? ?]]; [left; assumption|right; split; auto]. }
    destruct (test multiline_line_re (getLineContent model n)); [apply Step|].
    destruct multiline; [apply Step|].
    destruct (test skip_re (getLineContent model n)); [apply Step|].
    unfold isSection, getSection, matcher. rewrite Hm. simpl.
    destruct (match oget (reg_section mt) [] with
              | Some t => Ok (t (getLineContent model n))
              | None => Ok true
              end) as [sec|e] eqn:Esec;
      [|destruct (oget (reg_section mt) []); discriminate].
    simpl. destruct sec; [apply Step|].
    destruct (match section_ with
              | Some s => eqb s (str "feature")
              | None => false
              end); [apply Step|].
    destruct (lineSyntaxError_returns p mt (getLineContent model n) section_ Hm Hplain)
      as (b & Eb).
    rewrite Eb. simpl. destruct b; [|apply Step].
    match goal with
    | |- exists out, checkLines _ _ _ _ _ (problems ++ [?mk]) = _ /\ _ =>
        destruct (IH false section_ (problems ++ [mk])) as (out & E & H)
    end.
    exists out. split; [exact E|]. intros m Hin.
    destruct (H m Hin) as [Hp|[? ?]].
    + apply in_app_or in Hp. destruct Hp as [Hp|[<-|[]]]; [left; exact Hp|].
      right. simpl. split; [left; reflexivity|]. exists section_. exact Eb.
    + right. split; auto.
Qed.

(** C4, amended: take a provider with a matcher set, none of whose
    keywords is an inherited name, and a model of the language.  A
    line that begins with the keyword [kw] and whose words after the
    keyword and before a comment (the parameters among them) are such
    that those before the last have the key of a known step, while the
    last in lower case is a pair word registered for [kw], has no
    diagnostic after [checkSyntax].  The witness is Scenario C with the
    keyword [click] registered before the step [click button], which
    is then known under the key [button], the pair word [twice] of
    [click] and the line [click button twice]. *)
Theorem keypair_continuation_not_flagged (p : Provider) (mt : KeywordMatcher)
  (model : ITextModel) (store : MarkerStore) (n : nat) (kw kp : list jsstring) :
  _matcher p = Some mt ->
  getModeId model = str "turbo-gherkin" ->
  plain_keywords p ->
  let line := getLineContent model n in
  let phrase := filter_from (List.length kw) 0 true (splitWords line) in
  findKeyword p (splitWords line) = Some kw ->
  oget (_keypairs p) (join (str " ") kw) = Some kp ->
  is_some (oget (_steps p) (key (removelast phrase))) = true ->
  In (toLowerCase (last phrase [])) kp ->
  exists store',
    checkSyntax p model store = Ok store' /\
    forall m, In m (getModelMarkers store' (uri model) (str "syntax")) ->
              m_startLineNumber m <> n.
Proof.
  intros Hm Hlang Hplain line phrase Hk Hp Hs Hl. subst line phrase.
  unfold checkSyntax, syntaxProblems. rewrite Hlang. simpl.
  destruct (checkLines_problems p mt model (seq 1 (getLineCount model)) Hm Hplain
              false (Some []) [])
    as (out & E & H).
  rewrite E. simpl. eexists. split; [reflexivity|].
  rewrite getModelMarkers_set. intros m Hin Hn.
  destruct (H m Hin) as [[]|(_ & s & Hs')].
  rewrite Hn in Hs'.
  rewrite (lineSyntaxError_keypair p mt _ s kw kp Hm Hk Hp Hs Hl) in Hs'. discriminate.
Qed.

(* ------------------------------------------------------------------ *)
(** *** Scenario C *)

Example scenarioC_store :
  okeys (_steps scenarioC) = [str "button"] /\
  _keypairs scenarioC = [(str "click", [str "twice"])].
Proof. vm_compute. split; reflexivity. Qed.

(** Scenario C: the line with the pair word has no diagnostic, the
    same line with another last word has one. *)
Example scenarioC_problems :
  let model := Host.createModel (str "turbo-gherkin")
                 [str "click button twice"; str "click button thrice"] in
  option_map (List.map m_startLineNumber)
    (match syntaxProblems scenarioC model with Ok l => Some l | Throw _ => None end)
  = Some [2].
Proof. vm_compute. reflexivity. Qed.

Lemma keypair_continuation_not_flagged_witness :
  let p := scenarioC in
  let model := Host.createModel (str "turbo-gherkin") [str "click button twice"] in
  let phrase := filter_from 1 0 true (splitWords (getLineContent model 1)) in
  (_matcher p = Some Host.sampleMatcher /\
   plain_keywords p /\
   findKeyword p (splitWords (getLineContent model 1)) = Some [str "click"] /\
   oget (_keypairs p) (str "click") = Some [str "twice"] /\
   is_some (oget (_steps p) (key (removelast phrase))) = true /\
   In (toLowerCase (last phrase [])) [str "twice"]) /\
  exists store',
    checkSyntax p model [] = Ok store' /\
    forall m, In m (getModelMarkers store' (uri model) (str "syntax")) ->
              m_startLineNumber m <> 1.
Proof.
  assert (Hplain : plain_keywords scenarioC) by (repeat constructor).
  split.
  - split; [reflexivity|]. split; [exact Hplain|]. repeat split. left. reflexivity.
  - apply (keypair_continuation_not_flagged scenarioC Host.sampleMatcher
             (Host.createModel (str "turbo-gherkin") [str "click button twice"])
             [] 1 [str "click"] [str "twice"]);
      first [reflexivity | exact Hplain | left; reflexivity].
Defined.

(** The step list loaded before the keyword: the store holds the step
    [click button] under the key of its whole text, the pair word
    [twice] is registered for [click], and the line
    [click button twice] has a diagnostic. *)
Lemma keypair_steps_first_counterexample :
  let p0 := with_matcher new_provider (Some Host.sampleMatcher) in
  let p1 := snd (setStepList Host.JSON_parse
                   (payload (JArr [JObj [(str "insertText", JStr (str "click button"))]]))
                   false p0) in
  let p2 := snd (setKeywords Host.JSON_parse (payload (JArr [JStr (str "click")])) p1) in
  let p3 := snd (setKeypairs Host.JSON_parse
                   (payload (JObj [(str "click", JArr [JStr (str "twice")])])) p2) in
  let model := Host.createModel (str "turbo-gherkin") [str "click button twice"] in
  okeys (_steps p3) = [str "click button"] /\
  _keypairs p3 = [(str "click", [str "twice"])] /\
  option_map
    (fun store' =>
       List.map m_startLineNumber (getModelMarkers store' (uri model) (str "syntax")))
    (match checkSyntax p3 model [] with Ok store' => Some store' | Throw _ => None end)
  = Some [1].
Proof. vm_compute. repeat split. Qed.

(** Scenario C with a parameter behind the pair word: the last word of
    the line is the parameter, and the line has a diagnostic. *)
Example scenarioC_parameter_last :
  let model := Host.createModel (str "turbo-gherkin") [str "click button twice 'now'"] in
  option_map (List.map m_startLineNumber)
    (match syntaxProblems scenarioC model with Ok l => Some l | Throw _ => None end)
  = Some [1].
Proof. vm_compute. reflexivity. Qed.

(** A keyword that is an inherited name: [keypairs] has no pair words
    for it, yet what it inherits under the name is taken for them, and
    [checkSyntax] throws at a line whose phrase without its last word
    is the key of a step. *)
Example checkSyntax_inherited_keyword :
  let p0 := with_matcher new_provider (Some Host.sampleMatcher) in
  let p1 := snd (setKeywords Host.JSON_parse (payload (JArr [JStr (str "constructor")])) p0) in
  let p2 := snd (setStepList Host.JSON_parse
                   (payload (JArr [JObj [(str "insertText", JStr (str "constructor open"))]]))
                   false p1) in
  let model := Host.createModel (str "turbo-gherkin") [str "constructor open now"] in
  checkSyntax p2 model [] = Throw TypeError.
Proof. vm_compute. reflexivity. Qed.

(* ================================================================== *)
(** ** Properties of the quick-fix engine *)

Lemma oget_okeys {V} (o : obj V) (k : jsstring) :
  In k (okeys o) -> exists v, oget o k = Some v.
Proof.
  induction o as [|[k0 v0] r IH]; simpl; [intros []|].
  intros [<-|H].
  - rewrite eqb_refl. eauto.
  - destruct (eqb k k0); eauto.
Qed.

Lemma filter_index_ext {A} (f g : nat -> bool) (l : list A) (i : nat) :
  (forall j, f j = g j) -> filter_index f i l = filter_index g i l.
Proof.
  intros H. revert i. induction l as [|a r IH]; intros i; simpl; [reflexivity|].
  rewrite H, IH. reflexivity.
Qed.

(** The entries of index up to 6 are the first seven. *)
Lemma first_seven {A} (l : list A) :
  filter_index (fun i => negb (6 <? i)) 0 l = firstn 7 l.
Proof.
  rewrite (filter_index_ext _ (fun j => j <? 7)).
  - apply filter_index_lt.
  - intros j. destruct (6 <? j) eqn:E1, (j <? 7) eqn:E2; try reflexivity.
    + apply Nat.ltb_lt in E1, E2. lia.
    + apply Nat.ltb_ge in E1, E2. lia.
Qed.

Lemma In_firstn {A} (n : nat) (l : list A) (x : A) : In x (firstn n l) -> In x l.
Proof.
  intros H. rewrite <- (firstn_skipn n l). apply in_or_app. left. exact H.
Qed.

Lemma StronglySorted_firstn {A} (R : A -> A -> Prop) (n : nat) (l : list A) :
  StronglySorted R l -> StronglySorted R (firstn n l).
Proof.
  intros H. revert n. induction H as [|a r Hs IH Hall]; intros [|n]; simpl;
    try constructor.
  - apply IH.
  - apply Forall_forall. intros x Hx. rewrite Forall_forall in Hall.
    apply Hall. eapply In_firstn. exact Hx.
Qed.

Lemma Forall_firstn' {A} (P : A -> Prop) (n : nat) (l : list A) :
  Forall P l -> Forall P (firstn n l).
Proof.
  intros H. apply Forall_forall. intros x Hx. rewrite Forall_forall in H.
  apply H. eapply In_firstn. exact Hx.
Qed.

Section QuickFixFacts.

Variable distance : jsstring -> jsstring -> Q.
Variable RegExp_new : jsstring -> option re.
Variable p : Provider.
Variable model : ITextModel.

Lemma sort_by_score (l : list QuickFix) :
  StronglySorted by_score (sort (fun a b => Qle_bool (qf_sum b) (qf_sum a)) l).
Proof.
  apply sort_sorted.
  - intros x y E. apply Qle_bool_iff in E. exact E.
  - intros x y E. unfold by_score.
    destruct (Qlt_le_dec (qf_sum x) (qf_sum y)) as [H|H].
    + apply Qlt_le_weak, H.
    + apply Qle_bool_iff in H. congruence.
  - intros x y z H1 H2. unfold by_score in *. eapply Qle_trans; eassumption.
Qed.

Lemma addQuickFix_candidates (markers : list IMarkerData) (l : list QuickFix)
  (error : IMarkerData) (out : list QuickFix) :
  In error markers -> candidates distance p model markers l ->
  addQuickFix distance RegExp_new p model l error = Ok out ->
  candidates distance p model markers out.
Proof.
  intros Herr [Hall Hsorted]. unfold addQuickFix.
  destruct (findKeyword p _) as [kw|]; [|intros [= <-]; split; assumption].
  destruct (RegExp_new _) as [r|]; [|discriminate].
  intros [= <-]. split; [|apply sort_by_score].
  eapply Permutation_Forall; [apply sort_perm|].
  match goal with
  | |- Forall _ (fold_left ?f0 _ l) =>
      assert (G : forall ks acc,
                 (forall k, In k ks -> In k (okeys (_steps p))) ->
                 Forall (candidate distance p model markers) acc ->
                 Forall (candidate distance p model markers) (fold_left f0 ks acc))
  end.
  { induction ks as [|k ks IH]; intros acc Hks Hacc; simpl; [exact Hacc|].
    apply IH; [intros k' Hk'; apply Hks; right; exact Hk'|].
    destruct (Qle_bool _ threshold) eqn:E; simpl; [exact Hacc|].
    apply Forall_app. split; [exact Hacc|]. constructor; [|constructor].
    unfold candidate. simpl. repeat split.
    - destruct (Qlt_le_dec threshold
                  (distance (key (filterWords p (splitWords (getValueInRange model
                     (errorRange error))))) k)) as [H|H];
        [exact H|].
      apply Qle_bool_iff in H. congruence.
    - apply Hks. left. reflexivity.
    - exact Herr. }
  apply G; [auto|exact Hall].
Qed.

Lemma addQuickFixes_candidates (all markers : list IMarkerData) (l out : list QuickFix) :
  (forall e, In e markers -> In e all) -> candidates distance p model all l ->
  addQuickFixes distance RegExp_new p model l markers = Ok out ->
  candidates distance p model all out.
Proof.
  revert l. induction markers as [|e rest IH]; simpl; intros l Hsub Hl H.
  - injection H as <-. exact Hl.
  - destruct (addQuickFix distance RegExp_new p model l e) as [l'|x] eqn:E;
      simpl in H; [|discriminate].
    apply (IH l'); [intros e' He'; apply Hsub; right; exact He'| |exact H].
    eapply addQuickFix_candidates; [|exact Hl|exact E].
    apply Hsub. left. reflexivity.
Qed.

Lemma quickFixAction_returns (markers : list IMarkerData) (e : QuickFix) :
  candidate distance p model markers e ->
  exists a, quickFixAction p model e = Ok a /\ isPreferred a = true /\
            diagnostics a = [qf_error e].
Proof.
  intros (_ & Hk & _). unfold quickFixAction.
  destruct (oget_okeys _ _ Hk) as (step & ->).
  eexists. repeat split.
Qed.

(** The only exception of the engine is that of [new RegExp]. *)
Lemma addQuickFixes_throws (markers : list IMarkerData) (l : list QuickFix) (e : exn) :
  addQuickFixes distance RegExp_new p model l markers = Throw e -> e = SyntaxError.
Proof.
  revert l. induction markers as [|m rest IH]; simpl; intros l H; [discriminate|].
  destruct (addQuickFix distance RegExp_new p model l m) as [l'|x] eqn:E; simpl in H.
  - apply (IH l'), H.
  - injection H as <-. unfold addQuickFix in E.
    destruct (findKeyword p _); [|discriminate].
    destruct (RegExp_new _); [discriminate|]. congruence.
Qed.

(** C3, amended: [getQuickFix] returns at most 7 actions, all of them
    preferred, built in order from the first seven entries of the list
    of candidates; every candidate pairs a diagnostic with the key of a
    step whose distance to the phrase key of the line of the diagnostic
    is above the threshold [0.7]; and the list is in descending order
    of the scores, where equal scores may follow one another.  The
    only exception is the SyntaxError of [new RegExp]. *)
Theorem getQuickFix_actions (markers : list IMarkerData) :
  match getQuickFix distance RegExp_new p model markers with
  | Ok actions =>
      List.length actions <= 7 /\
      Forall (fun a => isPreferred a = true) actions /\
      exists list_ entries,
        addQuickFixes distance RegExp_new p model [] markers = Ok list_ /\
        candidates distance p model markers list_ /\
        entries = firstn 7 list_ /\
        Forall (candidate distance p model markers) entries /\
        StronglySorted by_score entries /\
        Forall2 (fun e a => quickFixAction p model e = Ok a) entries actions
  | Throw e => e = SyntaxError
  end.
Proof.
  unfold getQuickFix.
  destruct (addQuickFixes distance RegExp_new p model [] markers) as [list_|e] eqn:E;
    simpl; [|eapply addQuickFixes_throws; exact E].
  assert (Hc : candidates distance p model markers list_).
  { eapply addQuickFixes_candidates; [|split; constructor|exact E]. auto. }
  rewrite first_seven.
  assert (Hf : Forall (candidate distance p model markers) (firstn 7 list_))
    by (apply Forall_firstn', Hc).
  destruct (mapM_returns (quickFixAction p model) (firstn 7 list_)) as (actions & Ea).
  { eapply Forall_impl; [|exact Hf]. intros a Ha.
    destruct (quickFixAction_returns markers a Ha) as (b & Eb & _). eauto. }
  rewrite Ea. pose proof (mapM_Forall2 _ _ _ Ea) as F2.
  split; [|split].
  - rewrite <- (Forall2_length F2). rewrite length_firstn. lia.
  - clear Ea. induction F2 as [|e a es as_ Hea _ IH]; constructor.
    + inversion Hf as [|? ? He _]; subst.
      destruct (quickFixAction_returns markers e He) as (b & Eb & Hb & _).
      congruence.
    + apply IH. inversion Hf; assumption.
  - exists list_, (firstn 7 list_). repeat split; auto.
    + apply Hc.
    + apply Hc.
    + apply StronglySorted_firstn, Hc.
Qed.

End QuickFixFacts.

(** [provideCodeActions] answers with the actions of [getQuickFix], or
    with none when no diagnostic is an error. *)
Lemma provideCodeActions_getQuickFix (distance : jsstring -> jsstring -> Q)
  (RegExp_new : jsstring -> option re) (p : Provider) (model : ITextModel)
  (markers : list IMarkerData) :
  provideCodeActions distance RegExp_new p model markers = Ok None \/
  provideCodeActions distance RegExp_new p model markers =
  bind (getQuickFix distance RegExp_new p model markers) (fun a => Ok (Some a)).
Proof.
  unfold provideCodeActions. destruct markers as [|m ms]; [left; reflexivity|].
  destruct (forallb _ (m :: ms)); [left|right]; reflexivity.
Qed.

(** Two diagnostics on two lines of the same text: the two candidates
    have the same score, and both become actions. *)
Lemma getQuickFix_ties_counterexample :
  let model := Host.createModel (str "turbo-gherkin") [str "click button"; str "click button"] in
  let marker n := {| severity := SevError; message := str "Syntax error";
                     m_startLineNumber := n; m_startColumn := 1;
                     m_endLineNumber := n; m_endColumn := 13 |} in
  let markers := [marker 1; marker 2] in
  exists e1 e2 a1 a2,
    addQuickFixes Host.distance Host.RegExp_new scenarioC model [] markers = Ok [e1; e2] /\
    getQuickFix Host.distance Host.RegExp_new scenarioC model markers = Ok [a1; a2] /\
    qf_error e1 = marker 1 /\ qf_error e2 = marker 2 /\
    qf_sum e1 = qf_sum e2 /\
    (threshold < qf_sum e1)%Q.
Proof.
  do 4 eexists. vm_compute. repeat split.
Qed.

(* ================================================================== *)
(** ** Properties of the completion engine *)

(** C8, amended: when the column of the cursor lies in the range of
    no placeholder of the line, the two ends of a range counted in (no
    match of [placeholder_re] on the line has its first column at or
    before the cursor and its end column at or behind it: the cursor is
    neither within a quoted or bracketed token nor directly before or
    directly behind one), and the column is before the last
    non-whitespace column of the line, the completion returns the list
    of [empty]: one suggestion, of the empty label and the empty insert
    text, of kind Function, over the column before the cursor. *)
Theorem completion_before_line_end (p : Provider) (model : ITextModel) (position : Position) :
  wordRange_of (findMatches model placeholder_re (lineRange model position)) position = None ->
  column position < getLineLastNonWhitespaceColumn model (lineNumber position) ->
  provideCompletionItems p model position = Ok (empty position) /\
  List.length (suggestions (empty position)) = 1.
Proof.
  intros Hw Hc.
  assert (E : provideCompletionItems p model position = Ok (empty position)).
  { unfold provideCompletionItems. rewrite Hw.
    assert (H1 : (getLineLastNonWhitespaceColumn model (lineNumber position) =? 0) = false)
      by (apply Nat.eqb_neq; lia).
    assert (H2 : (column position <? getLineLastNonWhitespaceColumn model (lineNumber position))
                 = true) by (apply Nat.ltb_lt; exact Hc).
    cbv zeta. rewrite H1, H2. reflexivity. }
  rewrite E. split; reflexivity.
Qed.

(** The ends of a range count: with the cursor directly behind the
    closing quote of a placeholder, and before the end of the line,
    the completion offers the variables. *)
Example completion_behind_placeholder :
  let model := Host.createModel (str "turbo-gherkin") [str "open 'x' now"] in
  let position := {| lineNumber := 1; column := 9 |} in
  column position < getLineLastNonWhitespaceColumn model (lineNumber position) /\
  match provideCompletionItems withFoo model position with
  | Ok l => List.length (suggestions l) = 2
  | Throw _ => False
  end.
Proof. split; [vm_compute; lia|]. vm_compute. reflexivity. Qed.

Lemma completion_before_line_end_witness :
  let model := Host.createModel (str "turbo-gherkin") [str "abc def"] in
  let position := {| lineNumber := 1; column := 2 |} in
  (wordRange_of (findMatches model placeholder_re (lineRange model position)) position = None /\
   column position < getLineLastNonWhitespaceColumn model (lineNumber position)) /\
  provideCompletionItems new_provider model position = Ok (empty position) /\
  List.length (suggestions (empty position)) = 1.
Proof.
  split.
  - split; [reflexivity|]. vm_compute. lia.
  - apply completion_before_line_end; [reflexivity|]. vm_compute. lia.
Defined.

(** The cursor in the middle of [abc def], with no placeholder on the
    line: the list of suggestions is not empty. *)
Lemma completion_before_line_end_counterexample :
  let model := Host.createModel (str "turbo-gherkin") [str "abc def"] in
  let position := {| lineNumber := 1; column := 2 |} in
  wordRange_of (findMatches model placeholder_re (lineRange model position)) position = None /\
  column position < getLineLastNonWhitespaceColumn model (lineNumber position) /\
  exists item,
    provideCompletionItems new_provider model position = Ok {| suggestions := [item] |}.
Proof.
  split; [reflexivity|]. split; [vm_compute; lia|].
  eexists. reflexivity.
Qed.

(* ================================================================== *)
(** ** Properties of the link resolver *)

Lemma scanLine_marker (p : Provider) (m : KeywordMatcher) :
  reg_import m (str "* Users") = None ->
  scanLine p m scanStart (str "* Users") = Ok (Continue users_marked).
Proof.
  intros H. unfold scanLine.
  change (test multiline_line_re (str "* Users")) with false.
  change (multiline_ scanStart) with false.
  change (test parameter_re (str "* Users")) with false.
  change (exec assign_re (str "* Users")) with (@None found).
  cbv iota. rewrite H.
  change (test skip_re (str "* Users")) with false.
  reflexivity.
Qed.

Lemma scanLine_header (p : Provider) (m : KeywordMatcher) :
  scanLine p m users_marked (str "| id | name |") = Ok (Continue users_headed).
Proof. reflexivity. Qed.

Lemma scanLine_row (p : Provider) (m : KeywordMatcher) :
  scanLine p m users_headed (str "| 1 | Alice |") = Ok (Continue users_filled).
Proof. reflexivity. Qed.

Lemma scanLine_section (p : Provider) (m : KeywordMatcher) (s : LinkScan) (line : jsstring) :
  _matcher p = Some m -> multiline_ s = false ->
  plain_line m line = true -> isSection p line [] = Ok true ->
  scanLine p m s line = Ok (Return (links s)).
Proof.
  intros Hm Hs Hp Hsec. unfold plain_line in Hp.
  repeat (apply andb_true_iff in Hp; destruct Hp as [Hp ?]).
  repeat match goal with H : negb _ = true |- _ => apply negb_true_iff in H end.
  unfold scanLine.
  rewrite Hp, Hs.
  match goal with H : test parameter_re line = false |- _ => rewrite H end.
  destruct (exec assign_re line); [discriminate|].
  destruct (reg_import m line); [discriminate|].
  match goal with H : test skip_re line = false |- _ => rewrite H end.
  destruct (exec sound_re line) as [[[? ?] ?]|]; [discriminate|].
  rewrite Hsec. reflexivity.
Qed.

(** The lines before the block are passed over. *)
Lemma findBlock_skip (p : Provider) (m : KeywordMatcher) (model : ITextModel)
  (lineCount : nat) (pre rest : list nat) :
  (forall n, In n pre -> isVariablesLine m (getLineContent model n) = false) ->
  findBlock p m model lineCount (pre ++ rest) = findBlock p m model lineCount rest.
Proof.
  induction pre as [|n pre IH]; simpl; intros H; [reflexivity|].
  rewrite (H n (or_introl eq_refl)). apply IH. intros k Hk. apply H. right. exact Hk.
Qed.

(** C6, amended: take a provider with a matcher set.  When the first
    line [v] that the variables pattern matches has directly behind it
    the lines [* Users], [| id | name |] and [| 1 | Alice |], in this
    order and with no line between them, the import pattern of the
    matcher does not match [* Users], and the line directly behind the
    row is a section line that none of the other rules of the block
    takes, the lookup of [Users.1] returns the record of key [1], name
    [Alice] and data [id = 1], [name = Alice], with the table [users]
    and the parameter [Users.1] written into it. *)
Theorem getLinkData_users_row (p : Provider) (m : KeywordMatcher) (model : ITextModel)
  (v : nat) :
  _matcher p = Some m ->
  1 <= v -> v + 4 <= getLineCount model ->
  (forall n, 1 <= n < v -> isVariablesLine m (getLineContent model n) = false) ->
  isVariablesLine m (getLineContent model v) = true ->
  getLineContent model (v + 1) = str "* Users" ->
  getLineContent model (v + 2) = str "| id | name |" ->
  getLineContent model (v + 3) = str "| 1 | Alice |" ->
  reg_import m (str "* Users") = None ->
  plain_line m (getLineContent model (v + 4)) = true ->
  isSection p (getLineContent model (v + 4)) [] = Ok true ->
  getLinkData p model (str "Users.1") =
  Ok (Some {| lk_key := str "1"; lk_name := Some (str "Alice"); lk_file := None;
              lk_data := Some [(str "id", str "1"); (str "name", str "Alice")];
              lk_column := None;
              lk_table := Some (str "users");
              lk_param := Some (str "Users.1") |}).
Proof.
  intros Hm Hv Hcount Hpre Hvar H1 H2 H3 Himp Hplain Hsec.
  assert (G : getLinks p model (getLineCount model) = Ok (links users_filled, v + 4)).
  { unfold getLinks, matcher. rewrite Hm. simpl.
    replace (getLineCount model - 1) with ((v - 1) + S (getLineCount model - 1 - v)) by lia.
    rewrite seq_app. rewrite findBlock_skip.
    2:{ intros n Hn. apply in_seq in Hn. apply Hpre. lia. }
    replace (1 + (v - 1)) with v by lia. simpl seq. simpl findBlock.
    rewrite Hvar.
    replace (getLineCount model - v) with (4 + (getLineCount model - v - 4)) by lia.
    simpl seq. simpl scanBlock.
    replace (S v) with (v + 1) by lia. rewrite H1, (scanLine_marker p m Himp). simpl.
    replace (S (v + 1)) with (v + 2) by lia. rewrite H2, scanLine_header. simpl.
    replace (S (v + 2)) with (v + 3) by lia. rewrite H3, scanLine_row. simpl.
    replace (S (v + 3)) with (v + 4) by lia.
    rewrite (scanLine_section p m users_filled _ Hm eq_refl Hplain Hsec). reflexivity. }
  unfold getLinkData. rewrite G. reflexivity.
Qed.

(* ------------------------------------------------------------------ *)
(** *** Scenario D *)

Lemma getLinkData_users_row_witness :
  let model := Host.createModel (str "turbo-gherkin") (usersBlock ++ [str "Scenario: first"]) in
  (getLineCount model = 5 /\
   isVariablesLine Host.sampleMatcher (getLineContent model 1) = true /\
   plain_line Host.sampleMatcher (getLineContent model 5) = true /\
   isSection scenarioD (getLineContent model 5) [] = Ok true) /\
  getLinkData scenarioD model (str "Users.1") =
  Ok (Some {| lk_key := str "1"; lk_name := Some (str "Alice"); lk_file := None;
              lk_data := Some [(str "id", str "1"); (str "name", str "Alice")];
              lk_column := None;
              lk_table := Some (str "users");
              lk_param := Some (str "Users.1") |}).
Proof.
  split.
  - repeat split.
  - apply (getLinkData_users_row scenarioD Host.sampleMatcher
             (Host.createModel (str "turbo-gherkin") (usersBlock ++ [str "Scenario: first"]))
             1); try reflexivity.
    intros n Hn. lia.
Defined.

(** The block of Scenario D at the end of the document: the lines run
    out before a section line, and the lookup finds nothing. *)
Lemma getLinkData_open_block_counterexample :
  let model := Host.createModel (str "turbo-gherkin") usersBlock in
  List.map (getLineContent model) (seq 1 (getLineCount model)) = usersBlock /\
  isVariablesLine Host.sampleMatcher (getLineContent model 1) = true /\
  getLinks scenarioD model (getLineCount model) = Ok ([], 4) /\
  getLinkData scenarioD model (str "Users.1") = Ok None.
Proof. vm_compute. repeat split. Qed.

(* ================================================================== *)
(** ** Further properties of the matcher of regular expressions *)

Lemma star_class (f : N -> bool) (k : kont) :
  forall fuel s i c,
    List.length s < fuel ->
    star_loop (run (Chr f)) k fuel i s c = backtrack k f i s c.
Proof.
  induction fuel as [|n IH]; intros s i c Hf; [lia|].
  destruct s as [|x r]; [reflexivity|].
  cbn [star_loop run backtrack]. destruct (f x); [|reflexivity].
  assert (L : (i <? S i) = true) by (apply Nat.ltb_lt; lia).
  rewrite L, IH by (simpl in Hf; lia). reflexivity.
Qed.

Lemma run_star_class (f : N -> bool) (k : kont) (i : nat) (s : jsstring) (c : caps) :
  run (Star (Chr f)) i s c k = backtrack k f i s c.
Proof. cbn [run]. apply star_class. lia. Qed.



Lemma consuming_Seq_Chr (p : N -> bool) (b : re) : consuming (Seq (Chr p) b).
Proof.
  intros i s c e c' H. cbn [run] in H.
  destruct s as [|y s']; [discriminate|]. destruct (p y); [|discriminate].
  apply run_here_bounds in H. lia.
Qed.

Lemma consuming_Alt (a b : re) : consuming a -> consuming b -> consuming (Alt a b).
Proof.
  intros Ha Hb i s c e c' H. cbn [run] in H.
  destruct (run a i s c here) as [[e1 c1]|] eqn:E.
  - injection H as <- <-. apply (Ha _ _ _ _ _ E).
  - apply (Hb _ _ _ _ _ H).
Qed.

Lemma search_consuming (r : re) (s : jsstring) (i st e : nat) (c : caps) :
  consuming r -> search r i s = Some (st, e, c) -> st < e.
Proof.
  intros Hr. revert i. induction s as [|x s IH]; intros i; simpl.
  - destruct (run r i [] [] _) as [[e' c']|] eqn:E; [|discriminate].
    intros [= <- <- <-]. fold here in E. apply (Hr _ _ _ _ _ E).
  - destruct (run r i (x :: s) [] _) as [[e' c']|] eqn:E.
    + intros [= <- <- <-]. fold here in E. apply (Hr _ _ _ _ _ E).
    + apply IH.
Qed.

Lemma spans_from_consuming (r : re) :
  consuming r ->
  forall fuel i s st e,
    In (st, e) (spans_from fuel r i s) -> i <= st /\ st < e /\ e <= i + List.length s.
Proof.
  intros Hr. induction fuel as [|n IH]; intros i s st e H; simpl in H; [destruct H|].
  destruct (search r i s) as [[[st0 e0] c0]|] eqn:E; [|destruct H].
  pose proof (search_consuming _ _ _ _ _ _ Hr E) as Hlt.
  apply search_bounds in E.
  assert (Ne : (e0 =? st0) = false) by (apply Nat.eqb_neq; lia).
  rewrite Ne in H. destruct H as [[= <- <-]|H]; [lia|].
  apply IH in H. rewrite length_skipn in H. lia.
Qed.

Lemma match_all_nonempty (r : re) (w x : jsstring) :
  consuming r -> In x (match_all r w) -> x <> [].
Proof.
  intros Hr H. unfold match_all in H. apply in_map_iff in H.
  destruct H as ([st e] & <- & H). unfold spans in H.
  apply (spans_from_consuming r Hr) in H. simpl in *.
  unfold substring. intros E. apply (f_equal (@List.length N)) in E.
  rewrite length_firstn, length_skipn in E. simpl in E. lia.
Qed.

(* ================================================================== *)
(** ** Further properties of words and keys *)

Lemma splitWords_re_consuming : consuming splitWords_re.
Proof.
  unfold splitWords_re, quoted_re, Plus, Lit, Not. cbn [Alts Seqs].
  repeat apply consuming_Alt; apply consuming_Seq_Chr.
Qed.

Lemma nonspace_re_consuming : consuming nonspace_re.
Proof. unfold nonspace_re, Plus, Not. apply consuming_Seq_Chr. Qed.

(** X1: no token is the empty string, neither among the words that
    [splitWords] cuts a line into nor among the words that the
    completion cuts at white space: the guard [words[i] &&] of
    [findKeyword] turns down only the places past the last token. *)
Theorem splitWords_no_empty_word (line : jsstring) :
  Forall (fun w => w <> []) (splitWords line) /\
  Forall (fun w => w <> []) (match_all nonspace_re line).
Proof.
  split; apply Forall_forall; intros w Hw.
  - apply (match_all_nonempty splitWords_re line w splitWords_re_consuming Hw).
  - apply (match_all_nonempty nonspace_re line w nonspace_re_consuming Hw).
Qed.

(** A word is a word of letters when [/^[A-zА-яЁё]+$/] matches it: it
    is not empty and holds letters only. *)
Lemma backtrack_all (f : N -> bool) (w : jsstring) (i : nat) (c : caps) :
  is_some (backtrack (fun i' s' c' => run Eol i' s' c' here) f i w c) = forallb f w.
Proof.
  revert i. induction w as [|x r IH]; intros i; [reflexivity|].
  cbn [backtrack forallb]. destruct (f x); [|reflexivity].
  specialize (IH (S i)).
  destruct (backtrack _ f (S i) r c) as [a|]; simpl in IH; rewrite <- IH; reflexivity.
Qed.

Lemma test_word_re (w : jsstring) :
  test word_re w = (negb (eqb w []) && forallb is_letter w)%bool.
Proof.
  unfold test, exec, word_re, Plus. cbn [Seqs].
  destruct w as [|x r]; [reflexivity|].
  cbn [search]. rewrite search_Bol_later. fold here.
  change (run (Seq Bol (Seq (Seq (Chr is_letter) (Star (Chr is_letter))) Eol)) 0 (x :: r) [] here)
    with (if is_letter x
          then star_loop (run (Chr is_letter)) (fun i' s' c' => run Eol i' s' c' here)
                 (S (List.length r)) 1 r []
          else None).
  change (eqb (x :: r) []) with false. cbn [negb andb forallb].
  destruct (is_letter x); [|reflexivity].
  rewrite star_class by lia.
  pose proof (backtrack_all is_letter r 1 []) as H.
  destruct (backtrack _ is_letter 1 r []) as [[e c]|]; simpl in H; rewrite <- H; reflexivity.
Qed.

Lemma key_drops (l1 l2 : list jsstring) (w : jsstring) :
  test word_re w = false -> key (l1 ++ w :: l2) = key (l1 ++ l2).
Proof.
  intros H. unfold key. rewrite !filter_app. cbn [List.filter]. rewrite H. reflexivity.
Qed.

Lemma search_later_none (r : re) :
  (forall j s, run r (S j) s [] here = None) ->
  forall s i, search r (S i) s = None.
Proof.
  intros H. induction s as [|x s IH]; intros i; cbn [search]; fold here; rewrite H.
  - reflexivity.
  - apply IH.
Qed.

(** A parameter, as [/^\x22[^\x22]*\x22$|^'[^']*'$|^<[^<]*>$/] knows
    it, begins with a double quote, an apostrophe or [<]. *)
Lemma param_re_first (w : jsstring) :
  test param_re w = true ->
  exists x r, w = x :: r /\ one_of [c_quote; c_apos; c_lt] x = true.
Proof.
  unfold test, exec. destruct w as [|x r]; [intros H; discriminate H|].
  intros H. exists x, r. split; [reflexivity|].
  cbn [search] in H. fold here in H.
  rewrite (search_later_none param_re) in H by (intros; reflexivity).
  unfold param_re, Lit in H. cbn [Alts Seqs run Nat.eqb] in H.
  unfold one_of. cbn [existsb].
  rewrite (N.eqb_sym x c_quote), (N.eqb_sym x c_apos), (N.eqb_sym x c_lt).
  destruct (N.eqb c_quote x); [reflexivity|].
  destruct (N.eqb c_apos x); [reflexivity|].
  destruct (N.eqb c_lt x); [reflexivity|]. discriminate H.
Qed.

Lemma param_not_word (w : jsstring) : test param_re w = true -> test word_re w = false.
Proof.
  intros H. destruct (param_re_first w H) as (x & r & -> & Hx).
  rewrite test_word_re. cbn [forallb].
  assert (E : is_letter x = false).
  { unfold one_of in Hx. cbn [existsb] in Hx.
    destruct (N.eqb x c_quote) eqn:E1; [apply N.eqb_eq in E1; subst; reflexivity|].
    destruct (N.eqb x c_apos) eqn:E2; [apply N.eqb_eq in E2; subst; reflexivity|].
    destruct (N.eqb x c_lt) eqn:E3; [apply N.eqb_eq in E3; subst; reflexivity|].
    discriminate Hx. }
  rewrite E. apply andb_false_r.
Qed.

(** X2: the key of a phrase ignores every word that is not made of
    the letters of the word pattern only ([A-z], the Russian letters);
    so the key stays the same when a parameter of the phrase (a text
    between double quotes, apostrophes or angle brackets) is replaced
    by another. *)
Theorem key_ignores_parameters (l1 l2 : list jsstring) :
  (forall w c, In c w -> is_letter c = false -> key (l1 ++ w :: l2) = key (l1 ++ l2)) /\
  (forall w w', test param_re w = true -> test param_re w' = true ->
                key (l1 ++ w :: l2) = key (l1 ++ w' :: l2)).
Proof.
  split.
  - intros w c Hc Hl. apply key_drops. rewrite test_word_re.
    assert (E : forallb is_letter w = false).
    { destruct (forallb is_letter w) eqn:E; [|reflexivity].
      rewrite forallb_forall in E. rewrite (E c Hc) in Hl. discriminate Hl. }
    rewrite E. apply andb_false_r.
  - intros w w' H H'. rewrite !key_drops; auto using param_not_word.
Qed.

Lemma filter_from_down (n : nat) (words : list jsstring) (i : nat) :
  n <= i -> filter_from n i false words = [].
Proof.
  revert i. induction words as [|w r IH]; intros i H; [reflexivity|].
  cbn [filter_from]. rewrite (proj2 (Nat.ltb_ge i n)) by lia.
  cbn [andb]. apply IH. lia.
Qed.

Lemma filter_from_after (n : nat) (words : list jsstring) (i : nat) :
  n <= i ->
  exists rest,
    words = filter_from n i true words ++ rest /\
    Forall (fun w => test comment_class_re w = false) (filter_from n i true words) /\
    match rest with [] => True | w :: _ => test comment_class_re w = true end.
Proof.
  revert i. induction words as [|w r IH]; intros i H.
  - exists []. repeat split. constructor.
  - cbn [filter_from]. rewrite (proj2 (Nat.ltb_ge i n)) by lia. cbn [andb].
    destruct (test comment_class_re w) eqn:E; cbn [negb].
    + rewrite filter_from_down by lia. exists (w :: r). repeat split; [constructor|exact E].
    + destruct (IH (S i)) as (rest & Hr & Hall & Hrest); [lia|].
      exists rest. repeat split; [|constructor; assumption|exact Hrest].
      cbn [app]. f_equal. exact Hr.
Qed.

Lemma filter_from_before (n : nat) (words : list jsstring) (i : nat) :
  i <= n -> filter_from n i true words = filter_from n n true (skipn (n - i) words).
Proof.
  revert i. induction words as [|w r IH]; intros i H.
  - rewrite skipn_nil. reflexivity.
  - destruct (Nat.eq_dec i n) as [->|Hne].
    + rewrite Nat.sub_diag. reflexivity.
    + cbn [filter_from]. rewrite (proj2 (Nat.ltb_lt i n)) by lia.
      rewrite IH by lia. replace (n - i) with (S (n - S i)) by lia. reflexivity.
Qed.

(** X3: [filterWords] drops the words of the keyword the line begins
    with, and of what follows it keeps the words before the first one
    that begins with [#], a bar or a slash: that word and all behind it
    are dropped. *)
Theorem filterWords_cuts_comment (p : Provider) (words : list jsstring) :
  exists rest,
    skipn (keyword_length (findKeyword p words)) words = filterWords p words ++ rest /\
    Forall (fun w => test comment_class_re w = false) (filterWords p words) /\
    match rest with [] => True | w :: _ => test comment_class_re w = true end.
Proof.
  unfold filterWords. rewrite filter_from_before by lia. rewrite Nat.sub_0_r.
  apply filter_from_after. lia.
Qed.

Lemma is_quote_dot (q : N) : is_quote q = true -> is_dot q = true.
Proof.
  unfold is_quote, one_of. cbn [existsb]. intros H.
  destruct (N.eqb q c_quote) eqn:E1; [apply N.eqb_eq in E1; subst; reflexivity|].
  destruct (N.eqb q c_apos) eqn:E2; [apply N.eqb_eq in E2; subst; reflexivity|].
  discriminate H.
Qed.

(** The greedy [.*] before a closing quote at the end of the text:
    the quote is given back. *)
Lemma backtrack_closing (g0 : nat) (q' : N) (s : jsstring) :
  is_quote q' = true -> forallb is_dot s = true ->
  forall i c,
    backtrack (fun i' s' c' => run (Seq (Chr is_quote) Eol) i' s' ((1, (g0, i')) :: c') here)
      is_dot i (s ++ [q']) c
    = Some (i + List.length s + 1, (1, (g0, i + List.length s)) :: c).
Proof.
  intros Hq. induction s as [|x r IH]; intros Hs i c.
  - cbn [app backtrack List.length]. rewrite (is_quote_dot q' Hq).
    cbn [run]. rewrite Hq. rewrite Nat.add_0_r. replace (i + 1) with (S i) by lia.
    reflexivity.
  - cbn [forallb] in Hs. apply andb_true_iff in Hs. destruct Hs as [Hx Hr].
    cbn [app backtrack]. rewrite Hx. rewrite IH by exact Hr.
    cbn [List.length]. replace (S i + List.length r) with (i + S (List.length r)) by lia.
    reflexivity.
Qed.

(** X4: [trimQuotes] takes away the first and the last code unit of a
    text when each is a double quote or an apostrophe (the two need not
    be the same) and no line terminator lies between them; a text that
    does not begin with one of the two is left as it is. *)
Theorem trimQuotes_strips (q q' : N) (s w : jsstring) :
  (is_quote q = true -> is_quote q' = true -> forallb is_dot s = true ->
   trimQuotes (q :: s ++ [q']) = s) /\
  (match w with x :: _ => is_quote x = false | [] => True end -> trimQuotes w = w).
Proof.
  split.
  - intros Hq Hq' Hs. unfold trimQuotes, replace1, exec.
    cbn [search]. fold here.
    change (run trimQuotes_re 0 (q :: s ++ [q']) [] here)
      with (if is_quote q
            then star_loop (run (Chr is_dot))
                   (fun i' s' c' =>
                      run (Seq (Chr is_quote) Eol) i' s' ((1, (1, i')) :: c') here)
                   (S (List.length (s ++ [q']))) 1 (s ++ [q']) []
            else None).
    rewrite Hq, star_class by lia. rewrite (backtrack_closing 1 q' s Hq' Hs).
    cbn [group cap_span Nat.eqb firstn app]. unfold substring.
    replace (1 + List.length s + 1) with (S (List.length (q :: s))) by (simpl; lia).
    replace (1 + List.length s - 1) with (List.length s) by lia.
    change (skipn 1 (q :: s ++ [q'])) with (s ++ [q']).
    rewrite firstn_app, Nat.sub_diag, firstn_all. cbn [firstn].
    rewrite (skipn_all2 (q :: s ++ [q'])) by (simpl; rewrite length_app; simpl; lia).
    rewrite !app_nil_r. reflexivity.
  - intros H. unfold trimQuotes, replace1, exec.
    assert (E : search trimQuotes_re 0 w = None).
    { destruct w as [|x r]; [reflexivity|].
      cbn [search]. fold here.
      rewrite (search_later_none trimQuotes_re) by (intros; reflexivity).
      change (run trimQuotes_re 0 (x :: r) [] here)
        with (if is_quote x
              then star_loop (run (Chr is_dot))
                     (fun i' s' c' =>
                        run (Seq (Chr is_quote) Eol) i' s' ((1, (1, i')) :: c') here)
                     (S (List.length r)) 1 r []
              else None).
      rewrite H. reflexivity. }
    rewrite E. reflexivity.
Qed.

Lemma trimQuotes_strips_witness :
  trimQuotes (str "'feature.one'") = str "feature.one" /\
  trimQuotes (str "one") = str "one".
Proof.
  pose proof (trimQuotes_strips c_apos c_apos (str "feature.one") (str "one")) as [H1 H2].
  split; [apply H1; reflexivity|apply H2; reflexivity].
Defined.

(* ================================================================== *)
(** ** Further properties of the setters *)

Lemma push_all {A} (f : Provider -> list A) (w : Provider -> list A -> Provider)
  (l : list A) (q : Provider) :
  (forall q x, f (w q x) = x) ->
  (forall q x y, w (w q x) y = w q y) ->
  fold_left (fun q e => w q (f q ++ [e])) l q = match l with [] => q | _ => w q (f q ++ l) end.
Proof.
  intros Hf Hw. revert q. induction l as [|e r IH]; intros q; [reflexivity|].
  cbn [fold_left]. rewrite IH. destruct r as [|e' r'].
  - reflexivity.
  - rewrite Hf, Hw, <- app_assoc. reflexivity.
Qed.

Lemma lower_each_strings (names : list jsstring) :
  lower_each (List.map JStr names) = Ok (List.map toLowerCase names).
Proof.
  induction names as [|s r IH]; [reflexivity|].
  cbn [List.map lower_each]. rewrite IH. reflexivity.
Qed.

Section SettersOutcomes.

Variable JSON_parse : jsstring -> option JSON.

(** X5: a payload that [JSON.parse] refuses makes every setter throw
    SyntaxError.  [setKeypairs], [setMetatags] and [setErrorLinks]
    parse before they clear and leave the provider as it was; so do
    [setElements], [setVariables] and [setStepList] when [clear] is not
    set, but with [clear] set they have emptied their dictionary
    before they parse. *)
Theorem setters_unparsable (arg : jsstring) (clear : bool) (p : Provider) :
  JSON_parse arg = None ->
  setKeypairs JSON_parse arg p = (Throw SyntaxError, p) /\
  setMetatags JSON_parse arg p = (Throw SyntaxError, p) /\
  setErrorLinks JSON_parse arg p = (Throw SyntaxError, p) /\
  setElements JSON_parse arg clear p
  = (Throw SyntaxError, if clear then with_elements p [] else p) /\
  setVariables JSON_parse arg clear p
  = (Throw SyntaxError, if clear then with_variables p [] else p) /\
  setStepList JSON_parse arg clear p
  = (Throw SyntaxError, if clear then with_steps p [] else p).
Proof.
  intros H.
  unfold setKeypairs, setMetatags, setErrorLinks, setElements, setVariables, setStepList,
    bindM, parse, lift, modify, ret.
  rewrite H. destruct clear; repeat split.
Qed.

(** X6: a payload that parses but is no array makes [setKeywords],
    [setMetatags], [setErrorLinks] and [setStepList] throw TypeError;
    the first three have emptied their list by then, and [setStepList]
    has emptied the steps when [clear] is set. *)
Theorem setters_not_an_array (arg : jsstring) (clear : bool) (p : Provider) (v : JSON) :
  JSON_parse arg = Some v -> is_array v = false ->
  setKeywords JSON_parse arg p = (Throw TypeError, with_keywords p []) /\
  setMetatags JSON_parse arg p = (Throw TypeError, with_metatags p []) /\
  setErrorLinks JSON_parse arg p = (Throw TypeError, with_errorLinks p []) /\
  setStepList JSON_parse arg clear p
  = (Throw TypeError, if clear then with_steps p [] else p).
Proof.
  intros H Hv.
  unfold setKeywords, setMetatags, setErrorLinks, setStepList,
    bindM, parse, lift, modify, ret, map_toLowerCase.
  rewrite H. destruct v; try discriminate Hv; destruct clear; repeat split.
Qed.

(** X7: with a payload that parses to an array, [setMetatags] and
    [setErrorLinks] return and leave the elements of the array, in
    their order, as the list, whatever the list held before;
    [setMetatags] builds the tokenizer anew. *)
Theorem setMetatags_replaces (arg : jsstring) (p : Provider) (l : list JSON) :
  JSON_parse arg = Some (JArr l) ->
  setMetatags JSON_parse arg p = (Ok tt, initTokenizer (with_metatags p l)) /\
  setErrorLinks JSON_parse arg p = (Ok tt, with_errorLinks p l).
Proof.
  intros H. split.
  - unfold setMetatags.
    rewrite (bindM_ok _ _ p p (JArr l)) by (unfold parse, lift; rewrite H; reflexivity).
    rewrite (bindM_ok _ _ p (with_metatags p []) tt) by reflexivity.
    rewrite (bindM_ok _ _ _ (with_metatags p []) l) by reflexivity.
    rewrite (bindM_ok _ _ _ _ tt
               (forEach_modify (fun w q => with_metatags q (_metatags q ++ [w])) _ _)).
    rewrite (push_all _metatags with_metatags) by reflexivity.
    destruct l; reflexivity.
  - unfold setErrorLinks.
    rewrite (bindM_ok _ _ p p (JArr l)) by (unfold parse, lift; rewrite H; reflexivity).
    rewrite (bindM_ok _ _ p (with_errorLinks p []) tt) by reflexivity.
    rewrite (bindM_ok _ _ _ (with_errorLinks p []) l) by reflexivity.
    rewrite (forEach_modify (fun w q => with_errorLinks q (_errorLinks q ++ [w]))).
    rewrite (push_all _errorLinks with_errorLinks) by reflexivity.
    destruct l; reflexivity.
Qed.

End SettersOutcomes.

Lemma setters_unparsable_witness :
  Host.JSON_parse (str "[when") = None /\
  setKeypairs Host.JSON_parse (str "[when") scenarioC = (Throw SyntaxError, scenarioC) /\
  setVariables Host.JSON_parse (str "[when") true withFoo
  = (Throw SyntaxError, with_variables withFoo []).
Proof.
  destruct (setters_unparsable Host.JSON_parse (str "[when") true scenarioC eq_refl)
    as (H1 & _).
  destruct (setters_unparsable Host.JSON_parse (str "[when") true withFoo eq_refl)
    as (_ & _ & _ & _ & H2 & _).
  split; [reflexivity|]. split; [exact H1|exact H2].
Defined.

Lemma setters_not_an_array_witness :
  Host.JSON_parse (str "{}") = Some (JObj []) /\
  setMetatags Host.JSON_parse (str "{}") new_provider
  = (Throw TypeError, with_metatags new_provider []).
Proof.
  destruct (setters_not_an_array Host.JSON_parse (str "{}") false new_provider (JObj [])
              eq_refl eq_refl) as (_ & H & _).
  split; [reflexivity|exact H].
Defined.

Lemma setMetatags_replaces_witness :
  _metatags (snd (setMetatags Host.JSON_parse (payload (JArr [JStr (str "if")])) new_provider))
  = [JStr (str "if")].
Proof.
  destruct (setMetatags_replaces Host.JSON_parse (payload (JArr [JStr (str "if")]))
              new_provider [JStr (str "if")] eq_refl) as [H _].
  rewrite H. reflexivity.
Defined.

(* ------------------------------------------------------------------ *)
(** *** Keywords after [setKeywords] *)

Lemma filter_insert_class {A} (le : A -> A -> bool) (P : A -> bool) (x : A) (l : list A) :
  (forall y, P x = true -> P y = true -> le x y = true) ->
  List.filter P (insert le x l) = List.filter P (x :: l).
Proof.
  intros H. induction l as [|y r IH]; [reflexivity|].
  cbn [insert]. destruct (le x y) eqn:E; [reflexivity|].
  cbn [List.filter] in *. rewrite IH.
  destruct (P x) eqn:Ex; [|reflexivity].
  destruct (P y) eqn:Ey; [|reflexivity].
  rewrite (H y eq_refl Ey) in E. discriminate E.
Qed.

Lemma filter_sort_class {A} (le : A -> A -> bool) (P : A -> bool) (l : list A) :
  (forall x y, P x = true -> P y = true -> le x y = true) ->
  List.filter P (sort le l) = List.filter P l.
Proof.
  intros H. induction l as [|x r IH]; [reflexivity|].
  cbn [sort]. rewrite filter_insert_class by (apply H).
  cbn [List.filter]. rewrite IH. reflexivity.
Qed.

Lemma split_acc_plain (cur s : jsstring) :
  has_blank s = false -> split_acc 32 cur s = [rev cur ++ s].
Proof.
  revert cur. induction s as [|c r IH]; intros cur H.
  - cbn [split_acc]. rewrite app_nil_r. reflexivity.
  - cbn [has_blank existsb] in H. apply orb_false_iff in H. destruct H as [Hc Hr].
    cbn [split_acc]. rewrite Hc. rewrite IH by exact Hr.
    cbn [rev]. rewrite <- app_assoc. reflexivity.
Qed.

Lemma split_acc_length (sep : N) (s cur : jsstring) :
  1 <= List.length (split_acc sep cur s).
Proof.
  revert cur. induction s as [|c r IH]; intros cur; cbn [split_acc].
  - simpl. lia.
  - destruct (N.eqb c sep); [simpl; lia|apply IH].
Qed.

Lemma split_acc_blank (cur s : jsstring) :
  has_blank s = true -> 2 <= List.length (split_acc 32 cur s).
Proof.
  revert cur. induction s as [|c r IH]; intros cur H; [discriminate H|].
  cbn [split_acc]. destruct (N.eqb c 32) eqn:E.
  - cbn [List.length]. pose proof (split_acc_length 32 r []). lia.
  - cbn [has_blank existsb] in H. rewrite E in H. apply IH, H.
Qed.

Lemma single_words_of (names : list jsstring) :
  List.map (fun w => List.hd [] w)
    (List.filter (fun w => List.length w =? 1) (List.map (split 32) names))
  = List.filter (fun w => negb (has_blank w)) names.
Proof.
  induction names as [|s r IH]; [reflexivity|].
  cbn [List.map List.filter].
  remember (split 32 s) as ws eqn:Ews. unfold split in Ews.
  destruct (has_blank s) eqn:E; cbn [negb].
  - pose proof (split_acc_blank [] s E) as H. rewrite <- Ews in H.
    rewrite (proj2 (Nat.eqb_neq _ 1)) by lia. exact IH.
  - rewrite split_acc_plain in Ews by exact E. subst ws.
    cbn [List.length Nat.eqb List.map List.hd rev app].
    rewrite IH. reflexivity.
Qed.

Section KeywordsFacts.

Variable JSON_parse : jsstring -> option JSON.

(** X8: with a payload that parses to an array of strings,
    [setKeywords] returns; the keyword list is then the entries of the
    payload in lower case, cut at the blanks, in an order where no
    keyword has more words than one before it, whatever was registered
    before.  The tokenizer is built anew, and the steps stay as they
    were, under the keys and with the labels they had. *)
Theorem setKeywords_replaces_sorted (arg : jsstring) (p : Provider) (names : list jsstring) :
  JSON_parse arg = Some (JArr (List.map JStr names)) ->
  let p' := snd (setKeywords JSON_parse arg p) in
  fst (setKeywords JSON_parse arg p) = Ok tt /\
  Permutation (_keywords p') (List.map (fun s => split 32 (toLowerCase s)) names) /\
  StronglySorted (fun a b => List.length b <= List.length a) (_keywords p') /\
  tokenizer p' = S (tokenizer p) /\ _steps p' = _steps p.
Proof.
  intros H p'.
  assert (E : setKeywords JSON_parse arg p =
              (Ok tt,
               initTokenizer
                 (with_keywords p
                    (sort (fun a b => List.length b <=? List.length a)
                       (List.map (split 32) (List.map toLowerCase names)))))).
  { unfold setKeywords, bindM, parse, lift, modify, map_toLowerCase. rewrite H.
    rewrite lower_each_strings. reflexivity. }
  subst p'. rewrite E. cbn [fst snd initTokenizer with_keywords _keywords tokenizer _steps].
  split; [reflexivity|]. split; [|split; [|split; reflexivity]].
  - rewrite <- (map_map toLowerCase (split 32)). apply Permutation_sym, sort_perm.
  - apply sort_sorted with (R := fun a b => List.length b <= List.length a).
    + intros x y L. apply Nat.leb_le in L. exact L.
    + intros x y L. apply Nat.leb_gt in L. lia.
    + intros x y z ? ?. lia.
Qed.

(** X9: after such a call, [singleWords] lists the entries of the
    payload that hold no blank, in lower case and in the order of the
    payload. *)
Theorem singleWords_payload_order (arg : jsstring) (p : Provider) (names : list jsstring) :
  JSON_parse arg = Some (JArr (List.map JStr names)) ->
  singleWords (snd (setKeywords JSON_parse arg p))
  = List.filter (fun w => negb (has_blank w)) (List.map toLowerCase names).
Proof.
  intros H.
  assert (E : _keywords (snd (setKeywords JSON_parse arg p)) =
              sort (fun a b => List.length b <=? List.length a)
                (List.map (split 32) (List.map toLowerCase names))).
  { unfold setKeywords, bindM, parse, lift, modify, map_toLowerCase. rewrite H.
    rewrite lower_each_strings. reflexivity. }
  unfold singleWords. rewrite E.
  rewrite filter_sort_class.
  - apply single_words_of.
  - intros x y Hx Hy. apply Nat.eqb_eq in Hx, Hy. apply Nat.leb_le. lia.
Qed.

End KeywordsFacts.

Lemma setKeywords_replaces_sorted_witness :
  let arg := payload (JArr [JStr (str "When"); JStr (str "when not")]) in
  Host.JSON_parse arg = Some (JArr [JStr (str "When"); JStr (str "when not")]) /\
  Permutation (_keywords (snd (setKeywords Host.JSON_parse arg scenarioC)))
    [[str "when"]; [str "when"; str "not"]] /\
  StronglySorted (fun a b => List.length b <= List.length a)
    (_keywords (snd (setKeywords Host.JSON_parse arg scenarioC))) /\
  _steps (snd (setKeywords Host.JSON_parse arg scenarioC)) = _steps scenarioC.
Proof.
  intros arg.
  destruct (setKeywords_replaces_sorted Host.JSON_parse arg scenarioC
              [str "When"; str "when not"] eq_refl) as (_ & Hp & Hs & _ & Hst).
  split; [reflexivity|]. split; [exact Hp|]. split; [exact Hs|exact Hst].
Defined.

Lemma singleWords_payload_order_witness :
  singleWords (snd (setKeywords Host.JSON_parse
                      (payload (JArr [JStr (str "Then"); JStr (str "when not");
                                      JStr (str "And")])) new_provider))
  = [str "then"; str "and"].
Proof.
  rewrite (singleWords_payload_order Host.JSON_parse
             (payload (JArr [JStr (str "Then"); JStr (str "when not"); JStr (str "And")]))
             new_provider [str "Then"; str "when not"; str "And"] eq_refl).
  reflexivity.
Defined.

(* ================================================================== *)
(** ** Further properties of the steps *)

Lemma addStep_registers (e : JSON) (text : jsstring) (q : Provider) :
  insertText_of e = Some text -> step_key q text <> proto_key ->
  addStep e q = (Ok tt, registerStep e q).
Proof.
  intros H Hk. unfold registerStep. rewrite H.
  apply eqb_neq in Hk. unfold step_key in Hk.
  unfold addStep, bindM, lift, modify, gets.
  unfold insertText_of in H.
  destruct e; try discriminate H;
    destruct (prop _ (str "insertText")) as [[| | |t| |]|]; try discriminate H;
    injection H as ->; rewrite Hk; reflexivity.
Qed.

Lemma registerStep_keywords (items : list JSON) (q : Provider) :
  _keywords (fold_left (fun q e => registerStep e q) items q) = _keywords q.
Proof.
  revert q. induction items as [|e r IH]; intros q; [reflexivity|].
  cbn [fold_left]. rewrite IH. unfold registerStep.
  destruct (insertText_of e); reflexivity.
Qed.

Lemma findKeyword_keywords (p q : Provider) (words : list jsstring) :
  _keywords p = _keywords q -> findKeyword p words = findKeyword q words.
Proof. intros H. unfold findKeyword. rewrite H. reflexivity. Qed.

Lemma step_key_keywords (p q : Provider) (text : jsstring) :
  _keywords p = _keywords q -> step_key p text = step_key q text.
Proof.
  intros H. unfold step_key, filterWords. rewrite (findKeyword_keywords p q _ H). reflexivity.
Qed.

Lemma forEach_addStep (items : list JSON) (p q : Provider) :
  _keywords q = _keywords p ->
  Forall (fun e => insertText_of e <> None) items ->
  Forall (fun e => forall t, insertText_of e = Some t -> step_key p t <> proto_key) items ->
  forEach items addStep q = (Ok tt, fold_left (fun q e => registerStep e q) items q).
Proof.
  revert q. induction items as [|e r IH]; intros q Hq H Hk; [reflexivity|].
  inversion H as [|? ? He Hr]; subst. inversion Hk as [|? ? Hke Hkr]; subst.
  destruct (insertText_of e) as [text|] eqn:E; [|congruence].
  cbn [forEach fold_left]. unfold bindM.
  rewrite (addStep_registers e text q E)
    by (rewrite (step_key_keywords q p text Hq); apply Hke; reflexivity).
  apply IH; [|exact Hr|exact Hkr].
  unfold registerStep. rewrite E. exact Hq.
Qed.

Lemma registerStep_others (items : list JSON) (q : Provider) (k : jsstring) :
  Forall (fun e => forall t, insertText_of e = Some t -> step_key q t <> k) items ->
  oget (_steps (fold_left (fun q e => registerStep e q) items q)) k = oget (_steps q) k.
Proof.
  revert q. induction items as [|e r IH]; intros q H; [reflexivity|].
  inversion H as [|? ? He Hr]; subst. cbn [fold_left].
  rewrite IH.
  - unfold registerStep. destruct (insertText_of e) as [t|]; [|reflexivity].
    cbn [_steps with_steps]. apply oget_oset_other. intros E. apply (He t eq_refl). congruence.
  - eapply Forall_impl; [|exact Hr]. intros e' He' t Ht.
    rewrite (step_key_keywords _ q); [apply He', Ht|].
    unfold registerStep. destruct (insertText_of e); reflexivity.
Qed.

Lemma registerStep_present (items : list JSON) (q : Provider) (k : jsstring) :
  is_some (oget (_steps q) k) = true ->
  is_some (oget (_steps (fold_left (fun q e => registerStep e q) items q)) k) = true.
Proof.
  revert q. induction items as [|e r IH]; intros q H; [exact H|].
  cbn [fold_left]. apply IH. unfold registerStep.
  destruct (insertText_of e) as [t|]; [|exact H].
  cbn [_steps with_steps]. rewrite oget_oset.
  destruct (eqb k (step_key q t)); [reflexivity|exact H].
Qed.

Lemma registerStep_elements (items : list JSON) (q : Provider) :
  _elements (fold_left (fun q e => registerStep e q) items q) = _elements q.
Proof.
  revert q. induction items as [|e r IH]; intros q; [reflexivity|].
  cbn [fold_left]. rewrite IH. unfold registerStep.
  destruct (insertText_of e); reflexivity.
Qed.

(** An assignment keeps what holds of every value of a dictionary,
    when it holds of the value assigned. *)
Lemma Forall_oset {V} (P : V -> Prop) (o : obj V) (k : jsstring) (v : V) :
  Forall (fun kv => P (snd kv)) o -> P v -> Forall (fun kv => P (snd kv)) (oset o k v).
Proof.
  intros Ho Hv. unfold oset.
  destruct (oget o k).
  - clear - Ho Hv. induction Ho as [|[k0 v0] r H0 Hr IH]; cbn [oreplace]; [constructor|].
    destruct (eqb k k0); constructor; assumption.
  - destruct (index_of k) as [n|].
    + clear - Ho Hv. induction Ho as [|[k0 v0] r H0 Hr IH]; cbn [oinsert_index].
      * constructor; [exact Hv|constructor].
      * destruct (index_of k0) as [n'|];
          [destruct (N.ltb n' n)|]; repeat (constructor; try assumption).
    + clear - Ho Hv. induction Ho as [|[k0 v0] r H0 Hr IH]; cbn [oappend].
      * constructor; [exact Hv|constructor].
      * constructor; assumption.
Qed.

(** The steps after the elements of a list are registered: each can
    be labelled when those there were and those of the list can. *)
Lemma registerStep_labelled (p : Provider) (items : list JSON) (q : Provider) :
  _keywords q = _keywords p ->
  Forall (plain_element p) items ->
  Forall (fun kv => labelled p (snd kv)) (_steps q) ->
  Forall (fun kv => labelled p (snd kv))
    (_steps (fold_left (fun q e => registerStep e q) items q)).
Proof.
  revert q. induction items as [|e r IH]; intros q Hq Hall Hs; [exact Hs|].
  inversion Hall as [|? ? He Hr]; subst. cbn [fold_left].
  apply IH; [|exact Hr|].
  - unfold registerStep. destruct (insertText_of e); exact Hq.
  - unfold registerStep. destruct (insertText_of e) as [t|] eqn:E; [|exact Hs].
    cbn [_steps with_steps]. apply Forall_oset; [exact Hs|]. apply (He t E).
Qed.

(** The labels leave the source of an entry as it is, at the entries
    the loop reaches and at the others. *)
Lemma updateStepLabel_source (p : Provider) (e e' : Step) :
  updateStepLabel p e = Ok e' -> same_source e e'.
Proof.
  unfold updateStepLabel. destruct (mapM (element_word p) (head e)); [|discriminate].
  cbn [bind]. intros [= <-]. repeat split.
Qed.

Lemma updateStepLabel_same_source (p : Provider) (e e' : Step) :
  same_source e e' -> updateStepLabel p e = updateStepLabel p e'.
Proof.
  intros (H1 & H2 & H3 & H4 & H5 & H6). unfold updateStepLabel.
  rewrite H1, H2, H3, H4, H5, H6. reflexivity.
Qed.

Lemma updateEntries_source (p : Provider) (steps : obj Step) :
  Forall2 (fun a b => fst a = fst b /\ same_source (snd a) (snd b))
    steps (snd (updateEntries p steps)).
Proof.
  assert (Refl : forall l : obj Step,
             Forall2 (fun a b => fst a = fst b /\ same_source (snd a) (snd b)) l l).
  { induction l; constructor; [repeat split|assumption]. }
  induction steps as [|[k e] r IH]; cbn [updateEntries]; [constructor|].
  destruct (updateStepLabel p e) as [e'|x] eqn:E; cbn [snd].
  - constructor; [|exact IH]. split; [reflexivity|]. apply (updateStepLabel_source p e e' E).
  - apply Refl.
Qed.

(** Where the loop returns for a list of entries, it does the same
    for entries of the same keys and sources. *)
Lemma updateEntries_same_source (p : Provider) (s1 s2 : obj Step) :
  Forall2 (fun a b => fst a = fst b /\ same_source (snd a) (snd b)) s1 s2 ->
  fst (updateEntries p s1) = Ok tt ->
  updateEntries p s2 = updateEntries p s1.
Proof.
  induction 1 as [|[k1 e1] [k2 e2] r1 r2 [Hk He] Hr IH]; [reflexivity|].
  cbn [fst snd] in Hk, He. subst k2. cbn [updateEntries].
  rewrite <- (updateStepLabel_same_source p e1 e2 He).
  destruct (updateStepLabel p e1) as [e'|x]; cbn [fst]; [|discriminate].
  intros H. rewrite (IH H). reflexivity.
Qed.

(** Whether the loop returns, and what it throws, is decided by the
    keys and the sources of the entries. *)
Lemma updateEntries_outcome (p : Provider) (s1 s2 : obj Step) :
  Forall2 (fun a b => fst a = fst b /\ same_source (snd a) (snd b)) s1 s2 ->
  fst (updateEntries p s2) = fst (updateEntries p s1).
Proof.
  induction 1 as [|[k1 e1] [k2 e2] r1 r2 [Hk He] Hr IH]; [reflexivity|].
  cbn [fst snd] in Hk, He. subst k2. cbn [updateEntries].
  rewrite <- (updateStepLabel_same_source p e1 e2 He).
  destruct (updateStepLabel p e1) as [e'|x]; cbn [fst]; [exact IH|reflexivity].
Qed.

(** The loop run again over the entries it left does what it did. *)
Lemma updateEntries_again (p : Provider) (steps : obj Step) :
  updateEntries p (snd (updateEntries p steps)) = updateEntries p steps.
Proof.
  induction steps as [|[k e] r IH]; [reflexivity|]. cbn [updateEntries].
  destruct (updateStepLabel p e) as [e'|x] eqn:E; cbn [snd].
  - cbn [updateEntries].
    rewrite <- (updateStepLabel_same_source p e e' (updateStepLabel_source p e e' E)), E.
    rewrite IH. reflexivity.
  - cbn [updateEntries]. rewrite E. reflexivity.
Qed.

Section StepsFacts.

Variable JSON_parse : jsstring -> option JSON.

(** A call of [setStepList] with a payload that parses to an array of
    elements with an insert text, the key of none being [__proto__]:
    the elements are registered, and the labels computed. *)
Lemma setStepList_parsed (list_ : jsstring) (clear : bool) (p : Provider)
  (items : list JSON) :
  JSON_parse list_ = Some (JArr items) ->
  Forall (fun e => insertText_of e <> None) items ->
  Forall (fun e => forall t, insertText_of e = Some t -> step_key p t <> proto_key) items ->
  setStepList JSON_parse list_ clear p =
  updateStepLabels
    (fold_left (fun q e => registerStep e q) items
       (if clear then with_steps p [] else p)).
Proof.
  intros Hparse Hall Hkeys. unfold setStepList.
  rewrite (bindM_ok _ _ p (if clear then with_steps p [] else p) tt)
    by (destruct clear; reflexivity).
  rewrite (bindM_ok _ _ _ (if clear then with_steps p [] else p) (JArr items))
    by (unfold parse, lift; rewrite Hparse; reflexivity).
  rewrite (bindM_ok _ _ _ (if clear then with_steps p [] else p) items) by reflexivity.
  assert (Hk0 : _keywords (if clear then with_steps p [] else p) = _keywords p)
    by (destruct clear; reflexivity).
  rewrite (bindM_ok _ _ _ _ tt (forEach_addStep items p _ Hk0 Hall Hkeys)).
  reflexivity.
Qed.

Lemma plain_element_key (p : Provider) (items : list JSON) :
  Forall (plain_element p) items ->
  Forall (fun e => forall t, insertText_of e = Some t -> step_key p t <> proto_key) items.
Proof.
  intros H. eapply Forall_impl; [|exact H]. intros e He t Ht. apply (He t Ht).
Qed.

(** The steps that [setStepList] leaves, where the labels of the steps
    there were and of the elements can be computed: the call returns,
    and each step registered has its label. *)
Lemma setStepList_labelled (list_ : jsstring) (clear : bool) (p : Provider)
  (items : list JSON) :
  JSON_parse list_ = Some (JArr items) ->
  Forall (fun e => insertText_of e <> None) items ->
  Forall (plain_element p) items ->
  (clear = false -> Forall (fun kv => labelled p (snd kv)) (_steps p)) ->
  let q := fold_left (fun q e => registerStep e q) items
             (if clear then with_steps p [] else p) in
  fst (setStepList JSON_parse list_ clear p) = Ok tt /\
  forall k e, oget (_steps q) k = Some e ->
    exists e', updateStepLabel p e = Ok e' /\
               oget (_steps (snd (setStepList JSON_parse list_ clear p))) k = Some e'.
Proof.
  intros Hparse Hall Hplain Hold q.
  rewrite (setStepList_parsed _ _ _ _ Hparse Hall (plain_element_key _ _ Hplain)).
  fold q. set (p0 := if clear then with_steps p [] else p) in *.
  assert (Hk0 : _keywords p0 = _keywords p) by (unfold p0; destruct clear; reflexivity).
  assert (He0 : _elements p0 = _elements p) by (unfold p0; destruct clear; reflexivity).
  assert (Hkq : _keywords q = _keywords p)
    by (unfold q; rewrite registerStep_keywords; exact Hk0).
  assert (Heq : _elements q = _elements p)
    by (unfold q; rewrite registerStep_elements; exact He0).
  assert (Hs0 : Forall (fun kv => labelled p (snd kv)) (_steps p0)).
  { unfold p0. destruct clear; [constructor|apply Hold; reflexivity]. }
  assert (Hq : Forall (fun kv => labelled q (snd kv)) (_steps q)).
  { eapply Forall_impl;
      [|exact (registerStep_labelled p items p0 Hk0 Hplain Hs0)].
    intros kv H. apply (labelled_ext p q); [symmetry; exact Heq|symmetry; exact Hkq|exact H]. }
  destruct (updateEntries_labelled q (_steps q) Hq) as [H1 H2].
  unfold updateStepLabels. cbn [fst snd _steps with_steps]. split; [exact H1|].
  intros k e Hke. destruct (H2 k e Hke) as (e' & E1 & E2). exists e'.
  split; [|exact E2]. rewrite <- (updateStepLabel_ext q p e Heq Hkq). exact E1.
Qed.

(** X10: take a call of [setStepList] with a payload that parses to an
    array whose elements all have an insert text, none with the key
    [__proto__], where the labels of these elements and (unless [clear]
    is set) of the steps there are can be computed.  The call returns,
    and an element that no later element of the payload equals in the
    key is then found under its key (the phrase key of the first line
    of its insert text): the entry has the words of that line as its
    head, the further lines as its body, the documentation, section,
    sort text and kind of the element, and the label computed from the
    head. *)
Theorem setStepList_registers (list_ : jsstring) (clear : bool) (p : Provider)
  (l1 l2 : list JSON) (e : JSON) (text : jsstring) :
  JSON_parse list_ = Some (JArr (l1 ++ e :: l2)) ->
  Forall (fun e' => insertText_of e' <> None) (l1 ++ e :: l2) ->
  Forall (plain_element p) (l1 ++ e :: l2) ->
  (clear = false -> Forall (fun kv => labelled p (snd kv)) (_steps p)) ->
  insertText_of e = Some text ->
  Forall (fun e' => forall t, insertText_of e' = Some t -> step_key p t <> step_key p text) l2 ->
  fst (setStepList JSON_parse list_ clear p) = Ok tt /\
  exists s,
    updateStepLabel p (step_of e text) = Ok s /\
    oget (_steps (snd (setStepList JSON_parse list_ clear p))) (step_key p text) = Some s.
Proof.
  intros Hparse Hall Hplain Hold He Hl2.
  destruct (setStepList_labelled list_ clear p (l1 ++ e :: l2) Hparse Hall Hplain Hold)
    as [Hok Hget].
  split; [exact Hok|]. apply Hget.
  set (p0 := if clear then with_steps p [] else p).
  assert (Hk0 : _keywords p0 = _keywords p) by (unfold p0; destruct clear; reflexivity).
  rewrite fold_left_app. cbn [fold_left].
  set (q1 := fold_left (fun q e0 => registerStep e0 q) l1 p0).
  assert (Hk1 : _keywords q1 = _keywords p)
    by (unfold q1; rewrite registerStep_keywords; exact Hk0).
  assert (Hq2 : registerStep e q1
                = with_steps q1 (oset (_steps q1) (step_key q1 text) (step_of e text)))
    by (unfold registerStep; rewrite He; reflexivity).
  rewrite Hq2. rewrite registerStep_others.
  - cbn [_steps with_steps]. rewrite (step_key_keywords q1 p text Hk1). apply oget_oset_same.
  - eapply Forall_impl; [|exact Hl2]. intros e' He' t Ht.
    rewrite (step_key_keywords
               (with_steps q1 (oset (_steps q1) (step_key q1 text) (step_of e text)))
               p t Hk1).
    apply He', Ht.
Qed.

End StepsFacts.

(** X11: the labels are computed from the heads and the elements
    alone, never from the labels there were.  Whether
    [updateStepLabels] returns after a change of the elements, and
    what it throws, is the same whether or not the labels had been
    computed before the change; where it returns, it leaves the same
    provider in both cases; and [updateStepLabels] run twice does, and
    leaves, the same as run once, also where it throws. *)
Theorem updateStepLabels_from_heads (p : Provider) (els : obj JSON) :
  fst (updateStepLabels (with_elements (snd (updateStepLabels p)) els))
  = fst (updateStepLabels (with_elements p els)) /\
  (fst (updateStepLabels (with_elements p els)) = Ok tt ->
   updateStepLabels (with_elements (snd (updateStepLabels p)) els)
   = updateStepLabels (with_elements p els)) /\
  updateStepLabels (snd (updateStepLabels p)) = updateStepLabels p.
Proof.
  split; [|split].
  - unfold updateStepLabels. cbn [fst snd _steps with_steps with_elements].
    rewrite (updateEntries_ext
               (with_elements (with_steps p (snd (updateEntries p (_steps p)))) els)
               (with_elements p els)) by reflexivity.
    apply updateEntries_outcome, updateEntries_source.
  - unfold updateStepLabels. cbn [fst snd _steps with_steps with_elements].
    intros H.
    rewrite (updateEntries_ext
               (with_elements (with_steps p (snd (updateEntries p (_steps p)))) els)
               (with_elements p els)) by reflexivity.
    rewrite (updateEntries_same_source (with_elements p els) (_steps p)
               (snd (updateEntries p (_steps p))) (updateEntries_source p (_steps p)) H).
    reflexivity.
  - unfold updateStepLabels. cbn [fst snd _steps with_steps].
    rewrite (updateEntries_ext (with_steps p (snd (updateEntries p (_steps p)))) p)
      by reflexivity.
    rewrite updateEntries_again. reflexivity.
Qed.

Lemma updateStepLabels_from_heads_witness :
  let els := [(str "ok", JStr (str "Accept"))] in
  fst (updateStepLabels (with_elements scenarioC els)) = Ok tt /\
  updateStepLabels (with_elements (snd (updateStepLabels scenarioC)) els)
  = updateStepLabels (with_elements scenarioC els).
Proof.
  intros els. split; [reflexivity|].
  apply (proj1 (proj2 (updateStepLabels_from_heads scenarioC els))). reflexivity.
Defined.

(** Where the labels cannot be computed after the change, the entries
    behind the one at which the conversion throws keep the labels they
    had, which are those computed before the change, if any. *)
Example updateStepLabels_after_throw :
  let p := with_steps new_provider
             [(str "a", step_of (JObj []) (str "'x'"));
              (str "b", step_of (JObj []) (str "open"))] in
  let els := [(str "x", JObj [(str "toString", JNum 1)])] in
  fst (updateStepLabels p) = Ok tt /\
  fst (updateStepLabels (with_elements p els)) = Throw TypeError /\
  option_map label (oget (_steps (snd (updateStepLabels (with_elements p els)))) (str "b"))
  = Some None /\
  option_map label
    (oget (_steps (snd (updateStepLabels (with_elements (snd (updateStepLabels p)) els))))
       (str "b"))
  = Some (Some (str "open")).
Proof. vm_compute. repeat split. Qed.

Lemma setStepList_registers_witness :
  let text := str "Click button 'OK'" in
  let e := JObj [(str "insertText", JStr text); (str "documentation", JStr (str "Clicks"))] in
  let p' := snd (setStepList Host.JSON_parse (payload (JArr [e])) true scenarioC) in
  (step_key scenarioC text = str "button" /\ plain_element scenarioC e) /\
  fst (setStepList Host.JSON_parse (payload (JArr [e])) true scenarioC) = Ok tt /\
  option_map label (oget (_steps p') (str "button")) = Some (Some (str "button 'OK'")).
Proof.
  intros text e p'.
  assert (Hall : Forall (fun e' => insertText_of e' <> None) ([] ++ e :: []))
    by (repeat constructor; discriminate).
  assert (He : plain_element scenarioC e).
  { intros t [= <-]. split; [discriminate|reflexivity]. }
  assert (Hplain : Forall (plain_element scenarioC) ([] ++ e :: []))
    by (constructor; [exact He|constructor]).
  destruct (setStepList_registers Host.JSON_parse (payload (JArr [e])) true scenarioC
              [] [] e text eq_refl Hall Hplain
              (fun H : true = false => False_ind _ (diff_true_false H))
              eq_refl (Forall_nil _)) as [Hok (s0 & Hs & Hget)].
  split; [split; [reflexivity|exact He]|]. split; [exact Hok|].
  change (str "button") with (step_key scenarioC text). fold p' in Hget. rewrite Hget.
  injection Hs as <-. reflexivity.
Defined.

(* ================================================================== *)
(** ** Further properties of the syntax validator *)

Lemma lineSyntaxError_true (p : Provider) (mt : KeywordMatcher) (line : jsstring)
  (section_ : option jsstring) :
  _matcher p = Some mt ->
  lineSyntaxError p line section_ = Ok true ->
  reg_step mt line = true /\
  exists kw,
    findKeyword p (splitWords line) = Some kw /\
    let words := filterWords p (splitWords line) in
    key words <> [] /\
    has (_steps p) (key words) = false /\
    match oget (_keypairs p) (join (str " ") kw) with
    | None => True
    | Some keypair =>
        (has (_steps p) (key (removelast words))
         && existsb (fun w => eqb w (toLowerCase (last words []))) keypair)%bool = false
    end.
Proof.
  intros Hm. unfold lineSyntaxError, matcher, filterWords. rewrite Hm. cbn [bind].
  destruct (reg_step mt line); [|discriminate]. cbn [negb].
  destruct (findKeyword p (splitWords line)) as [kw|]; [|discriminate].
  cbn [keyword_length].
  set (words := filter_from (List.length kw) 0 true (splitWords line)).
  intros H. split; [reflexivity|]. exists kw. split; [reflexivity|]. cbv zeta.
  destruct (eqb (key words) []) eqn:Ekey; [discriminate|].
  apply eqb_neq in Ekey. split; [exact Ekey|].
  destruct (has (_steps p) (key words)); [discriminate|].
  split; [reflexivity|].
  destruct (oget (_keypairs p) (join (str " ") kw)) as [kp|] eqn:Ekp; [|exact I].
  rewrite (oread_Found _ _ _ Ekp) in H.
  assert (Hne : words <> []) by (intros E; rewrite E in Ekey; apply Ekey; reflexivity).
  rewrite (nth_error_last words [] Hne) in H.
  rewrite filter_index_lt, Nat.sub_0_r, firstn_pred_removelast in H.
  injection H as H. apply negb_true_iff in H. exact H.
Qed.

(** The diagnostics that [checkLines] adds for the lines from [a] on:
    one for each line of an increasing list of flagged lines. *)
Lemma checkLines_markers (p : Provider) (mt : KeywordMatcher) (model : ITextModel) :
  _matcher p = Some mt -> plain_keywords p ->
  forall len a multiline section_ problems,
  exists ns,
    checkLines p model (seq a len) multiline section_ problems
    = Ok (problems ++ List.map (syntaxMarker p model) ns) /\
    StronglySorted lt ns /\
    Forall (fun n => a <= n < a + len /\ flagged_line p mt (getLineContent model n)) ns.
Proof.
  intros Hm Hplain. induction len as [|len IH]; intros a multiline section_ problems.
  - exists []. cbn [seq checkLines List.map]. rewrite app_nil_r.
    repeat split; constructor.
  - cbn [seq checkLines].
    assert (Step : forall ml s, exists ns,
              checkLines p model (seq (S a) len) ml s problems
              = Ok (problems ++ List.map (syntaxMarker p model) ns) /\
              StronglySorted lt ns /\
              Forall (fun n => a <= n < a + S len /\
                               flagged_line p mt (getLineContent model n)) ns).
    { intros ml s. destruct (IH (S a) ml s problems) as (ns & E & Hs & Hall).
      exists ns. split; [exact E|]. split; [exact Hs|].
      eapply Forall_impl; [|exact Hall]. intros n [Hn Hf]. split; [lia|exact Hf]. }
    destruct (test multiline_line_re (getLineContent model a)) eqn:Eml; [apply Step|].
    destruct multiline; [apply Step|].
    destruct (test skip_re (getLineContent model a)) eqn:Eskip; [apply Step|].
    destruct (isSection p (getLineContent model a) []) as [sec|e] eqn:Esec;
      [|unfold isSection, matcher in Esec; rewrite Hm in Esec; cbn [bind] in Esec;
        destruct (oget (reg_section mt) []); discriminate Esec].
    cbn [bind]. destruct sec.
    { unfold getSection, matcher. rewrite Hm. cbn [bind]. apply Step. }
    destruct (match section_ with
              | Some s => eqb s (str "feature")
              | None => false
              end); [apply Step|].
    destruct (lineSyntaxError_returns p mt (getLineContent model a) section_ Hm Hplain)
      as (b & Eb).
    rewrite Eb. cbn [bind]. destruct b; [|apply Step].
    fold (syntaxMarker p model a).
    destruct (IH (S a) false section_ (problems ++ [syntaxMarker p model a]))
      as (ns & E & Hs & Hall).
    exists (a :: ns). split; [|split].
    + rewrite E, <- app_assoc. reflexivity.
    + constructor; [exact Hs|].
      eapply Forall_impl; [|exact Hall]. intros n [Hn _]. lia.
    + constructor.
      * split; [lia|]. destruct (lineSyntaxError_true p mt _ _ Hm Eb) as (Hr & Hk).
        repeat split; assumption.
      * eapply Forall_impl; [|exact Hall]. intros n [Hn Hf]. split; [lia|exact Hf].
Qed.

(** X12: with a matcher set and no keyword that is an inherited name,
    [checkSyntax] returns on a model of the language and puts, as the
    markers of owner [syntax], one diagnostic for each line of an
    increasing list of lines of the model: an Error with the configured
    message, from the first to the last column of the line that is not
    white space.  Each such line is a step line that begins with a
    registered keyword and whose phrase key is not empty and finds
    nothing in [steps]; it is no comment, instruction, section header
    or delimiter of a multi-line text. *)
Theorem checkSyntax_markers (p : Provider) (mt : KeywordMatcher) (model : ITextModel)
  (store : MarkerStore) :
  _matcher p = Some mt ->
  plain_keywords p ->
  getModeId model = str "turbo-gherkin" ->
  exists ns,
    checkSyntax p model store
    = Ok (setModelMarkers store model (str "syntax") (List.map (syntaxMarker p model) ns)) /\
    StronglySorted lt ns /\
    Forall (fun n => 1 <= n <= getLineCount model /\
                     flagged_line p mt (getLineContent model n)) ns.
Proof.
  intros Hm Hplain Hlang.
  unfold checkSyntax, syntaxProblems. rewrite Hlang, eqb_refl. cbn [negb].
  destruct (checkLines_markers p mt model Hm Hplain (getLineCount model) 1 false (Some []) [])
    as (ns & E & Hs & Hall).
  exists ns. rewrite E. cbn [bind app]. split; [reflexivity|]. split; [exact Hs|].
  eapply Forall_impl; [|exact Hall]. intros n [Hn Hf]. split; [lia|exact Hf].
Qed.

Lemma checkSyntax_markers_witness :
  plain_keywords scenarioC /\
  (exists ns,
     checkSyntax scenarioC clickFeature []
     = Ok (setModelMarkers [] clickFeature (str "syntax")
             (List.map (syntaxMarker scenarioC clickFeature) ns)) /\
     StronglySorted lt ns /\
     Forall (fun n => 1 <= n <= getLineCount clickFeature /\
                      flagged_line scenarioC Host.sampleMatcher
                        (getLineContent clickFeature n)) ns) /\
  checkSyntax scenarioC clickFeature []
  = Ok [(uri clickFeature, str "syntax", [syntaxMarker scenarioC clickFeature 3])].
Proof.
  assert (Hplain : plain_keywords scenarioC) by (repeat constructor).
  split; [exact Hplain|]. split.
  - exact (checkSyntax_markers scenarioC Host.sampleMatcher clickFeature [] eq_refl
             Hplain eq_refl).
  - vm_compute. reflexivity.
Defined.

Lemma registerStep_In (items : list JSON) (q : Provider) (e : JSON) (t : jsstring) :
  In e items -> insertText_of e = Some t ->
  is_some (oget (_steps (fold_left (fun q e => registerStep e q) items q)) (step_key q t)) = true.
Proof.
  revert q. induction items as [|e' r IH]; intros q Hin He; [destruct Hin|].
  cbn [fold_left].
  assert (Hk : _keywords (registerStep e' q) = _keywords q)
    by (unfold registerStep; destruct (insertText_of e'); reflexivity).
  destruct Hin as [->|Hin].
  - apply registerStep_present. unfold registerStep. rewrite He.
    cbn [_steps with_steps]. rewrite oget_oset_same. reflexivity.
  - rewrite <- (step_key_keywords _ q t Hk). apply IH; assumption.
Qed.

Lemma registerStep_matcher (items : list JSON) (q : Provider) :
  _matcher (fold_left (fun q e => registerStep e q) items q) = _matcher q.
Proof.
  revert q. induction items as [|e r IH]; intros q; [reflexivity|].
  cbn [fold_left]. rewrite IH. unfold registerStep.
  destruct (insertText_of e); reflexivity.
Qed.

Section RegisteredSteps.

Variable JSON_parse : jsstring -> option JSON.

(** X13: take a call of [setStepList] as in X10 (the payload parses to
    an array of elements with an insert text, none with the key
    [__proto__], and the labels can be computed), on a provider with a
    matcher and without a keyword that is an inherited name.  The call
    returns, and after it no diagnostic of [checkSyntax] is on a line
    that has the words of the first line of the insert text of an
    element of the payload, however the line is indented and whatever
    else the document holds. *)
Theorem registered_step_not_flagged (list_ : jsstring) (clear : bool) (p : Provider)
  (mt : KeywordMatcher) (items : list JSON) (e : JSON) (text : jsstring)
  (model : ITextModel) (store : MarkerStore) :
  JSON_parse list_ = Some (JArr items) ->
  Forall (fun e' => insertText_of e' <> None) items ->
  Forall (plain_element p) items ->
  (clear = false -> Forall (fun kv => labelled p (snd kv)) (_steps p)) ->
  In e items -> insertText_of e = Some text ->
  _matcher p = Some mt ->
  plain_keywords p ->
  getModeId model = str "turbo-gherkin" ->
  fst (setStepList JSON_parse list_ clear p) = Ok tt /\
  exists store',
    checkSyntax (snd (setStepList JSON_parse list_ clear p)) model store = Ok store' /\
    forall m, In m (getModelMarkers store' (uri model) (str "syntax")) ->
              splitWords (getLineContent model (m_startLineNumber m))
              <> splitWords (List.hd [] (split 10 text)).
Proof.
  intros Hparse Hall Hplain Hold Hin He Hm Hkw Hlang.
  destruct (setStepList_labelled JSON_parse list_ clear p items Hparse Hall Hplain Hold)
    as [Hok Hget].
  split; [exact Hok|].
  pose proof (setStepList_parsed JSON_parse _ clear p _ Hparse Hall
                (plain_element_key _ _ Hplain)) as Hset.
  set (p0 := if clear then with_steps p [] else p) in *.
  set (q := fold_left (fun q e0 => registerStep e0 q) items p0) in *.
  set (p' := snd (setStepList JSON_parse list_ clear p)) in *.
  assert (Hk0 : _keywords p0 = _keywords p) by (unfold p0; destruct clear; reflexivity).
  assert (Hq : _keywords q = _keywords p)
    by (unfold q; rewrite registerStep_keywords; exact Hk0).
  assert (Hp' : _keywords p' = _keywords p /\ _matcher p' = Some mt).
  { unfold p'. rewrite Hset. unfold updateStepLabels. cbn [snd _keywords _matcher with_steps].
    split; [exact Hq|]. unfold q. rewrite registerStep_matcher.
    unfold p0. destruct clear; exact Hm. }
  destruct Hp' as [Hk' Hm'].
  assert (Hkw' : plain_keywords p') by (unfold plain_keywords; rewrite Hk'; exact Hkw).
  unfold checkSyntax, syntaxProblems. rewrite Hlang, eqb_refl. cbn [negb].
  destruct (checkLines_markers p' mt model Hm' Hkw' (getLineCount model) 1 false (Some []) [])
    as (ns & E & _ & Hflag).
  rewrite E. cbn [bind app].
  eexists. split; [reflexivity|]. intros m Hmk.
  rewrite getModelMarkers_set in Hmk. apply in_map_iff in Hmk.
  destruct Hmk as (n & <- & Hn). cbn [syntaxMarker m_startLineNumber].
  rewrite Forall_forall in Hflag. destruct (Hflag n Hn) as (_ & _ & _ & _ & _ & kw & _ & Hk).
  cbv zeta in Hk. destruct Hk as (_ & Hnone & _). intros Eline.
  pose proof (registerStep_In items p0 e text Hin He) as Hp. fold q in Hp.
  assert (Ekey : key (filterWords p' (splitWords (getLineContent model n)))
                 = step_key p0 text).
  { rewrite Eline. unfold step_key, filterWords.
    rewrite (findKeyword_keywords p' p0); [reflexivity|]. rewrite Hk', Hk0. reflexivity. }
  rewrite Ekey in Hnone.
  destruct (oget (_steps q) (step_key p0 text)) as [st|] eqn:Est; [|discriminate Hp].
  destruct (Hget (step_key p0 text) st Est) as (st' & _ & Hst').
  rewrite (has_entry _ _ _ Hst') in Hnone. discriminate Hnone.
Qed.

End RegisteredSteps.

Lemma registered_step_not_flagged_witness :
  let e := JObj [(str "insertText", JStr (str "click nothing"))] in
  let p' := snd (setStepList Host.JSON_parse (payload (JArr [e])) false scenarioC) in
  (plain_element scenarioC e /\ plain_keywords scenarioC /\
   Forall (fun kv => labelled scenarioC (snd kv)) (_steps scenarioC)) /\
  (exists store',
     checkSyntax p' clickFeature [] = Ok store' /\
     forall m, In m (getModelMarkers store' (uri clickFeature) (str "syntax")) ->
               splitWords (getLineContent clickFeature (m_startLineNumber m))
               <> splitWords (List.hd [] (split 10 (str "click nothing")))) /\
  checkSyntax p' clickFeature [] = Ok [(uri clickFeature, str "syntax", [])].
Proof.
  intros e p'.
  assert (Hall : Forall (fun e' => insertText_of e' <> None) [e])
    by (repeat constructor; discriminate).
  assert (He : plain_element scenarioC e).
  { intros t [= <-]. split; [discriminate|reflexivity]. }
  assert (Hkw : plain_keywords scenarioC) by (repeat constructor).
  assert (Hold : Forall (fun kv => labelled scenarioC (snd kv)) (_steps scenarioC)).
  { constructor; [reflexivity|constructor]. }
  split; [split; [exact He|split; [exact Hkw|exact Hold]]|]. split.
  - exact (proj2 (registered_step_not_flagged Host.JSON_parse (payload (JArr [e])) false
                    scenarioC Host.sampleMatcher [e] e (str "click nothing") clickFeature []
                    eq_refl Hall (Forall_cons _ He (Forall_nil _)) (fun _ => Hold)
                    (or_introl eq_refl) eq_refl eq_refl Hkw eq_refl)).
  - vm_compute. reflexivity.
Defined.

(** X14: as long as no matcher is set, [checkSyntax] throws TypeError
    on a model of the language as soon as it meets a line outside a
    multi-line text that is no delimiter of one and does not begin
    with [#], [@] or [//]: so it does when the first line is such a
    line, an empty line included. *)
Theorem checkSyntax_without_matcher (p : Provider) (model : ITextModel) (store : MarkerStore) :
  _matcher p = None ->
  getModeId model = str "turbo-gherkin" ->
  1 <= getLineCount model ->
  test multiline_line_re (getLineContent model 1) = false ->
  test skip_re (getLineContent model 1) = false ->
  checkSyntax p model store = Throw TypeError.
Proof.
  intros Hm Hlang Hcount Hml Hskip.
  unfold checkSyntax, syntaxProblems. rewrite Hlang, eqb_refl. cbn [negb].
  destruct (getLineCount model) as [|n]; [lia|].
  cbn [seq checkLines]. rewrite Hml, Hskip.
  unfold isSection, matcher. rewrite Hm. reflexivity.
Qed.

Lemma checkSyntax_without_matcher_witness :
  checkSyntax new_provider (Host.createModel (str "turbo-gherkin") []) [] = Throw TypeError.
Proof.
  apply checkSyntax_without_matcher; first [reflexivity|simpl; lia].
Defined.

(* ================================================================== *)
(** ** Further properties of the quick-fix engine *)





(* ================================================================== *)
(** ** Further properties of the line classifier *)

Lemma trimStart_spaces (ws text : jsstring) :
  forallb is_space ws = true -> trimStart (ws ++ text) = trimStart text.
Proof.
  induction ws as [|c r IH]; intros H; [reflexivity|].
  cbn [forallb] in H. apply andb_true_iff in H. destruct H as [Hc Hr].
  cbn [app trimStart]. rewrite Hc. apply IH, Hr.
Qed.

(** X16: the class of a line does not depend on its indentation:
    white space before a text leaves its class as it is. *)
Theorem getToken_indentation (ws text : jsstring) :
  forallb is_space ws = true -> getToken (ws ++ text) = getToken text.
Proof.
  intros H. rewrite !getToken_by_first, (trimStart_spaces ws text H). reflexivity.
Qed.

Lemma getToken_indentation_witness :
  getToken (str "    # note") = getToken (str "# note") /\
  getToken (str "# note") = Comment.
Proof.
  split; [|reflexivity].
  apply (getToken_indentation (str "    ") (str "# note")). reflexivity.
Defined.

(** The first code unit that is no white space is found behind the
    leading white space. *)
Lemma search_nonspace (ws : jsstring) (x : N) (rest : jsstring) (i : nat) :
  forallb is_space ws = true -> is_space x = false ->
  search (Not is_space) i (ws ++ x :: rest)
  = Some (i + List.length ws, S (i + List.length ws), []).
Proof.
  revert i. induction ws as [|c r IH]; intros i H Hx.
  - cbn [app search List.length]. unfold Not. cbn [run]. rewrite Hx, Nat.add_0_r. reflexivity.
  - cbn [forallb] in H. apply andb_true_iff in H. destruct H as [Hc Hr].
    cbn [app search List.length]. unfold Not at 1. cbn [run]. rewrite Hc. cbn [negb].
    rewrite (IH (S i) Hr Hx). do 3 f_equal; lia.
Qed.

Lemma getIndent_leading (ws : jsstring) (x : N) (rest : jsstring) (tabSize_ : nat) :
  forallb is_space ws = true -> is_space x = false ->
  getIndent (ws ++ x :: rest) tabSize_
  = option_map S (fold_left (indentStep tabSize_) ws (Some 0)).
Proof.
  intros H Hx. unfold getIndent, exec. rewrite (search_nonspace ws x rest 0 H Hx).
  cbn [Nat.add]. rewrite firstn_app, Nat.sub_diag, firstn_all. cbn [firstn].
  rewrite app_nil_r. reflexivity.
Qed.

Lemma indent_blanks (tabSize_ n : nat) (k : nat) :
  fold_left (indentStep tabSize_) (repeat 32%N n) (Some k) = Some (k + n).
Proof.
  revert k. induction n as [|n IH]; intros k.
  - cbn [repeat fold_left]. f_equal. lia.
  - cbn [repeat fold_left indentStep]. change (N.eqb 32 9) with false. cbv iota.
    rewrite IH. f_equal. lia.
Qed.

Lemma fold_left_snoc {A B} (f : A -> B -> A) (l : list B) (b : B) (a : A) :
  fold_left f (l ++ [b]) a = f (fold_left f l a) b.
Proof. rewrite fold_left_app. reflexivity. Qed.

(** X17: [getIndent], for a positive tab width, on a text with a code
    unit that is no white space: leading blanks alone give their
    number plus one, and a tab as the last of the leading white space
    gives one more than a multiple of the tab width, whatever white
    space stands before the tab. *)
Theorem getIndent_tab_stop (tabSize_ : nat) (ws : jsstring) (n : nat) (x : N)
  (rest : jsstring) :
  0 < tabSize_ -> forallb is_space ws = true -> is_space x = false ->
  getIndent (repeat 32%N n ++ x :: rest) tabSize_ = Some (S n) /\
  exists m, getIndent ((ws ++ [9%N]) ++ x :: rest) tabSize_ = Some (S (m * tabSize_)).
Proof.
  intros Ht Hws Hx. split.
  - rewrite getIndent_leading; [|clear; induction n; [reflexivity|exact IHn]|exact Hx].
    rewrite indent_blanks. reflexivity.
  - rewrite getIndent_leading; [| |exact Hx].
    + rewrite fold_left_snoc.
      destruct (indentStep_number tabSize_ ws 0 Ht) as (k & ->).
      cbn [indentStep]. change (N.eqb 9 9) with true. cbv iota.
      rewrite (proj2 (Nat.eqb_neq tabSize_ 0)) by lia.
      exists (S (k / tabSize_)). cbn [option_map]. do 2 f_equal.
      pose proof (Nat.div_mod_eq k tabSize_) as E.
      pose proof (Nat.mod_upper_bound k tabSize_).
      nia.
    + rewrite forallb_app, Hws. reflexivity.
Qed.

Lemma getIndent_tab_stop_witness :
  getIndent (str "   step") 4 = Some 4 /\
  exists m, getIndent ((str "  " ++ [9%N]) ++ str "step") 4 = Some (S (m * 4)).
Proof.
  apply (getIndent_tab_stop 4 (str "  ") 3 115%N (str "tep")); [lia|reflexivity|reflexivity].
Defined.

(* ================================================================== *)
(** ** Further properties of the folding engine *)

Lemma classifyLines_length (p : Provider) (tabSize_ : nat) (texts : list jsstring) :
  forall multiline entries,
    classifyLines p tabSize_ multiline texts = Ok entries ->
    List.length entries = List.length texts.
Proof.
  induction texts as [|text rest IH]; intros multiline entries; cbn [classifyLines].
  - intros [= <-]. reflexivity.
  - cbv zeta.
    destruct (if negb (token_eqb (if multiline then Multiline else getToken text) Operator)
              then _ else _) as [entry|e]; cbn [bind]; [|discriminate].
    destruct (classifyLines p tabSize_ _ rest) as [es|e] eqn:Er; cbn [bind]; [|discriminate].
    intros [= <-]. cbn [List.length]. f_equal. apply (IH _ _ Er).
Qed.

Lemma classifyLines_TypeError (p : Provider) (tabSize_ : nat) (texts : list jsstring) :
  forall multiline e, classifyLines p tabSize_ multiline texts = Throw e -> e = TypeError.
Proof.
  induction texts as [|text rest IH]; intros multiline e; cbn [classifyLines]; [discriminate|].
  cbv zeta.
  destruct (negb (token_eqb (if multiline then Multiline else getToken text) Operator)).
  - cbn [bind]. destruct (classifyLines p tabSize_ _ rest) as [es|e'] eqn:Er; cbn [bind];
      [discriminate|]. intros [= <-]. apply (IH _ _ Er).
  - unfold isSection, matcher. destruct (_matcher p) as [m|]; cbn [bind];
      [|intros [= <-]; reflexivity].
    destruct (oget (reg_section m) []) as [t|]; cbn [bind].
    + destruct (t text); cbn [bind];
        (destruct (classifyLines p tabSize_ _ rest) as [es|e'] eqn:Er; cbn [bind];
         [discriminate|]); intros [= <-]; apply (IH _ _ Er).
    + destruct (classifyLines p tabSize_ _ rest) as [es|e'] eqn:Er; cbn [bind];
        [discriminate|]. intros [= <-]. apply (IH _ _ Er).
Qed.

Lemma fold_end_upper (lines : list VAIndent) (i : nat) :
  i < List.length lines -> fold_end lines i < List.length lines.
Proof.
  intros H. rewrite fold_end_rule. destruct (rule _) as [[stop ext]|]; [|exact H].
  pose proof (scan_upper stop ext (skipn (S i) lines) (S i) i (Nat.lt_succ_diag_r i)) as U.
  rewrite length_skipn in U. lia.
Qed.

Lemma foldingLoop_order (lines : list VAIndent) (lineCount fuel i : nat) :
  StronglySorted (fun a b => fr_start a < fr_start b) (foldingLoop lines lineCount fuel i).
Proof.
  revert i. induction fuel as [|f IH]; intros i; cbn [foldingLoop]; [constructor|].
  destruct (i <=? lineCount); [|constructor]. cbv zeta.
  set (i' := match token (nth i lines dummy_line) with
             | Instruction | Comment => fold_end lines i
             | _ => i
             end).
  assert (Hi : i <= i').
  { unfold i'. pose proof (fold_end_lower lines i).
    destruct (token (nth i lines dummy_line)); lia. }
  destruct (i <? fold_end lines i); cbn [app]; [|apply IH].
  constructor; [apply IH|].
  apply Forall_forall. intros r Hr. apply foldingLoop_ranges in Hr.
  destruct Hr as (s & Hs & _ & ->). cbn [fr_start]. lia.
Qed.

(** X18: the folding ranges that [getCodeFolding] returns are in the
    order of their first lines, no two of them with the same first
    line, and each lies within the lines of the document; when it
    throws, it throws TypeError. *)
Theorem getCodeFolding_in_order (p : Provider) (tabSize_ lineCount : nat)
  (getLineContent_ : nat -> jsstring) :
  match getCodeFolding p tabSize_ lineCount getLineContent_ with
  | Ok ranges =>
      StronglySorted (fun a b => fr_start a < fr_start b) ranges /\
      Forall (fun r => 1 <= fr_start r /\ fr_end r <= lineCount) ranges
  | Throw e => e = TypeError
  end.
Proof.
  unfold getCodeFolding.
  destruct (classifyLines p tabSize_ false (List.map getLineContent_ (seq 1 lineCount)))
    as [entries|e] eqn:E; cbn [bind].
  - split; [apply foldingLoop_order|].
    apply classifyLines_length in E. rewrite length_map, length_seq in E.
    apply Forall_forall. intros r Hr. apply foldingLoop_ranges in Hr.
    destruct Hr as (s & Hs & _ & ->). cbn [fr_start fr_end]. split; [lia|].
    pose proof (fold_end_upper (dummy_line :: entries) s) as U.
    cbn [List.length] in U. lia.
  - apply (classifyLines_TypeError _ _ _ _ _ E).
Qed.

(* ================================================================== *)
(** ** Further properties of the completion engine *)

Lemma stepItems_In (p : Provider) (range : IRange) (prefix : Step -> jsstring)
  (filter : jsstring -> jsstring) (it : CompletionItem) :
  In it (stepItems p range prefix filter) <->
  exists k e,
    In (k, e) (_steps p) /\ truthy_any (documentation e) = true /\
    it = {| ci_label := option_label (label e);
            ci_kind := stepKind e;
            ci_detail := section e;
            ci_documentation := documentation e;
            ci_sortText := sortText e;
            ci_insertText := prefix e ++ str " " ++ insertText e ++ [10%N];
            ci_filterText := Some (filter k);
            ci_range := range |}.
Proof.
  unfold stepItems. rewrite in_flat_map. split.
  - intros ([k e] & Hin & H). cbn [fst snd] in H.
    destruct (truthy_any (documentation e)) eqn:E; [|destruct H].
    destruct H as [<-|[]]. exists k, e. repeat split; assumption.
  - intros (k & e & Hin & E & ->). exists (k, e). split; [exact Hin|].
    cbn [fst snd]. rewrite E. left. reflexivity.
Qed.

Lemma mapM_In {A B} (f : A -> result B) (l : list A) (out : list B) (b : B) :
  mapM f l = Ok out -> In b out -> exists a, In a l /\ f a = Ok b.
Proof.
  intros H. apply mapM_Forall2 in H. induction H as [|a b0 r out' Hab Hr IH]; [intros []|].
  intros [<-|Hin].
  - exists a. split; [left; reflexivity|exact Hab].
  - destruct (IH Hin) as (a' & Ha & Hf). exists a'. split; [right; exact Ha|exact Hf].
Qed.

Lemma mapM_Throw {A B} (f : A -> result B) (l : list A) (e : exn) :
  mapM f l = Throw e -> exists a, In a l /\ f a = Throw e.
Proof.
  induction l as [|a r IH]; cbn [mapM]; [discriminate|].
  destruct (f a) as [b|e'] eqn:Ea; cbn [bind].
  - destruct (mapM f r) as [bs|e'] eqn:Er; cbn [bind]; [discriminate|].
    intros [= <-]. destruct (IH eq_refl) as (a' & Ha & Hf).
    exists a'. split; [right; exact Ha|exact Hf].
  - intros [= <-]. exists a. split; [left; reflexivity|exact Ea].
Qed.

(** X19: when the column of the cursor is in the range of no
    placeholder and not before the last column of its line that is not
    white space, the completion throws only where the line begins with
    no keyword and a metatag is not converted by [String], and then a
    TypeError.  When it returns, it offers every step that has a
    documentation, with its label, section, documentation and kind (the
    kind Function when the step brought none), and no step without
    one; what it offers besides are the items of metatags, of kind
    Keyword and without documentation.  Every suggestion inserts a
    text that ends with a line feed. *)
Theorem completion_at_line_end (p : Provider) (model : ITextModel) (position : Position) :
  let maxColumn := getLineLastNonWhitespaceColumn model (lineNumber position) in
  let line := getLineContent model (lineNumber position) in
  wordRange_of (findMatches model placeholder_re (lineRange model position)) position = None ->
  (negb (maxColumn =? 0) && (column position <? maxColumn))%bool = false ->
  match provideCompletionItems p model position with
  | Throw e =>
      e = TypeError /\ findKeyword p (match_all nonspace_re line) = None /\
      exists w, In w (_metatags p) /\ unprintable w = true
  | Ok l =>
      (forall k e, In (k, e) (_steps p) -> truthy_any (documentation e) = true ->
         exists it, In it (suggestions l) /\ ci_label it = option_label (label e) /\
                    ci_detail it = section e /\ ci_documentation it = documentation e /\
                    ci_kind it = stepKind e) /\
      (forall it, In it (suggestions l) ->
         ((exists w, In w (_metatags p) /\ ci_label it = Some w /\
                     ci_kind it = KindKeyword /\ ci_documentation it = None) \/
          (exists k e, In (k, e) (_steps p) /\ truthy_any (documentation e) = true /\
                       ci_label it = option_label (label e) /\
                       ci_documentation it = documentation e)) /\
         exists t, ci_insertText it = t ++ [10%N])
  end.
Proof.
  intros maxColumn line Hw Hc. unfold provideCompletionItems.
  rewrite Hw. fold maxColumn. rewrite Hc. fold line.
  set (range := {| startLineNumber := lineNumber position;
                   endLineNumber := lineNumber position;
                   startColumn := _; endColumn := _ |}).
  assert (Steps : forall prefix filter it,
             In it (stepItems p range prefix filter) ->
             (exists k e, In (k, e) (_steps p) /\ truthy_any (documentation e) = true /\
                          ci_label it = option_label (label e) /\
                          ci_documentation it = documentation e) /\
             exists t, ci_insertText it = t ++ [10%N]).
  { intros prefix filter it Hit. apply stepItems_In in Hit.
    destruct Hit as (k & e & Hin & Hd & ->). split.
    - exists k, e. repeat split; assumption.
    - cbn [ci_insertText]. eexists. rewrite !app_assoc. reflexivity. }
  destruct (findKeyword p _) as [kw|].
  - split.
    + intros k e Hin Hd. eexists. split.
      * apply stepItems_In. exists k, e. split; [exact Hin|]. split; [exact Hd|reflexivity].
      * repeat split.
    + intros it Hit. cbn [suggestions] in Hit.
      destruct (Steps _ _ it Hit) as [H1 H2]. split; [right; exact H1|exact H2].
  - destruct (mapM (metatagItem range) (_metatags p)) as [items|e] eqn:E; cbn [bind].
    + split.
      * intros k e Hin Hd. eexists. split.
        -- cbn [suggestions]. apply in_or_app. right.
           apply stepItems_In. exists k, e. split; [exact Hin|]. split; [exact Hd|reflexivity].
        -- repeat split.
      * intros it Hit. cbn [suggestions] in Hit. apply in_app_or in Hit.
        destruct Hit as [Hit|Hit].
        -- destruct (mapM_In _ _ _ it E Hit) as (w & Hwin & Hf).
           unfold metatagItem in Hf. destruct (String_ w) as [text|x]; [|discriminate Hf].
           cbn [bind] in Hf. injection Hf as <-.
           split; [left; exists w; repeat split; exact Hwin|].
           cbn [ci_insertText]. eexists. reflexivity.
        -- destruct (Steps _ _ it Hit) as [H1 H2]. split; [right; exact H1|exact H2].
    + destruct (mapM_Throw _ _ e E) as (w & Hwin & Hf).
      unfold metatagItem, String_ in Hf. destruct (unprintable w) eqn:U.
      * cbn [bind] in Hf. injection Hf as <-. split; [reflexivity|]. split; [reflexivity|].
        exists w. split; assumption.
      * discriminate Hf.
Qed.

Lemma completion_at_line_end_witness :
  exists l it,
    provideCompletionItems scenarioC clickFeature {| lineNumber := 2; column := 15 |} = Ok l /\
    In it (suggestions l) /\
    ci_documentation it = Some (JStr (str "Clicks the button")).
Proof.
  pose proof (completion_at_line_end scenarioC clickFeature {| lineNumber := 2; column := 15 |}
                eq_refl eq_refl) as H.
  destruct (provideCompletionItems scenarioC clickFeature {| lineNumber := 2; column := 15 |})
    as [l|x] eqn:E.
  - destruct H as [H _].
    assert (S : exists k e r, _steps scenarioC = (k, e) :: r /\
                              documentation e = Some (JStr (str "Clicks the button")))
      by (vm_compute; repeat eexists).
    destruct S as (k & e & r & S & Hd).
    destruct (H k e) as (it & Hin & _ & _ & Hdoc & _).
    + rewrite S. left. reflexivity.
    + rewrite Hd. reflexivity.
    + exists l, it. split; [reflexivity|]. split; [exact Hin|]. rewrite Hdoc. exact Hd.
  - exfalso. destruct H as (_ & Hk & _). vm_compute in Hk. discriminate Hk.
Defined.

(** A step that brings the number of the kind Keyword as its kind is
    offered as a keyword. *)
Example completion_kind_of_step :
  let e := JObj [(str "insertText", JStr (str "click link"));
                 (str "documentation", JStr (str "Follows"));
                 (str "kind", JNum 17)] in
  let p := snd (setStepList Host.JSON_parse (payload (JArr [e])) true scenarioC) in
  match provideCompletionItems p clickFeature {| lineNumber := 2; column := 15 |} with
  | Ok l => List.map ci_kind (suggestions l) = [KindKeyword]
  | Throw _ => False
  end.
Proof. vm_compute. reflexivity. Qed.

(* ================================================================== *)
(** ** Further properties of the hover engine *)

Lemma escapeMarkdown_string (v : any) :
  match escapeMarkdown v with
  | Ok _ => is_string v = true
  | Throw e => e = TypeError /\ is_string v = false
  end.
Proof. destruct v as [[| | |s| |]|]; cbn; auto. Qed.

(** X20: [provideHover] throws only on a line that is no sound
    annotation and whose phrase key either is the key of a step whose
    section or documentation is no string, or is no key of a step but
    a name under which [steps] inherits a member; and then it throws
    TypeError.  When it returns, the range is the whole line; on a
    line that is no sound annotation the contents are empty when
    [steps] has nothing under the phrase key of the line, and
    otherwise section and documentation of the step are strings. *)
Theorem provideHover_outcome (p : Provider) (model : ITextModel) (position : Position) :
  let line := getLineContent model (lineNumber position) in
  let key_ := key (filterWords p (splitWords line)) in
  match provideHover p model position with
  | Throw e =>
      e = TypeError /\ exec sound_re line = None /\
      match oget (_steps p) key_ with
      | Some step =>
          (is_string (section step) && is_string (documentation step))%bool = false
      | None => inherited key_ = true
      end
  | Ok h =>
      hv_range h = lineRange model position /\
      (exec sound_re line = None ->
       match oget (_steps p) key_ with
       | None => inherited key_ = false /\ contents h = []
       | Some step =>
           is_string (section step) = true /\ is_string (documentation step) = true
       end)
  end.
Proof.
  intros line key_. unfold provideHover. fold line. fold key_.
  destruct (exec sound_re line) as [[[st e] c]|].
  - cbn [escapeMarkdown bind hv_range]. split; [reflexivity|]. intros H. discriminate H.
  - unfold oread. destruct (oget (_steps p) key_) as [step|].
    + pose proof (escapeMarkdown_string (section step)) as Hs.
      pose proof (escapeMarkdown_string (documentation step)) as Hd.
      destruct (escapeMarkdown (section step)) as [t|e1]; cbn [bind].
      * destruct (escapeMarkdown (documentation step)) as [d|e2]; cbn [bind hv_range].
        -- split; [reflexivity|]. intros _. split; assumption.
        -- destruct Hd as [-> Hd]. split; [reflexivity|]. split; [reflexivity|].
           rewrite Hd. apply andb_false_r.
      * destruct Hs as [-> Hs]. split; [reflexivity|]. split; [reflexivity|].
        rewrite Hs. reflexivity.
    + destruct (inherited key_); cbn [bind hv_range contents].
      * repeat split.
      * split; [reflexivity|]. intros _. split; reflexivity.
Qed.

(** The line [click constructor]: [steps] has no such step, and the
    hover throws. *)
Example provideHover_inherited :
  let model := Host.createModel (str "turbo-gherkin") [str "click constructor"] in
  oget (_steps scenarioC) (str "constructor") = None /\
  provideHover scenarioC model {| lineNumber := 1; column := 1 |} = Throw TypeError.
Proof. vm_compute. split; reflexivity. Qed.

(* ================================================================== *)
(** ** Further properties of the link resolver *)

Lemma findBlock_none (p : Provider) (m : KeywordMatcher) (model : ITextModel)
  (lineCount : nat) (ls : list nat) :
  (forall n, In n ls -> isVariablesLine m (getLineContent model n) = false) ->
  findBlock p m model lineCount ls = Ok ([], lineCount).
Proof.
  intros H. rewrite <- (app_nil_r ls). rewrite findBlock_skip by exact H. reflexivity.
Qed.

(** X21: with a matcher set, on a document in which the pattern of
    the variables header matches no line before the last, the lookup
    of [getLinkData] finds nothing for every key whose first word is
    no inherited name: a header on the last line is not looked at. *)
Theorem getLinkData_no_variables (p : Provider) (m : KeywordMatcher) (model : ITextModel)
  (key_ : jsstring) :
  _matcher p = Some m ->
  (forall n, 1 <= n < getLineCount model ->
             isVariablesLine m (getLineContent model n) = false) ->
  inherited (toLowerCase (List.hd [] (split 46 key_))) = false ->
  getLinkData p model key_ = Ok None.
Proof.
  intros Hm H Hk. unfold getLinkData, getLinks, matcher. rewrite Hm. cbn [bind].
  rewrite findBlock_none by (intros n Hn; apply in_seq in Hn; apply H; lia).
  cbn [bind fst].
  destruct (split 46 key_) as [|w0 [|w1 [|w2 [|w3 r]]]]; cbn [List.map List.hd] in *;
    try reflexivity;
    unfold linkDataRetry, linkData, link_at, tread; cbn [oget is_some orb];
    rewrite ?Hk; reflexivity.
Qed.

Lemma getLinkData_no_variables_witness :
  getLinkData scenarioD
    (Host.createModel (str "turbo-gherkin") [str "Scenario: first"; str "Variables:"])
    (str "Users.1") = Ok None.
Proof.
  apply (getLinkData_no_variables scenarioD Host.sampleMatcher); [reflexivity| |reflexivity].
  intros n Hn. change (getLineCount _) with 2 in Hn.
  assert (n = 1) as -> by lia. reflexivity.
Defined.

(** The key [constructor.keys] on such a document: [links] is empty,
    and the lookup goes on with what [links] inherits. *)
Example getLinkData_inherited :
  getLinkData scenarioD
    (Host.createModel (str "turbo-gherkin") [str "Scenario: first"; str "Variables:"])
    (str "constructor.keys") = Throw Exotic.
Proof. vm_compute. reflexivity. Qed.

(* ------------------------------------------------------------------ *)
(** *** An assignment in the variables block *)

Lemma backtrack_longest (f : N -> bool) (k : kont) (pre post : jsstring) (c : caps)
  (a : nat * caps) :
  forallb f pre = true -> stops f post ->
  forall i, k (i + List.length pre) post c = Some a ->
            backtrack k f i (pre ++ post) c = Some a.
Proof.
  intros Hpre Hpost. induction pre as [|x r IH]; intros i Hk.
  - cbn [app List.length] in *. rewrite Nat.add_0_r in Hk.
    destruct post as [|y post']; cbn [backtrack]; [exact Hk|].
    cbn [stops] in Hpost. rewrite Hpost. exact Hk.
  - cbn [forallb] in Hpre. apply andb_true_iff in Hpre. destruct Hpre as [Hx Hr].
    cbn [app backtrack]. rewrite Hx. rewrite (IH Hr (S i)); [reflexivity|].
    cbn [List.length] in Hk. replace (S i + List.length r) with (i + S (List.length r)) by lia.
    exact Hk.
Qed.

Lemma seq_star_longest (f : N -> bool) (rest : re) (pre post : jsstring) (i : nat)
  (c : caps) (k : kont) (a : nat * caps) :
  forallb f pre = true -> stops f post ->
  run rest (i + List.length pre) post c k = Some a ->
  run (Seq (Star (Chr f)) rest) i (pre ++ post) c k = Some a.
Proof.
  intros Hpre Hpost H.
  change (run (Seq (Star (Chr f)) rest) i (pre ++ post) c k)
    with (run (Star (Chr f)) i (pre ++ post) c (fun i' s' c' => run rest i' s' c' k)).
  rewrite run_star_class. apply backtrack_longest; assumption.
Qed.

Lemma seq_grp_star_longest (g : nat) (f : N -> bool) (rest : re) (pre post : jsstring)
  (i : nat) (c : caps) (k : kont) (a : nat * caps) :
  forallb f pre = true -> stops f post ->
  run rest (i + List.length pre) post ((g, (i, i + List.length pre)) :: c) k = Some a ->
  run (Seq (Grp g (Star (Chr f))) rest) i (pre ++ post) c k = Some a.
Proof.
  intros Hpre Hpost H.
  change (run (Seq (Grp g (Star (Chr f))) rest) i (pre ++ post) c k)
    with (run (Star (Chr f)) i (pre ++ post) c
            (fun i' s' c' => run rest i' s' ((g, (i, i')) :: c') k)).
  rewrite run_star_class. apply backtrack_longest; assumption.
Qed.

Lemma seq_grp_name_longest (g : nat) (h f : N -> bool) (rest : re) (x : N)
  (pre post : jsstring) (i : nat) (c : caps) (k : kont) (a : nat * caps) :
  h x = true -> forallb f pre = true -> stops f post ->
  run rest (S i + List.length pre) post ((g, (i, S i + List.length pre)) :: c) k = Some a ->
  run (Seq (Grp g (Seq (Chr h) (Star (Chr f)))) rest) i (x :: pre ++ post) c k = Some a.
Proof.
  intros Hx Hpre Hpost H.
  change (run (Seq (Grp g (Seq (Chr h) (Star (Chr f)))) rest) i (x :: pre ++ post) c k)
    with (if h x
          then run (Star (Chr f)) (S i) (pre ++ post) c
                 (fun i' s' c' => run rest i' s' ((g, (i, i')) :: c') k)
          else None).
  rewrite Hx, run_star_class. apply backtrack_longest; assumption.
Qed.

Lemma search_here (r : re) (i : nat) (s : jsstring) (e : nat) (c : caps) :
  run r i s [] here = Some (e, c) -> search r i s = Some (i, e, c).
Proof. intros H. destruct s; cbn [search]; fold here; rewrite H; reflexivity. Qed.

Lemma stops_after (f g : N -> bool) (ws rest : jsstring) :
  forallb g ws = true -> (forall y, g y = true -> f y = false) ->
  stops f rest -> stops f (ws ++ rest).
Proof.
  intros Hws Hg Hrest. destruct ws as [|y ws']; [exact Hrest|].
  cbn [forallb] in Hws. apply andb_true_iff in Hws. apply Hg, Hws.
Qed.

Lemma space_not_name_unit (y : N) : is_space y = true -> is_name_unit y = false.
Proof.
  unfold is_space, is_name_unit, is_digit, is_letter, inN. intros H.
  destruct (N.leb 48 y && N.leb y 57 || (N.leb 65 y && N.leb y 122
            || N.leb 1040 y && N.leb y 1103 || N.eqb y 1025 || N.eqb y 1105))%bool eqn:E;
    [|reflexivity].
  exfalso. revert H E. unit_cases; intros; discriminate.
Qed.

Lemma letter_not_space (x : N) : is_letter x = true -> is_space x = false.
Proof.
  intros H. destruct (is_space x) eqn:E; [|reflexivity].
  apply space_not_name_unit in E. unfold is_name_unit in E.
  rewrite H, orb_true_r in E. discriminate E.
Qed.

Lemma seq_bol (rest : re) (s : jsstring) (c : caps) (k : kont) (a : nat * caps) :
  run rest 0 s c k = Some a -> run (Seq Bol rest) 0 s c k = Some a.
Proof. intros H. exact H. Qed.

Lemma seq_chr (f : N -> bool) (rest : re) (y : N) (s : jsstring) (i : nat) (c : caps)
  (k : kont) (a : nat * caps) :
  f y = true -> run rest (S i) s c k = Some a ->
  run (Seq (Chr f) rest) i (y :: s) c k = Some a.
Proof.
  intros Hy H.
  change (run (Seq (Chr f) rest) i (y :: s) c k)
    with (if f y then run rest (S i) s c k else None).
  rewrite Hy. exact H.
Qed.

Lemma seq_grp_star_all (g : nat) (f : N -> bool) (rest : re) (s : jsstring)
  (i : nat) (c : caps) (k : kont) (a : nat * caps) :
  forallb f s = true ->
  run rest (i + List.length s) [] ((g, (i, i + List.length s)) :: c) k = Some a ->
  run (Seq (Grp g (Star (Chr f))) rest) i s c k = Some a.
Proof.
  intros Hs H. rewrite <- (app_nil_r s) at 1.
  apply seq_grp_star_longest; [exact Hs|exact I|exact H].
Qed.

(** The match of an assignment: a name, the sign [=] with white space
    around it, and a value without a line terminator that does not
    begin with white space. *)
Lemma exec_assignment (ws0 name ws1 ws2 value : jsstring) :
  forallb is_space ws0 = true -> is_name name = true ->
  forallb is_space ws1 = true -> forallb is_space ws2 = true ->
  forallb is_dot value = true -> stops is_space value ->
  let line := ws0 ++ name ++ ws1 ++ [c_eq] ++ ws2 ++ value in
  exists m,
    exec assign_re line = Some m /\
    group line m 1 = Some name /\ group line m 2 = Some value.
Proof.
  intros H0 Hn H1 H2 Hv Hstop line.
  destruct name as [|x r]; [discriminate Hn|].
  cbn [is_name] in Hn. apply andb_true_iff in Hn. destruct Hn as [Hx Hr].
  set (n0 := List.length ws0).
  set (n1 := S n0 + List.length r).
  set (n2 := S (n1 + List.length ws1) + List.length ws2).
  set (e := n2 + List.length value).
  exists (0, e, [(2, (n2, e)); (1, (n0, n1))]).
  split; [|split].
  - unfold exec. apply search_here. unfold assign_re, space_star, line. cbn [Seqs app].
    apply seq_bol.
    apply seq_star_longest; [exact H0|cbn [stops]; apply letter_not_space, Hx|].
    apply (seq_grp_name_longest 1 is_letter is_name_unit);
      [exact Hx|exact Hr| |].
    { apply (stops_after is_name_unit is_space);
        [exact H1|apply space_not_name_unit|reflexivity]. }
    apply seq_star_longest; [exact H1|reflexivity|].
    apply seq_chr; [reflexivity|].
    apply seq_star_longest; [exact H2|exact Hstop|].
    apply seq_grp_star_all; [exact Hv|].
    reflexivity.
  - cbn [group cap_span Nat.eqb]. unfold substring, line, n1, n0.
    rewrite skipn_app, Nat.sub_diag, skipn_all. cbn [skipn app].
    replace (S (List.length ws0) + List.length r - List.length ws0)
      with (List.length (x :: r)) by (cbn [List.length]; lia).
    change (x :: r ++ ws1 ++ c_eq :: ws2 ++ value)
      with ((x :: r) ++ ws1 ++ c_eq :: ws2 ++ value).
    rewrite firstn_app, Nat.sub_diag, firstn_all. cbn [firstn]. rewrite app_nil_r. reflexivity.
  - cbn [group cap_span Nat.eqb]. unfold substring, e.
    replace (n2 + List.length value - n2) with (List.length value) by lia.
    assert (E : line = (ws0 ++ (x :: r) ++ ws1 ++ [c_eq] ++ ws2) ++ value)
      by (unfold line; rewrite <- !app_assoc; reflexivity).
    assert (L : List.length (ws0 ++ (x :: r) ++ ws1 ++ [c_eq] ++ ws2) = n2)
      by (rewrite !length_app; unfold n2, n1, n0; cbn [List.length]; lia).
    rewrite E, skipn_app, L, Nat.sub_diag. rewrite <- L at 1. rewrite skipn_all.
    cbn [skipn app]. rewrite firstn_all. reflexivity.
Qed.

Lemma split_acc_none (sep : N) (s cur : jsstring) :
  forallb (fun c => negb (N.eqb c sep)) s = true -> split_acc sep cur s = [rev cur ++ s].
Proof.
  revert cur. induction s as [|c r IH]; intros cur H.
  - cbn [split_acc]. rewrite app_nil_r. reflexivity.
  - cbn [forallb] in H. apply andb_true_iff in H. destruct H as [Hc Hr].
    apply negb_true_iff in Hc. cbn [split_acc]. rewrite Hc, IH by exact Hr.
    cbn [rev]. rewrite <- app_assoc. reflexivity.
Qed.

Lemma name_no_dot (name : jsstring) :
  is_name name = true -> forallb (fun c => negb (N.eqb c 46)) name = true.
Proof.
  destruct name as [|x r]; [discriminate|]. cbn [is_name forallb]. intros H.
  apply andb_true_iff in H. destruct H as [Hx Hr]. apply andb_true_iff. split.
  - destruct (N.eqb x 46) eqn:E; [|reflexivity].
    apply N.eqb_eq in E. subst x. discriminate Hx.
  - rewrite forallb_forall in *. intros c Hc. specialize (Hr c Hc).
    destruct (N.eqb c 46) eqn:E; [|reflexivity].
    apply N.eqb_eq in E. subst c. discriminate Hr.
Qed.

(** What the scan of a block makes of an assignment. *)
Lemma scanLine_assignment (p : Provider) (m : KeywordMatcher) (s : LinkScan)
  (ws0 name ws1 ws2 value : jsstring) :
  multiline_ s = false ->
  forallb is_space ws0 = true -> is_name name = true ->
  forallb is_space ws1 = true -> forallb is_space ws2 = true ->
  forallb is_dot value = true -> stops is_space value ->
  scanLine p m s (ws0 ++ name ++ ws1 ++ [c_eq] ++ ws2 ++ value)
  = Ok (Continue
          {| tableName := []; columns := None;
             links := put_link (links s) [] (toLowerCase name)
                        {| lk_key := toLowerCase name; lk_name := Some (trim value);
                           lk_file := None; lk_data := None; lk_column := None;
                           lk_table := None; lk_param := None |};
             multiline_ := false; multitext := multitext s;
             multidata := Some ([], toLowerCase name);
             shared := shared s |}).
Proof.
  intros Hs H0 Hn H1 H2 Hv Hstop.
  destruct (exec_assignment ws0 name ws1 ws2 value H0 Hn H1 H2 Hv Hstop) as (fm & E & G1 & G2).
  cbv zeta in E, G1, G2.
  set (line := ws0 ++ name ++ ws1 ++ [c_eq] ++ ws2 ++ value) in *.
  assert (T : exists u rest, is_letter u = true /\ trimStart line = u :: rest).
  { destruct name as [|u r]; [discriminate Hn|].
    cbn [is_name] in Hn. apply andb_true_iff in Hn. destruct Hn as [Hu _].
    exists u, (r ++ ws1 ++ [c_eq] ++ ws2 ++ value). split; [exact Hu|].
    unfold line. rewrite (trimStart_spaces ws0 _ H0). cbn [app trimStart].
    rewrite (letter_not_space u Hu). reflexivity. }
  destruct T as (u & rest & Hu & T).
  assert (Q : N.eqb c_quote u = false).
  { destruct (N.eqb c_quote u) eqn:Eq; [|reflexivity].
    apply N.eqb_eq in Eq. subst u. discriminate Hu. }
  assert (B : N.eqb c_pipe u = false).
  { destruct (N.eqb c_pipe u) eqn:Eq; [|reflexivity].
    apply N.eqb_eq in Eq. subst u. discriminate Hu. }
  unfold scanLine.
  assert (M : test multiline_line_re line = false).
  { unfold multiline_line_re. cbn [Seqs].
    rewrite test_after_spaces by no_space_start. rewrite T.
    unfold Lit. cbn [run]. rewrite Q. reflexivity. }
  assert (P : test parameter_re line = false).
  { unfold parameter_re. cbn [Seqs].
    rewrite test_after_spaces by no_space_start. rewrite T.
    unfold Lit. cbn [run]. rewrite B. reflexivity. }
  rewrite M, Hs, P, E, G1, G2. reflexivity.
Qed.

(** X23: an assignment in the variables block defines a link.  When
    the first line [v] that the variables pattern matches is followed
    by a line that holds a name (a letter, then letters and digits),
    the sign [=] and a value, with any white space before the name and
    around the sign, and then by a section line that ends the block,
    the lookup of the name finds the record whose key is the name in
    lower case and whose name is the value without the white space at
    its end; the table written into it is the empty one. *)
Theorem getLinkData_assignment (p : Provider) (m : KeywordMatcher) (model : ITextModel)
  (v : nat) (ws0 name ws1 ws2 value : jsstring) :
  _matcher p = Some m ->
  1 <= v -> v + 2 <= getLineCount model ->
  (forall n, 1 <= n < v -> isVariablesLine m (getLineContent model n) = false) ->
  isVariablesLine m (getLineContent model v) = true ->
  getLineContent model (v + 1) = ws0 ++ name ++ ws1 ++ [c_eq] ++ ws2 ++ value ->
  forallb is_space ws0 = true -> is_name name = true ->
  forallb is_space ws1 = true -> forallb is_space ws2 = true ->
  forallb is_dot value = true -> stops is_space value ->
  plain_line m (getLineContent model (v + 2)) = true ->
  isSection p (getLineContent model (v + 2)) [] = Ok true ->
  getLinkData p model name =
  Ok (Some {| lk_key := toLowerCase name; lk_name := Some (trim value); lk_file := None;
              lk_data := None; lk_column := None;
              lk_table := Some []; lk_param := Some name |}).
Proof.
  intros Hm Hv Hcount Hpre Hvar Hline H0 Hn H1 H2 Hval Hstop Hplain Hsec.
  set (rec := {| lk_key := toLowerCase name; lk_name := Some (trim value);
                 lk_file := None; lk_data := None; lk_column := None;
                 lk_table := None; lk_param := None |}).
  assert (G : getLinks p model (getLineCount model)
              = Ok (put_link (links scanStart) [] (toLowerCase name) rec, v + 2)).
  { unfold getLinks, matcher. rewrite Hm. cbn [bind].
    replace (getLineCount model - 1) with ((v - 1) + S (getLineCount model - 1 - v)) by lia.
    rewrite seq_app. rewrite findBlock_skip.
    2:{ intros n Hin. apply in_seq in Hin. apply Hpre. lia. }
    replace (1 + (v - 1)) with v by lia. cbn [seq findBlock].
    rewrite Hvar.
    replace (getLineCount model - v) with (2 + (getLineCount model - v - 2)) by lia.
    cbn [Nat.add seq scanBlock].
    replace (S v) with (v + 1) by lia. rewrite Hline.
    rewrite (scanLine_assignment p m scanStart ws0 name ws1 ws2 value
               eq_refl H0 Hn H1 H2 Hval Hstop).
    cbn [bind]. replace (S (v + 1)) with (v + 2) by lia.
    rewrite (scanLine_section p m) by first [exact Hm|reflexivity|exact Hplain|exact Hsec].
    reflexivity. }
  unfold getLinkData. rewrite G. cbn [bind fst].
  unfold split. rewrite (split_acc_none 46 name [] (name_no_dot name Hn)).
  cbn [rev app List.map]. unfold linkDataRetry, linkData, link_at, tread, put_link.
  rewrite oget_oset_same, oget_oset_same. reflexivity.
Qed.

Lemma getLinkData_assignment_witness :
  let model := Host.createModel (str "turbo-gherkin")
                 [str "Variables:"; str "  Home = e1cib/list  "; str "Scenario: first"] in
  getLinkData scenarioD model (str "Home") =
  Ok (Some {| lk_key := str "home"; lk_name := Some (str "e1cib/list"); lk_file := None;
              lk_data := None; lk_column := None;
              lk_table := Some []; lk_param := Some (str "Home") |}).
Proof.
  intros model.
  apply (getLinkData_assignment scenarioD Host.sampleMatcher model 1
           (str "  ") (str "Home") (str " ") (str " ") (str "e1cib/list  "));
    first [reflexivity|simpl; lia].
Defined.

(* ================================================================== *)
(** ** The text of a feature is not validated *)

Lemma isSection_returns (p : Provider) (mt : KeywordMatcher) (line : jsstring) :
  _matcher p = Some mt -> exists b, isSection p line [] = Ok b.
Proof.
  intros Hm. unfold isSection, matcher. rewrite Hm. cbn [bind].
  destruct (oget (reg_section mt) []); eexists; reflexivity.
Qed.

Lemma getSection_returns (p : Provider) (mt : KeywordMatcher) (line : jsstring) :
  _matcher p = Some mt -> exists s, getSection p line = Ok s.
Proof.
  intros Hm. unfold getSection, matcher. rewrite Hm. cbn [bind]. eexists; reflexivity.
Qed.

(** The lines before a header, when none of them is the delimiter of a
    multi-line text: their diagnostics are on their lines, and the
    loop goes on outside a multi-line text. *)
Lemma checkLines_before (p : Provider) (mt : KeywordMatcher) (model : ITextModel)
  (rest : list nat) :
  _matcher p = Some mt -> plain_keywords p ->
  forall len a section_ problems,
    (forall k, a <= k < a + len -> test multiline_line_re (getLineContent model k) = false) ->
    exists section' ns,
      checkLines p model (seq a len ++ rest) false section_ problems
      = checkLines p model rest false section' (problems ++ List.map (syntaxMarker p model) ns) /\
      Forall (fun n => a <= n < a + len) ns.
Proof.
  intros Hm Hplain. induction len as [|len IH]; intros a section_ problems Hd.
  - exists section_, []. cbn [seq app List.map]. rewrite app_nil_r. split; [reflexivity|constructor].
  - cbn [seq app checkLines]. rewrite (Hd a) by lia.
    assert (Step : forall s, exists section' ns,
              checkLines p model (seq (S a) len ++ rest) false s problems
              = checkLines p model rest false section'
                  (problems ++ List.map (syntaxMarker p model) ns) /\
              Forall (fun n => a <= n < a + S len) ns).
    { intros s. destruct (IH (S a) s problems) as (s' & ns & E & Hall).
      - intros k Hk. apply Hd. lia.
      - exists s', ns. split; [exact E|].
        eapply Forall_impl; [|exact Hall]. intros n Hn. cbv beta in *. lia. }
    destruct (test skip_re (getLineContent model a)); [apply Step|].
    destruct (isSection_returns p mt (getLineContent model a) Hm) as (sec & ->).
    cbn [bind]. destruct sec.
    { destruct (getSection_returns p mt (getLineContent model a) Hm) as (s & ->).
      cbn [bind]. apply Step. }
    destruct (match section_ with
              | Some s => eqb s (str "feature")
              | None => false
              end); [apply Step|].
    destruct (lineSyntaxError_returns p mt (getLineContent model a) section_ Hm Hplain)
      as (b & ->).
    cbn [bind]. destruct b; [|apply Step].
    fold (syntaxMarker p model a).
    destruct (IH (S a) section_ (problems ++ [syntaxMarker p model a])) as (s' & ns & E & Hall).
    + intros k Hk. apply Hd. lia.
    + exists s', (a :: ns). split.
      * rewrite E, <- app_assoc. reflexivity.
      * constructor; [lia|]. eapply Forall_impl; [|exact Hall]. intros n Hn. cbv beta in *. lia.
Qed.

(** The lines under the header of a feature, up to the next header:
    none of them adds a diagnostic. *)
Lemma checkLines_feature_text (p : Provider) (model : ITextModel) (rest : list nat) :
  forall len a problems,
    (forall k, a <= k < a + len ->
               test multiline_line_re (getLineContent model k) = false /\
               isSection p (getLineContent model k) [] = Ok false) ->
    checkLines p model (seq a len ++ rest) false (Some (str "feature")) problems
    = checkLines p model rest false (Some (str "feature")) problems.
Proof.
  induction len as [|len IH]; intros a problems H; [reflexivity|].
  cbn [seq app checkLines]. destruct (H a) as [Hd Hs]; [lia|]. rewrite Hd.
  assert (Step : checkLines p model (seq (S a) len ++ rest) false (Some (str "feature")) problems
                 = checkLines p model rest false (Some (str "feature")) problems).
  { apply IH. intros k Hk. apply H. lia. }
  destruct (test skip_re (getLineContent model a)); [exact Step|].
  rewrite Hs. cbn [bind]. rewrite eqb_refl. exact Step.
Qed.

(** X24: the text of a feature is not validated.  With a matcher set,
    no keyword that is an inherited name ([constructor], [__proto__]
    and the other names of [Object.prototype], for which the read of
    the pair words finds no array) and no delimiter of a multi-line
    text among the lines [1] to [n], when the line [h] is a header of
    the section [feature] and no line from [h + 1] to [n] is a header,
    [checkSyntax] returns and puts no diagnostic on the lines [h] to
    [n], whatever their words. *)
Theorem feature_text_not_flagged (p : Provider) (mt : KeywordMatcher) (model : ITextModel)
  (store : MarkerStore) (h n : nat) :
  _matcher p = Some mt ->
  plain_keywords p ->
  getModeId model = str "turbo-gherkin" ->
  1 <= h <= n -> n <= getLineCount model ->
  (forall k, 1 <= k <= n -> test multiline_line_re (getLineContent model k) = false) ->
  test skip_re (getLineContent model h) = false ->
  isSection p (getLineContent model h) [] = Ok true ->
  getSection p (getLineContent model h) = Ok (Some (str "feature")) ->
  (forall k, h < k <= n -> isSection p (getLineContent model k) [] = Ok false) ->
  exists store',
    checkSyntax p model store = Ok store' /\
    forall mk, In mk (getModelMarkers store' (uri model) (str "syntax")) ->
               ~ (h <= m_startLineNumber mk <= n).
Proof.
  intros Hm Hplain Hlang Hh Hn Hd Hskip Hsec Hfeat Htext.
  unfold checkSyntax, syntaxProblems. rewrite Hlang, eqb_refl. cbn [negb].
  replace (getLineCount model) with ((h - 1) + (1 + ((n - h) + (getLineCount model - n))))
    by lia.
  rewrite !seq_app. cbn [seq].
  replace (1 + (h - 1)) with h by lia.
  destruct (checkLines_before p mt model
              ((h :: seq (h + 1) (n - h)) ++ seq (h + 1 + (n - h)) (getLineCount model - n))
              Hm Hplain (h - 1) 1 (Some []) [])
    as (s1 & ns1 & E1 & Hall1).
  { intros k Hk. apply Hd. lia. }
  cbn [app] in E1 |- *. rewrite E1.
  cbn [checkLines]. rewrite (Hd h) by lia. rewrite Hskip, Hsec. cbn [bind].
  rewrite Hfeat. cbn [bind].
  rewrite checkLines_feature_text.
  2:{ intros k Hk. split; [apply Hd; lia|apply Htext; lia]. }
  destruct (checkLines_markers p mt model Hm Hplain (getLineCount model - n) (h + 1 + (n - h))
              false (Some (str "feature")) (List.map (syntaxMarker p model) ns1))
    as (ns2 & E2 & _ & Hall2).
  rewrite E2. cbn [bind]. eexists. split; [reflexivity|].
  intros mk Hmk. rewrite getModelMarkers_set in Hmk.
  apply in_app_or in Hmk. rewrite Forall_forall in Hall1, Hall2.
  destruct Hmk as [Hmk|Hmk]; apply in_map_iff in Hmk; destruct Hmk as (k & <- & Hk);
    cbn [syntaxMarker m_startLineNumber].
  - specialize (Hall1 k Hk). lia.
  - destruct (Hall2 k Hk) as [Hk2 _]. lia.
Qed.

Lemma feature_text_not_flagged_witness :
  (exists store',
     checkSyntax scenarioC describedFeature [] = Ok store' /\
     forall mk, In mk (getModelMarkers store' (uri describedFeature) (str "syntax")) ->
                ~ (1 <= m_startLineNumber mk <= 3)) /\
  checkSyntax scenarioC describedFeature []
  = Ok [(uri describedFeature, str "syntax", [syntaxMarker scenarioC describedFeature 5])].
Proof.
  split; [|vm_compute; reflexivity].
  apply (feature_text_not_flagged scenarioC Host.sampleMatcher describedFeature [] 1 3);
    try reflexivity; try (simpl; lia).
  - repeat constructor.
  - intros k Hk. destruct k as [|[|[|[|k]]]]; try lia; reflexivity.
  - intros k Hk. destruct k as [|[|[|[|k]]]]; try lia; reflexivity.
Defined.

(* ================================================================== *)
(** ** The fold of a section *)

Lemma token_eqb_eq (a b : VAToken) : token_eqb a b = true <-> a = b.
Proof. destruct a, b; cbn; split; intros H; try reflexivity; discriminate H. Qed.

(** A line that is neither an Instruction nor a Comment line is not
    passed over by the fold of an Instruction or Comment line before
    it. *)
Lemma run_stops_before (lines : list VAIndent) (i s : nat) :
  i < s -> s < List.length lines ->
  (token (nth i lines dummy_line) = Instruction \/ token (nth i lines dummy_line) = Comment) ->
  token (nth s lines dummy_line) <> token (nth i lines dummy_line) ->
  fold_end lines i < s.
Proof.
  intros His Hs Hi Hne.
  destruct (le_lt_dec s (fold_end lines i)) as [Hle|Hlt]; [|exact Hlt]. exfalso.
  rewrite fold_end_rule in Hle. unfold rule in Hle.
  rewrite (skipn_split lines i s dummy_line His Hs) in Hle.
  set (a := firstn (s - S i) (skipn (S i) lines)) in *.
  assert (La : S i + List.length a = s).
  { unfold a. rewrite length_firstn, length_skipn. lia. }
  rewrite <- La in Hle at 1.
  destruct Hi as [Hi|Hi]; rewrite Hi in Hle, Hne;
    (apply scan_reach in Hle; [|lia]);
    destruct Hle as [Hstop _]; unfold not_token in Hstop;
    apply negb_false_iff, token_eqb_eq in Hstop; contradiction.
Qed.

(** The second pass comes to every line that is neither an Instruction
    nor a Comment line, and emits its fold when it has one. *)
Lemma foldingLoop_visits (lines : list VAIndent) (lineCount : nat) (s : nat) :
  List.length lines = S lineCount ->
  token (nth s lines dummy_line) <> Instruction ->
  token (nth s lines dummy_line) <> Comment ->
  s < fold_end lines s ->
  forall fuel i,
    i <= s -> s <= lineCount -> lineCount < i + fuel ->
    In {| fr_kind := fold_kind (token (nth s lines dummy_line));
          fr_start := s; fr_end := fold_end lines s |}
       (foldingLoop lines lineCount fuel i).
Proof.
  intros Hlen HnI HnC Hfold. induction fuel as [|f IH]; intros i His Hs Hf; [lia|].
  cbn [foldingLoop]. rewrite (proj2 (Nat.leb_le i lineCount)) by lia. cbv zeta.
  apply in_or_app. destruct (Nat.eq_dec i s) as [->|Hne].
  - left. rewrite (proj2 (Nat.ltb_lt s (fold_end lines s)) Hfold). left. reflexivity.
  - right. apply IH; [|exact Hs|].
    + destruct (token (nth i lines dummy_line)) eqn:T; try lia.
      * assert (fold_end lines i < s); [|lia].
        apply run_stops_before; [lia|lia|rewrite T; right; reflexivity|].
        rewrite T. exact HnC.
      * assert (fold_end lines i < s); [|lia].
        apply run_stops_before; [lia|lia|rewrite T; left; reflexivity|].
        rewrite T. exact HnI.
    + pose proof (fold_end_lower lines i).
      destruct (token (nth i lines dummy_line)); lia.
Qed.

(** The end of the fold of a section: the last of the lines behind it
    that are no section headers. *)
Lemma section_end_run (rest : list VAIndent) :
  forall n j k,
    (forall m, m < n -> token (nth m rest dummy_line) <> Section_) ->
    (List.length rest = n \/
     (n < List.length rest /\ token (nth n rest dummy_line) = Section_)) ->
    section_end j k rest = if n =? 0 then k else j + n - 1.
Proof.
  induction rest as [|l r IH]; intros n j k Hbefore Hend.
  - destruct Hend as [<-|[Hn _]]; [reflexivity|cbn in Hn; lia].
  - cbn [section_end]. destruct n as [|n].
    + destruct Hend as [Hl|[_ Ht]]; [discriminate Hl|].
      cbn [nth] in Ht. rewrite Ht. reflexivity.
    + assert (Hl : token_eqb (token l) Section_ = false).
      { destruct (token_eqb (token l) Section_) eqn:E; [|reflexivity].
        apply token_eqb_eq in E. exfalso. apply (Hbefore 0); [lia|exact E]. }
      rewrite Hl. rewrite (IH n (S j) j).
      * cbn [Nat.eqb]. destruct (n =? 0) eqn:E; [apply Nat.eqb_eq in E|apply Nat.eqb_neq in E]; lia.
      * intros m Hm. apply (Hbefore (S m)). lia.
      * destruct Hend as [Hlen|[Hlen Ht]]; [left|right].
        -- cbn [List.length] in Hlen. lia.
        -- cbn [List.length nth] in Hlen, Ht. split; [lia|exact Ht].
Qed.

Lemma nth_skipn {A} (l : list A) (a m : nat) (d : A) :
  nth m (skipn a l) d = nth (a + m) l d.
Proof.
  revert l. induction a as [|a IH]; intros l; [reflexivity|].
  destruct l as [|x l]; [destruct m; reflexivity|]. cbn [skipn Nat.add nth]. apply IH.
Qed.

(** X25: a section folds as a whole.  With [lines] the entries of the
    first pass, a line [i] that is a section header, followed up to
    the line [j] by lines that are no section headers, where [j] is
    the last line of the document or the line before the next header,
    has the folding range from [i] to [j] of kind Region among the
    ranges that [getCodeFolding] returns. *)
Theorem section_folds_whole (p : Provider) (tabSize_ lineCount : nat)
  (getLineContent_ : nat -> jsstring) (entries : list VAIndent) (i j : nat) :
  classifyLines p tabSize_ false (List.map getLineContent_ (seq 1 lineCount)) = Ok entries ->
  let lines := dummy_line :: entries in
  1 <= i -> i < j -> j <= lineCount ->
  token (nth i lines dummy_line) = Section_ ->
  (forall k, i < k <= j -> token (nth k lines dummy_line) <> Section_) ->
  (j = lineCount \/ token (nth (S j) lines dummy_line) = Section_) ->
  exists ranges,
    getCodeFolding p tabSize_ lineCount getLineContent_ = Ok ranges /\
    In {| fr_kind := Some KindRegion; fr_start := i; fr_end := j |} ranges.
Proof.
  intros Hc lines Hi Hij Hj Hsec Hbody Hend.
  unfold getCodeFolding. rewrite Hc. cbn [bind]. fold lines.
  eexists. split; [reflexivity|].
  assert (Hlen : List.length lines = S lineCount).
  { unfold lines. cbn [List.length]. f_equal.
    rewrite (classifyLines_length _ _ _ _ _ Hc), length_map, length_seq. reflexivity. }
  assert (Hfold : fold_end lines i = j).
  { unfold fold_end. rewrite Hsec.
    rewrite (section_end_run (skipn (S i) lines) (j - i) (S i) i).
    - rewrite (proj2 (Nat.eqb_neq (j - i) 0)) by lia. lia.
    - intros m Hm. rewrite nth_skipn. apply Hbody. lia.
    - rewrite length_skipn, Hlen. destruct Hend as [->|Hnext]; [left; lia|].
      destruct (Nat.eq_dec j lineCount) as [->|Hne]; [left; lia|].
      right. split; [lia|]. rewrite nth_skipn.
      replace (S i + (j - i)) with (S j) by lia. exact Hnext. }
  pose proof (foldingLoop_visits lines lineCount i Hlen) as V.
  rewrite Hsec, Hfold in V. cbn [fold_kind] in V.
  apply V; try discriminate; lia.
Qed.

Lemma section_folds_whole_witness :
  exists ranges,
    foldingOf 4 [str "Feature: buttons"; str "  some text"; str "Scenario: first";
                 str "  click button"] = Ok ranges /\
    In {| fr_kind := Some KindRegion; fr_start := 1; fr_end := 2 |} ranges.
Proof.
  unfold foldingOf.
  eapply (section_folds_whole scenarioD 4 4 _ _ 1 2).
  - vm_compute. reflexivity.
  - lia.
  - lia.
  - lia.
  - reflexivity.
  - intros k Hk. assert (k = 2) as -> by lia. discriminate.
  - right. reflexivity.
Defined.

(* ================================================================== *)
(** ** Properties of the languages of files *)

Lemma last_cons {A} (x : A) (l : list A) (d : A) : l <> [] -> last (x :: l) d = last l d.
Proof. destruct l; [congruence|reflexivity]. Qed.

Lemma split_acc_nonempty (sep : N) (s cur : jsstring) : split_acc sep cur s <> [].
Proof.
  pose proof (split_acc_length sep s cur) as H. intros E. rewrite E in H. cbn in H. lia.
Qed.

Lemma last_split (ext : jsstring) :
  forallb (fun c => negb (N.eqb c 46)) ext = true ->
  forall base cur, last (split_acc 46 cur (base ++ 46%N :: ext)) [] = ext.
Proof.
  intros Hext. induction base as [|c b IH]; intros cur.
  - cbn [app split_acc]. change (N.eqb 46 46) with true. cbv iota.
    rewrite (split_acc_none 46 ext [] Hext). reflexivity.
  - cbn [app split_acc]. destruct (N.eqb c 46).
    + rewrite last_cons by apply split_acc_nonempty. apply IH.
    + apply IH.
Qed.

(** X26: the language of a file is decided by the text behind the last
    dot of its name: for a text [ext] without a dot, the names [ext],
    [.ext] and every name that ends with [.ext] get the same
    language. *)
Theorem getLanguage_by_extension (languages : list ILanguageExtensionPoint)
  (base ext : jsstring) :
  forallb (fun c => negb (N.eqb c 46)) ext = true ->
  getLanguage languages (base ++ str "." ++ ext) = getLanguage languages ext.
Proof.
  intros Hext. unfold getLanguage, split. cbv zeta.
  change (str "." ++ ext) with (46%N :: ext) at 1.
  rewrite (last_split ext Hext base []), (split_acc_none 46 ext [] Hext). reflexivity.
Qed.

Lemma getLanguage_by_extension_witness :
  let languages := [{| lang_id := str "json"; extensions := Some [str ".json"] |};
                    {| lang_id := str "plaintext"; extensions := None |};
                    {| lang_id := str "turbo-gherkin"; extensions := Some [str ".feature"] |}] in
  getLanguage languages (str "tests/Login.v2.FEATURE") = Some (str "turbo-gherkin") /\
  getLanguage languages (str "tests/Login.v2.FEATURE") = getLanguage languages (str "FEATURE").
Proof.
  intros languages. split; [reflexivity|].
  apply (getLanguage_by_extension languages (str "tests/Login.v2") (str "FEATURE")).
  reflexivity.
Defined.

(* ================================================================== *)
(** ** The hover of a sound annotation *)

Lemma exec_sound (ws text : jsstring) :
  forallb is_space ws = true ->
  exec sound_re (ws ++ c_star :: text) = Some (0, S (List.length ws), []).
Proof.
  intros H. unfold exec. apply search_here. unfold sound_re, space_star. cbn [Seqs].
  apply seq_bol. apply seq_star_longest; [exact H|reflexivity|].
  unfold Lit. cbn [run Nat.add]. change (N.eqb c_star c_star) with true. reflexivity.
Qed.

(** X27: on a line that begins, after white space, with a star, the
    hover shows two texts: the sound hint that [setSoundHint] set, in
    bold and followed by the link [#sound:] with the number of the
    line, and the text behind the star with a backslash before each
    of its characters that Markdown gives a meaning to.  The range is
    the whole line. *)
Theorem hover_sound_line (p : Provider) (model : ITextModel) (position : Position)
  (hint ws text : jsstring) :
  getLineContent model (lineNumber position) = ws ++ c_star :: text ->
  forallb is_space ws = true ->
  provideHover (snd (setSoundHint hint p)) model position =
  Ok {| hv_range := lineRange model position;
        contents :=
          [str "**" ++ hint ++ str "** [" ++ [60277%N] ++ str "]("
             ++ (str "#sound:" ++ of_nat (lineNumber position)) ++ str ")";
           List.flat_map (fun c => if markdown_class c then [c_backslash; c] else [c]) text] |}.
Proof.
  intros Hline Hws. unfold provideHover. rewrite Hline, (exec_sound ws text Hws).
  cbn [escapeMarkdown bind].
  replace (skipn (S (List.length ws) - 0) (ws ++ c_star :: text)) with text.
  - reflexivity.
  - rewrite Nat.sub_0_r.
    change (ws ++ c_star :: text) with (ws ++ [c_star] ++ text). rewrite app_assoc.
    rewrite skipn_app.
    replace (S (List.length ws)) with (List.length (ws ++ [c_star]))
      by (rewrite length_app; cbn [List.length]; lia).
    rewrite skipn_all, Nat.sub_diag. reflexivity.
Qed.

Lemma hover_sound_line_witness :
  let model := Host.createModel (str "turbo-gherkin") [str "  * Press (OK)"] in
  provideHover (snd (setSoundHint (str "Listen") new_provider)) model
    {| lineNumber := 1; column := 1 |}
  = Ok {| hv_range := {| startLineNumber := 1; startColumn := 1;
                         endLineNumber := 1; endColumn := 15 |};
          contents := [str "**Listen** [" ++ [60277%N] ++ str "](#sound:1)";
                       str " Press \(OK\)"] |}.
Proof.
  intros model.
  rewrite (hover_sound_line new_provider model {| lineNumber := 1; column := 1 |}
             (str "Listen") (str "  ") (str " Press (OK)") eq_refl eq_refl).
  reflexivity.
Defined.

(* ================================================================== *)
(** ** Properties of the links of the document *)



Lemma run_Seq (a b : re) (i : nat) (s : jsstring) (c : caps) (k : kont) :
  run (Seq a b) i s c k = run a i s c (fun i' s' c' => run b i' s' c' k).
Proof. reflexivity. Qed.

Lemma run_grp_chr (g : nat) (f : N -> bool) (i : nat) (s : jsstring) (c : caps) (k : kont) :
  run (Grp g (Chr f)) i s c k
  = match s with
    | y :: s' => if f y then k (S i) s' ((g, (i, S i)) :: c) else None
    | [] => None
    end.
Proof. reflexivity. Qed.














(** A key of three words: the third, in lower case, is written into the
    record as its column. *)
Example getLinkData_column :
  getLinkData scenarioD
    (Host.createModel (str "turbo-gherkin") (usersBlock ++ [str "Scenario: first"]))
    (str "Users.1.Name")
  = Ok (Some {| lk_key := str "1"; lk_name := Some (str "Alice"); lk_file := None;
                lk_data := Some [(str "id", str "1"); (str "name", str "Alice")];
                lk_column := Some (str "name");
                lk_table := Some (str "users");
                lk_param := Some (str "Users.1.Name") |}).
Proof. vm_compute. reflexivity. Qed.

(** A reference of three words behind the block: the tooltip of the
    link is the cell of the column, not the name of the record. *)
Example provideLinks_cell :
  provideLinks scenarioD
    (Host.createModel (str "turbo-gherkin")
       [str "Variables:"; str "* Users"; str "| id | name |"; str "| a1 | Alice |";
        str "Scenario: first"; str "  open 'Users.a1.ID' now"])
  = Ok [{| ln_range := {| startLineNumber := 6; startColumn := 9;
                          endLineNumber := 6; endColumn := 20 |};
           ln_tooltip := Some (Some (str "a1"));
           ln_url := str "link:Users.a1.ID" |}].
Proof. vm_compute. reflexivity. Qed.

(* ------------------------------------------------------------------ *)
(** *** A reference to a field of an assigned variable *)

Lemma collect_first_throws {A B} (f : A -> result (list B)) (a : A) (r : list A) (e : exn) :
  f a = Throw e -> collect f (a :: r) = Throw e.
Proof. intros H. cbn [collect]. rewrite H. reflexivity. Qed.

Lemma collect_returns {A B} (f : A -> result (list B)) (l : list A) :
  (forall a, In a l -> exists bs, f a = Ok bs) -> exists out, collect f l = Ok out.
Proof.
  induction l as [|x r IH]; intros H; [exists []; reflexivity|].
  destruct (H x (or_introl eq_refl)) as (bs & Ex).
  destruct IH as (out & Er); [intros a Ha; apply H; right; exact Ha|].
  exists (bs ++ out). cbn [collect]. rewrite Ex, Er. reflexivity.
Qed.

Lemma collect_throws_after {A B} (f : A -> result (list B)) (l r : list A) (a : A) (e : exn) :
  (forall x, In x l -> exists bs, f x = Ok bs) -> f a = Throw e ->
  collect f (l ++ a :: r) = Throw e.
Proof.
  induction l as [|x l' IH]; intros H Hf.
  - cbn [app collect]. rewrite Hf. reflexivity.
  - cbn [app collect]. destruct (H x (or_introl eq_refl)) as (bs & ->). cbn [bind].
    rewrite IH; [reflexivity| |exact Hf]. intros y Hy. apply H. right. exact Hy.
Qed.

(** No link to a variable is made on a line that is not behind the
    line at which [getLinks] stopped. *)
Lemma matchLinks_above (l : obj (obj Link)) (blockEnd n : nat) (line : jsstring)
  (se : nat * nat) :
  n <= blockEnd -> exists ls, matchLinks l blockEnd n line se = Ok ls.
Proof.
  intros H. unfold matchLinks. cbv zeta.
  destruct (test e1cib_re _); [eexists; reflexivity|].
  rewrite (proj2 (Nat.ltb_ge blockEnd n) H). eexists; reflexivity.
Qed.

Lemma is_quote_cases (q : N) : is_quote q = true -> q = c_quote \/ q = c_apos.
Proof.
  unfold is_quote, one_of. cbn [existsb]. intros H.
  destruct (N.eqb q c_quote) eqn:E1; [apply N.eqb_eq in E1; left; exact E1|].
  destruct (N.eqb q c_apos) eqn:E2; [apply N.eqb_eq in E2; right; exact E2|].
  discriminate H.
Qed.

Lemma run_link_other (x : N) (s : jsstring) (i : nat) (c : caps) :
  is_quote x = false -> run link_re i (x :: s) c here = None.
Proof.
  unfold is_quote, one_of. cbn [existsb]. intros H.
  apply orb_false_iff in H. destruct H as [H1 H]. apply orb_false_iff in H. destruct H as [H2 _].
  rewrite N.eqb_sym in H1. rewrite N.eqb_sym in H2.
  unfold link_re, quoted_link_re, Lit. cbn [Seqs].
  change (run (Alt ?a ?b) i (x :: s) c here)
    with (match run a i (x :: s) c here with Some y => Some y | None => run b i (x :: s) c here end).
  rewrite !run_Seq, !run_grp_chr, H1, H2. reflexivity.
Qed.

Lemma search_link_skip (pre s : jsstring) :
  forallb (fun x => negb (is_quote x)) pre = true ->
  forall i, search link_re i (pre ++ s) = search link_re (i + List.length pre) s.
Proof.
  induction pre as [|x r IH]; intros H i.
  - cbn [app List.length]. rewrite Nat.add_0_r. reflexivity.
  - cbn [forallb] in H. apply andb_true_iff in H. destruct H as [Hx Hr].
    apply negb_true_iff in Hx. cbn [app search]. fold here.
    rewrite (run_link_other x (r ++ s) i [] Hx), (IH Hr (S i)).
    cbn [List.length]. f_equal. lia.
Qed.

Lemma run_quoted_unit (q x : N) (s : jsstring) (i : nat) (c : caps) (K : kont) :
  N.eqb c_backslash x = false ->
  run (Alt (Seq (Lit c_backslash) (Lit q))
           (Chr (fun y => is_dot y && negb (N.eqb y q))%bool)) i (x :: s) c K
  = if (is_dot x && negb (N.eqb x q))%bool then K (S i) s c else None.
Proof.
  intros H.
  change (run (Alt ?a ?b) i (x :: s) c K)
    with (match run a i (x :: s) c K with
          | Some y => Some y
          | None => run b i (x :: s) c K
          end).
  unfold Lit. rewrite run_Seq. cbn [run]. rewrite H. reflexivity.
Qed.

Lemma star_quoted (q : N) (k : kont) (post : jsstring) (a : nat * caps) :
  N.eqb c_backslash q = false ->
  forall content fuel i c,
    forallb (plain_unit q) content = true ->
    List.length content < fuel ->
    k (i + List.length content) (q :: post) c = Some a ->
    star_loop
      (run (Alt (Seq (Lit c_backslash) (Lit q))
                (Chr (fun x => is_dot x && negb (N.eqb x q))%bool)))
      k fuel i (content ++ q :: post) c = Some a.
Proof.
  intros Hq. induction content as [|x r IH]; intros fuel i c Hc Hf Hk.
  - destruct fuel as [|f]; [cbn in Hf; lia|].
    cbn [app List.length] in *. rewrite Nat.add_0_r in Hk.
    cbn [star_loop]. rewrite (run_quoted_unit q q post i c _ Hq).
    rewrite N.eqb_refl, andb_false_r. exact Hk.
  - destruct fuel as [|f]; [cbn in Hf; lia|].
    cbn [forallb] in Hc. apply andb_true_iff in Hc. destruct Hc as [Hx Hr].
    unfold plain_unit in Hx. apply andb_true_iff in Hx. destruct Hx as [Hb Hx].
    apply negb_true_iff in Hb.
    cbn [app star_loop]. rewrite (run_quoted_unit q x _ i c _ Hb), Hx.
    rewrite (proj2 (Nat.ltb_lt i (S i))) by lia.
    rewrite (IH f (S i) c Hr); [reflexivity|cbn [List.length] in Hf; lia|].
    cbn [List.length] in Hk. replace (S i + List.length r) with (i + S (List.length r)) by lia.
    exact Hk.
Qed.

Lemma run_quoted_link (q : N) (content post : jsstring) (j : nat) :
  N.eqb c_backslash q = false ->
  forallb (plain_unit q) content = true ->
  exists cs,
    run (quoted_link_re q) j (q :: content ++ q :: post) [] here
    = Some (S (S j + List.length content), cs).
Proof.
  intros Hq Hc. eexists. unfold quoted_link_re, Lit. cbn [Seqs].
  rewrite run_Seq, run_grp_chr, N.eqb_refl.
  change (run (Seq (Grp 2 (Star ?A)) ?R) (S j) ?s ?c here)
    with (star_loop (run A)
            (fun i' s' c' => run R i' s' ((2, (S j, i')) :: c') here)
            (S (List.length s)) (S j) s c).
  apply (star_quoted q _ post _ Hq content); [exact Hc|rewrite length_app; lia|].
  rewrite run_grp_chr, N.eqb_refl. reflexivity.
Qed.

Lemma run_link_quoted (q : N) (content post : jsstring) (j : nat) :
  is_quote q = true ->
  forallb (plain_unit q) content = true ->
  exists cs,
    run link_re j (q :: content ++ q :: post) [] here
    = Some (S (S j + List.length content), cs).
Proof.
  intros Hq Hc. unfold link_re.
  change (run (Alt ?a ?b) j ?s [] here)
    with (match run a j s [] here with Some y => Some y | None => run b j s [] here end).
  destruct (is_quote_cases q Hq) as [->| ->].
  - destruct (run_quoted_link c_quote content post j eq_refl Hc) as (cs & ->).
    exists cs. reflexivity.
  - assert (E : run (quoted_link_re c_quote) j (c_apos :: content ++ c_apos :: post) [] here
                = None).
    { unfold quoted_link_re, Lit. cbn [Seqs]. rewrite run_Seq, run_grp_chr. reflexivity. }
    rewrite E. apply (run_quoted_link c_apos content post j eq_refl Hc).
Qed.

(** The first match of the pattern of the links on a line that holds,
    behind a text without quotes, a quoted text of plain code units. *)
Lemma spans_link_first (q : N) (pre content post : jsstring) :
  is_quote q = true ->
  forallb (fun x => negb (is_quote x)) pre = true ->
  forallb (plain_unit q) content = true ->
  exists rest,
    spans link_re (pre ++ q :: content ++ q :: post)
    = (List.length pre, S (S (List.length pre + List.length content))) :: rest.
Proof.
  intros Hq Hpre Hc. unfold spans. cbn [spans_from].
  rewrite (search_link_skip pre _ Hpre 0). cbn [Nat.add].
  destruct (run_link_quoted q content post (List.length pre) Hq Hc) as (cs & E).
  rewrite (search_here _ _ _ _ _ E).
  rewrite (proj2 (Nat.eqb_neq _ _)) by lia. eexists. reflexivity.
Qed.

Lemma run_seq_chr_eq (f : N -> bool) (rest : re) (s : jsstring) (i : nat) (c : caps)
  (k : kont) :
  run (Seq (Chr f) rest) i s c k
  = match s with
    | y :: s' => if f y then run rest (S i) s' c k else None
    | [] => None
    end.
Proof. reflexivity. Qed.

(** A text without a slash is no address [e1cib/...]. *)
Lemma test_e1cib_no_slash (w : jsstring) :
  forallb (fun c => negb (N.eqb c_slash c)) w = true -> test e1cib_re w = false.
Proof.
  intros H. unfold test, exec.
  assert (E : run e1cib_re 0 w [] here = None).
  { unfold e1cib_re, Lit. cbn [Seqs].
    change (run (Seq Bol ?R) 0 w [] here) with (run R 0 w [] here).
    do 5 (rewrite run_seq_chr_eq; destruct w as [|? w]; [reflexivity|];
          cbn [forallb] in H; apply andb_true_iff in H; destruct H as [_ H];
          match goal with
          | |- (if ?b then _ else _) = None => destruct b; [|reflexivity]
          end).
    rewrite run_seq_chr_eq. destruct w as [|x w]; [reflexivity|].
    cbn [forallb] in H. apply andb_true_iff in H. destruct H as [Hx _].
    apply negb_true_iff in Hx. rewrite Hx. reflexivity. }
  destruct w as [|x r]; cbn [search]; fold here; rewrite E; [reflexivity|].
  rewrite (search_later_none e1cib_re) by (intros; reflexivity). reflexivity.
Qed.

Lemma star_loop_end (step : nat -> jsstring -> caps -> kont -> answer) (k : kont)
  (fuel i : nat) (c : caps) :
  (forall K, step i [] c K = None) -> star_loop step k fuel i [] c = k i [] c.
Proof. intros H. destruct fuel; cbn [star_loop]; [reflexivity|]. rewrite H. reflexivity. Qed.

(** Two names with a dot between them are a dotted name. *)
Lemma test_dotted (ref field : jsstring) :
  is_name ref = true -> is_name field = true ->
  test dotted_re (ref ++ 46%N :: field) = true.
Proof.
  intros Hr Hf.
  destruct ref as [|x r]; [discriminate Hr|]. destruct field as [|y fr]; [discriminate Hf|].
  cbn [is_name] in Hr, Hf. apply andb_true_iff in Hr, Hf.
  destruct Hr as [Hx Hr]. destruct Hf as [Hy Hf].
  assert (E : exists a, run dotted_re 0 ((x :: r) ++ 46%N :: y :: fr) [] here = Some a).
  { unfold dotted_re, name_re. cbn [Seqs app]. eexists.
    apply seq_bol.
    apply (seq_grp_name_longest 1 is_letter is_name_unit); [exact Hx|exact Hr|reflexivity|].
    set (G := Grp 2 (Seq (Lit 46) (Seq (Chr is_letter)
                                      (Star (Chr (fun c => (is_digit c || is_letter c)%bool)))))).
    set (i := 1 + List.length r). set (c1 := [(1, (0, i))]).
    change (run (Seq (Star G) Eol) i (46%N :: y :: fr) c1 here)
      with (star_loop (run G) (fun i' s' c' => run Eol i' s' c' here)
              (S (List.length (46%N :: y :: fr))) i (46%N :: y :: fr) c1).
    cbn [star_loop].
    set (K := fun i' s' c' =>
                if i <? i'
                then star_loop (run G) (fun i2 s2 c2 => run Eol i2 s2 c2 here)
                       (List.length (46%N :: y :: fr)) i' s' c'
                else None).
    assert (R : run G i (46%N :: y :: fr) c1 K
                = Some (S (S i) + List.length fr, (2, (i, S (S i) + List.length fr)) :: c1)).
    { unfold G, Lit.
      change (run (Grp 2 (Seq (Chr (N.eqb 46)) (Seq (Chr is_letter) (Star (Chr ?f)))))
                i (46%N :: y :: fr) c1 K)
        with (if is_letter y
              then run (Star (Chr f)) (S (S i)) fr c1
                     (fun i' s' c' => K i' s' ((2, (i, i')) :: c'))
              else None).
      rewrite Hy, run_star_class. rewrite <- (app_nil_r fr) at 1.
      apply backtrack_longest; [exact Hf|exact I|].
      unfold K. rewrite (proj2 (Nat.ltb_lt i _)) by lia.
      rewrite star_loop_end by (intros; reflexivity). reflexivity. }
    rewrite R. reflexivity. }
  destruct E as (a & E). destruct a as [e c]. unfold test, exec.
  rewrite (search_here _ _ _ _ _ E). reflexivity.
Qed.

Lemma name_unit_facts (c : N) :
  is_name_unit c = true ->
  is_dot c = true /\ is_quote c = false /\ N.eqb c_slash c = false /\ N.eqb c 46 = false.
Proof.
  unfold is_name_unit, is_digit, is_letter, is_dot, is_quote, one_of, inN.
  cbn [existsb]. unfold c_quote, c_apos, c_slash. intros H.
  repeat split; revert H; unit_cases; intros; try reflexivity; discriminate.
Qed.

Lemma letter_name_unit (c : N) : is_letter c = true -> is_name_unit c = true.
Proof. intros H. unfold is_name_unit. rewrite H. apply orb_true_r. Qed.

Lemma is_name_units (s : jsstring) : is_name s = true -> forallb is_name_unit s = true.
Proof.
  destruct s as [|x r]; [discriminate|]. cbn [is_name forallb]. intros H.
  apply andb_true_iff in H. destruct H as [Hx Hr]. rewrite (letter_name_unit x Hx). exact Hr.
Qed.

Lemma plain_name_units (q : N) (s : jsstring) :
  is_quote q = true -> plain_name s = true -> forallb (plain_unit q) s = true.
Proof.
  intros Hq H. unfold plain_name in H. apply andb_true_iff in H. destruct H as [Hn Hb].
  apply is_name_units in Hn. rewrite forallb_forall in *. intros c Hc.
  destruct (name_unit_facts c (Hn c Hc)) as (Hd & Hnq & _ & _).
  unfold plain_unit. rewrite (Hb c Hc), Hd. cbn [andb].
  destruct (N.eqb c q) eqn:E; [|reflexivity].
  apply N.eqb_eq in E. subst c. rewrite Hq in Hnq. discriminate Hnq.
Qed.

Lemma split_two (ref field : jsstring) :
  forallb (fun c => negb (N.eqb c 46)) ref = true ->
  forallb (fun c => negb (N.eqb c 46)) field = true ->
  forall cur, split_acc 46 cur (ref ++ 46%N :: field) = [rev cur ++ ref; field].
Proof.
  intros Hr Hf. induction ref as [|x r IH]; intros cur.
  - cbn [app split_acc]. change (N.eqb 46 46) with true. cbv iota.
    rewrite (split_acc_none 46 field [] Hf), app_nil_r. reflexivity.
  - cbn [forallb] in Hr. apply andb_true_iff in Hr. destruct Hr as [Hx Hr].
    apply negb_true_iff in Hx. cbn [app split_acc]. rewrite Hx, (IH Hr).
    cbn [rev]. rewrite <- app_assoc. reflexivity.
Qed.

Lemma quoted_text (pre content post : jsstring) (q : N) :
  let line := pre ++ q :: content ++ q :: post in
  let matched := substring (List.length pre) (S (S (List.length pre + List.length content))) line in
  matched = q :: content ++ [q] /\
  substring 1 (List.length matched - 1) matched = content.
Proof.
  cbv zeta.
  assert (M : substring (List.length pre) (S (S (List.length pre + List.length content)))
                (pre ++ q :: content ++ q :: post) = q :: content ++ [q]).
  { unfold substring. rewrite skipn_app, skipn_all, Nat.sub_diag. cbn [skipn app].
    assert (E : q :: content ++ q :: post = (q :: content ++ [q]) ++ post)
      by (cbn [app]; rewrite <- app_assoc; reflexivity).
    assert (L : S (S (List.length pre + List.length content)) - List.length pre
                = List.length (q :: content ++ [q]))
      by (cbn [List.length]; rewrite length_app; cbn [List.length]; lia).
    rewrite E, L, firstn_app, Nat.sub_diag, firstn_all. cbn [firstn]. apply app_nil_r. }
  rewrite M. split; [reflexivity|].
  unfold substring. change (skipn 1 (q :: content ++ [q])) with (content ++ [q]).
  replace (List.length (q :: content ++ [q]) - 1 - 1) with (List.length content)
    by (cbn [List.length]; rewrite length_app; cbn [List.length]; lia).
  rewrite firstn_app, Nat.sub_diag, firstn_all. cbn [firstn]. apply app_nil_r.
Qed.

(** The table that [getLinks] returns for a block of one assignment. *)
Lemma getLinks_assignment (p : Provider) (m : KeywordMatcher) (model : ITextModel)
  (v : nat) (ws0 name ws1 ws2 value : jsstring) :
  _matcher p = Some m ->
  1 <= v -> v + 2 <= getLineCount model ->
  (forall n, 1 <= n < v -> isVariablesLine m (getLineContent model n) = false) ->
  isVariablesLine m (getLineContent model v) = true ->
  getLineContent model (v + 1) = ws0 ++ name ++ ws1 ++ [c_eq] ++ ws2 ++ value ->
  forallb is_space ws0 = true -> is_name name = true ->
  forallb is_space ws1 = true -> forallb is_space ws2 = true ->
  forallb is_dot value = true -> stops is_space value ->
  plain_line m (getLineContent model (v + 2)) = true ->
  isSection p (getLineContent model (v + 2)) [] = Ok true ->
  getLinks p model (getLineCount model)
  = Ok (put_link (links scanStart) [] (toLowerCase name)
          {| lk_key := toLowerCase name; lk_name := Some (trim value);
             lk_file := None; lk_data := None; lk_column := None;
             lk_table := None; lk_param := None |}, v + 2).
Proof.
  intros Hm Hv Hcount Hpre Hvar Hline H0 Hn H1 H2 Hval Hstop Hplain Hsec.
  unfold getLinks, matcher. rewrite Hm. cbn [bind].
  replace (getLineCount model - 1) with ((v - 1) + S (getLineCount model - 1 - v)) by lia.
  rewrite seq_app. rewrite findBlock_skip.
  2:{ intros n Hin. apply in_seq in Hin. apply Hpre. lia. }
  replace (1 + (v - 1)) with v by lia. cbn [seq findBlock].
  rewrite Hvar.
  replace (getLineCount model - v) with (2 + (getLineCount model - v - 2)) by lia.
  cbn [Nat.add seq scanBlock].
  replace (S v) with (v + 1) by lia. rewrite Hline.
  rewrite (scanLine_assignment p m scanStart ws0 name ws1 ws2 value
             eq_refl H0 Hn H1 H2 Hval Hstop).
  cbn [bind]. replace (S (v + 1)) with (v + 2) by lia.
  rewrite (scanLine_section p m) by first [exact Hm|reflexivity|exact Hplain|exact Hsec].
  reflexivity.
Qed.

Lemma lowered_nonempty (s : jsstring) : is_name s = true -> toLowerCase s <> [].
Proof. destruct s; [discriminate|]. intros _. discriminate. Qed.

(** The round of the loop of [provideLinks] for a quoted reference to
    a field of a variable that an assignment defined. *)
Lemma matchLinks_field (name ref field pre post : jsstring) (q : N) (o : Link)
  (blockEnd n : nat) :
  is_quote q = true ->
  plain_name ref = true -> plain_name field = true ->
  toLowerCase ref = toLowerCase name ->
  inherited (toLowerCase name) = false ->
  lk_data o = None ->
  blockEnd < n ->
  let content := ref ++ 46%N :: field in
  matchLinks (put_link (links scanStart) [] (toLowerCase name) o) blockEnd n
    (pre ++ q :: content ++ q :: post)
    (List.length pre, S (S (List.length pre + List.length content)))
  = Throw TypeError.
Proof.
  intros Hq Hr Hf Hlow Hinh Hdata Hb content.
  assert (Nr : is_name ref = true) by (apply andb_true_iff in Hr; apply Hr).
  assert (Nf : is_name field = true) by (apply andb_true_iff in Hf; apply Hf).
  unfold matchLinks. cbv zeta. cbn [fst snd].
  destruct (quoted_text pre content post q) as [_ P]. cbv zeta in P. rewrite P.
  assert (Hunits : forallb is_name_unit ref = true /\ forallb is_name_unit field = true)
    by (split; apply is_name_units; assumption).
  destruct Hunits as [Ur Uf].
  assert (Slash : forallb (fun c => negb (N.eqb c_slash c)) content = true).
  { unfold content. rewrite forallb_app. cbn [forallb].
    apply andb_true_iff. split; [|apply andb_true_iff; split; [reflexivity|]];
      apply forallb_forall; intros c Hc;
      [rewrite forallb_forall in Ur; destruct (name_unit_facts c (Ur c Hc)) as (_ & _ & S & _)
      |rewrite forallb_forall in Uf; destruct (name_unit_facts c (Uf c Hc)) as (_ & _ & S & _)];
      rewrite S; reflexivity. }
  rewrite (test_e1cib_no_slash content Slash).
  rewrite (proj2 (Nat.ltb_lt blockEnd n) Hb).
  unfold content at 1. rewrite (test_dotted ref field Nr Nf).
  unfold content at 1, split. rewrite (split_two ref field).
  2:{ apply forallb_forall. intros c Hc. rewrite forallb_forall in Ur.
      destruct (name_unit_facts c (Ur c Hc)) as (_ & _ & _ & D). rewrite D. reflexivity. }
  2:{ apply forallb_forall. intros c Hc. rewrite forallb_forall in Uf.
      destruct (name_unit_facts c (Uf c Hc)) as (_ & _ & _ & D). rewrite D. reflexivity. }
  cbn [rev app List.map]. rewrite Hlow.
  assert (E0 : eqb (toLowerCase name) [] = false).
  { destruct (eqb (toLowerCase name) []) eqn:E; [|reflexivity].
    apply eqb_eq in E. rewrite <- Hlow in E. exfalso. apply (lowered_nonempty ref Nr E). }
  unfold addLink, addLinkAt, put_link.
  assert (T0 : link_at (oset (links scanStart) []
                          (oset (table_of (links scanStart) []) (toLowerCase name) o))
                 (toLowerCase name) (toLowerCase field) = Absent).
  { unfold link_at, tread. rewrite !oget_oset, E0, Hinh.
    cbn [links scanStart oget]. rewrite E0. reflexivity. }
  rewrite T0.
  assert (T1 : link_at (oset (links scanStart) []
                          (oset (table_of (links scanStart) []) (toLowerCase name) o))
                 [] (toLowerCase name) = Found o).
  { unfold link_at, tread. rewrite !oget_oset_same. reflexivity. }
  rewrite T1.
  unfold linkTooltip. destruct (toLowerCase field) as [|y r] eqn:E;
    [exfalso; apply (lowered_nonempty field Nf E)|].
  rewrite Hdata. reflexivity.
Qed.

(** X29: when the block of the variables holds one assignment
    [name = value], with a name that is none of the names a table
    inherits ([constructor], [__proto__]), and a later line quotes
    [ref.field], where [ref] is the name up to the case of its letters
    and no line between the block and this line holds a quoted text,
    [provideLinks] throws a TypeError and returns no link at all:
    [add] finds no table [ref], takes [ref] for a row of the unnamed
    table and reads [Object.keys(obj.data)] of a record that has no
    [data]. *)
Theorem provideLinks_field_of_variable (p : Provider) (m : KeywordMatcher)
  (model : ITextModel) (v n : nat) (ws0 name ws1 ws2 value pre ref field post : jsstring)
  (q : N) :
  _matcher p = Some m ->
  1 <= v -> v + 2 < n <= getLineCount model ->
  (forall k, 1 <= k < v -> isVariablesLine m (getLineContent model k) = false) ->
  isVariablesLine m (getLineContent model v) = true ->
  getLineContent model (v + 1) = ws0 ++ name ++ ws1 ++ [c_eq] ++ ws2 ++ value ->
  forallb is_space ws0 = true -> is_name name = true ->
  forallb is_space ws1 = true -> forallb is_space ws2 = true ->
  forallb is_dot value = true -> stops is_space value ->
  inherited (toLowerCase name) = false ->
  plain_line m (getLineContent model (v + 2)) = true ->
  isSection p (getLineContent model (v + 2)) [] = Ok true ->
  (forall k, v + 2 < k < n -> spans link_re (getLineContent model k) = []) ->
  getLineContent model n = pre ++ q :: (ref ++ 46%N :: field) ++ q :: post ->
  is_quote q = true ->
  forallb (fun x => negb (is_quote x)) pre = true ->
  plain_name ref = true -> plain_name field = true ->
  toLowerCase ref = toLowerCase name ->
  provideLinks p model = Throw TypeError.
Proof.
  intros Hm Hv Hn Hpre Hvar Hline H0 Hname H1 H2 Hval Hstop Hinh Hplain Hsec Hbetween
         Href Hq Hnq Hr Hf Hlow.
  unfold provideLinks.
  rewrite (getLinks_assignment p m model v ws0 name ws1 ws2 value)
    by first [assumption|lia].
  cbn [bind fst snd].
  set (l := put_link _ _ _ _).
  assert (Hc : forallb (plain_unit q) (ref ++ 46%N :: field) = true).
  { rewrite forallb_app. cbn [forallb].
    rewrite (plain_name_units q ref Hq Hr), (plain_name_units q field Hq Hf).
    destruct (is_quote_cases q Hq) as [-> | ->]; reflexivity. }
  destruct (spans_link_first q pre (ref ++ 46%N :: field) post Hq Hnq Hc) as (rest & Hs).
  replace (getLineCount model) with ((n - 1) + S (getLineCount model - n)) at 1 by lia.
  rewrite seq_app. replace (1 + (n - 1)) with n by lia. cbn [seq].
  apply collect_throws_after.
  - intros k Hk. apply in_seq in Hk. cbv beta.
    destruct (le_lt_dec k (v + 2)) as [Hle|Hlt].
    + apply collect_returns. intros se _. apply matchLinks_above. exact Hle.
    + rewrite Hbetween by lia. exists []. reflexivity.
  - cbv beta. rewrite Href, Hs. apply collect_first_throws.
    apply matchLinks_field; first [assumption|reflexivity|lia].
Qed.

Lemma provideLinks_field_of_variable_witness :
  let model := Host.createModel (str "turbo-gherkin")
                 [str "Variables:"; str "  Home = e1cib/list  "; str "Scenario: first";
                  str "  click button"; str "  open 'home.Title' now"] in
  provideLinks scenarioD model = Throw TypeError.
Proof.
  intros model.
  apply (provideLinks_field_of_variable scenarioD Host.sampleMatcher model 1 5
           (str "  ") (str "Home") (str " ") (str " ") (str "e1cib/list  ")
           (str "  open ") (str "home") (str "Title") (str " now") c_apos);
    try reflexivity; try (simpl; lia).
  intros k Hk. assert (k = 4) as -> by lia. reflexivity.
Defined.
